(** * BounceTales 2.0: the physics, collision and level-state core

    A shallow embedding of [src/player.py] (class [PlayerBall]),
    [src/level_manager.py] (class [LevelManager]) and the per-frame part of
    [src/main.py] ([Game.update]), with the properties of the specification
    stated and settled against it.

    Numbers.  Python's [int] and [float] values are embedded as exact
    rationals ([Q]): the literals of the source ([0.8], [0.9], [-0.5], ...)
    are rationals, and the comparisons, [abs], [min] and [max] of the source
    are the ones of [Q].  In the classes below the arithmetic is exact and
    [math.sqrt(s) <= r] has its meaning on the reals,
    [0 <= r /\ s <= r * r]; the properties stated on them are properties
    of the program up to rounding.  Where rounding decides a property, the
    same tests are written out in binary64 (module [Binary64]: every
    operation rounds to 53 bits, ties to even), and the property is stated
    on those.  Infinities, NaN, overflow and subnormal numbers are outside
    the model.

    The file [customization.json].  What [json.load] returns is embedded
    as a record of optional entries ([Customization.saved]), each of the
    type of its default: a number for [size], [bounce_factor], [opacity]
    and [glow_size], a string for [texture], a boolean for [glow], a
    sequence of three integers for the colours.  A file that parses to
    something else (a list, an object with a string for [size], ...) has
    no value in this type: what the program does on such a file (a
    [TypeError], at once or in a later frame) is outside the model, and
    every statement about a file is about a file of this kind or an absent
    or unparsable one.

    Dictionaries with a fixed set of keys are records; a key that may be
    missing is an [option] field.  The table of levels is a finite map, and
    the attributes [platforms], [enemies] and [goal] of the level manager
    are references into that table, as they are in the source. *)

From Stdlib Require Import QArith Qabs Qminmax Qround Lqa ZArith Bool List
  String.
From stdpp Require Import gmap.
Import ListNotations.

Local Open Scope Q_scope.

(** ** Numeric helpers *)

(** [a < b] as a boolean. *)
Definition Qlt_bool (a b : Q) : bool := negb (Qle_bool b a).

(** [math.sqrt(s) <= r]. *)
Definition sqrt_le (s r : Q) : bool := Qle_bool 0 r && Qle_bool s (r * r).

(** An RGB triple. *)
Definition Color : Type := (Z * Z * Z)%type.

(** ** The ball's customization dictionary *)

Module Customization.

Record t : Type := mk {
  color : Color;
  size : Q;
  texture : string;
  bounce_factor : Q;
  opacity : Q;
  glow : bool;
  glow_color : Color;
  glow_size : Q;
  pattern_color : Color
}.

(** The literal of [PlayerBall.__init__]. *)
Definition defaults : t :=
  {| color := (255, 0, 0)%Z;
     size := 20;
     texture := "solid";
     bounce_factor := 7 # 10;
     opacity := 255;
     glow := false;
     glow_color := (255, 255, 200)%Z;
     glow_size := 3 # 2;
     pattern_color := (255, 255, 255)%Z |}.

(** The content of [customization.json]: any of the keys may be missing. *)
Record saved : Type := mk_saved {
  s_color : option Color;
  s_size : option Q;
  s_texture : option string;
  s_bounce_factor : option Q;
  s_opacity : option Q;
  s_glow : option bool;
  s_glow_color : option Color;
  s_glow_size : option Q;
  s_pattern_color : option Color
}.

Definition no_keys : saved :=
  mk_saved None None None None None None None None None.

(** [dict.update(saved)]: every key present in [s] overwrites the entry. *)
Definition update (c : t) (s : saved) : t :=
  {| color := default (color c) (s_color s);
     size := default (size c) (s_size s);
     texture := default (texture c) (s_texture s);
     bounce_factor := default (bounce_factor c) (s_bounce_factor s);
     opacity := default (opacity c) (s_opacity s);
     glow := default (glow c) (s_glow s);
     glow_color := default (glow_color c) (s_glow_color s);
     glow_size := default (glow_size c) (s_glow_size s);
     pattern_color := default (pattern_color c) (s_pattern_color s) |}.

(** The ranges the source documents: [set_size], [set_bounce] and
    [set_opacity] clamp to them. *)
Definition in_ranges (c : t) : Prop :=
  (10 <= size c <= 50) /\
  ((1 # 10) <= bounce_factor c <= 1) /\
  (0 <= opacity c <= 255).

Definition in_rangesb (c : t) : bool :=
  Qle_bool 10 (size c) && Qle_bool (size c) 50 &&
  Qle_bool (1 # 10) (bounce_factor c) && Qle_bool (bounce_factor c) 1 &&
  Qle_bool 0 (opacity c) && Qle_bool (opacity c) 255.

End Customization.

(** ** Platforms, enemies and the goal: the dictionaries of the level data *)

Module Platform.

Record t : Type := mk {
  x : Q;
  y : Q;
  width : Q;
  height : Q;
  color : Color;
  type : option string;     (* the key 'type' *)
  start_x : option Q;
  end_x : option Q;
  speed : option Q
}.

(** A platform with the four keys every literal of the source has. *)
Definition static (x y width height : Q) (color : Color) : t :=
  mk x y width height color None None None None.

Definition set_x (p : t) (v : Q) : t :=
  mk v (y p) (width p) (height p) (color p) (type p)
     (start_x p) (end_x p) (speed p).

Definition set_speed (p : t) (v : Q) : t :=
  mk (x p) (y p) (width p) (height p) (color p) (type p)
     (start_x p) (end_x p) (Some v).

(** [platform.get('type') == k]. *)
Definition has_type (k : string) (p : t) : bool :=
  match type p with
  | Some s => String.eqb s k
  | None => false
  end.

(** The rectangle of a platform, which is all a collision looks at. *)
Definition rect (p : t) : Q * Q * Q * Q := (x p, y p, width p, height p).

End Platform.

Module Enemy.

Record t : Type := mk {
  x : Q;
  y : Q;
  width : Q;
  height : Q;
  color : Color;
  patrol : option (Q * Q);  (* the key 'patrol': [low, high] *)
  speed : option Q          (* the key 'speed', absent in the level data *)
}.

Definition set_x (e : t) (v : Q) : t :=
  mk v (y e) (width e) (height e) (color e) (patrol e) (speed e).

Definition set_speed (e : t) (v : Q) : t :=
  mk (x e) (y e) (width e) (height e) (color e) (patrol e) (Some v).

End Enemy.

Module Goal.

Record t : Type := mk {
  x : Q;
  y : Q;
  width : Q;
  height : Q;
  color : Color
}.

End Goal.

(** ** [class PlayerBall] *)

Module PlayerBall.

Record t : Type := mk {
  x : Q;
  y : Q;
  vel_x : Q;
  vel_y : Q;
  on_ground : bool;
  customization : Customization.t;
  max_vel_x : Q;
  acceleration : Q;
  friction : Q
}.

Definition set_x (b : t) (v : Q) : t :=
  mk v (y b) (vel_x b) (vel_y b) (on_ground b) (customization b)
     (max_vel_x b) (acceleration b) (friction b).

Definition set_y (b : t) (v : Q) : t :=
  mk (x b) v (vel_x b) (vel_y b) (on_ground b) (customization b)
     (max_vel_x b) (acceleration b) (friction b).

Definition set_vel_x (b : t) (v : Q) : t :=
  mk (x b) (y b) v (vel_y b) (on_ground b) (customization b)
     (max_vel_x b) (acceleration b) (friction b).

Definition set_vel_y (b : t) (v : Q) : t :=
  mk (x b) (y b) (vel_x b) v (on_ground b) (customization b)
     (max_vel_x b) (acceleration b) (friction b).

Definition set_on_ground (b : t) (v : bool) : t :=
  mk (x b) (y b) (vel_x b) (vel_y b) v (customization b)
     (max_vel_x b) (acceleration b) (friction b).

(** [self.customization['size']] *)
Definition radius (b : t) : Q := Customization.size (customization b).

(** [load_customization]: [file] is what [json.load] returns, [None] when
    the file does not exist or does not parse (the [except] branch). *)
Definition load_customization
    (c : Customization.t) (file : option Customization.saved)
    : Customization.t :=
  match file with
  | Some saved => Customization.update c saved
  | None => c
  end.

(** [__init__(x, y)], reading [customization.json] as [file]. *)
Definition init (x0 y0 : Q) (file : option Customization.saved) : t :=
  {| x := x0;
     y := y0;
     vel_x := 0;
     vel_y := 0;
     on_ground := false;
     customization := load_customization Customization.defaults file;
     max_vel_x := 12;
     acceleration := 4 # 5;
     friction := 9 # 10 |}.

(** [move_left]: defined twice in the class with the same body. *)
Definition move_left (b : t) : t :=
  if Qlt_bool (Qabs (vel_x b)) (max_vel_x b)
  then set_vel_x b (vel_x b - acceleration b)
  else b.

(** The first [move_right] of the class (line 104), which the second
    definition replaces. *)
Definition move_right_first (b : t) : t :=
  if Qlt_bool (Qabs (vel_x b)) (max_vel_x b)
  then set_vel_x b (vel_x b + acceleration b)
  else b.

(** [move_right] as the class ends up with it (line 147): the body of the
    second definition runs on into the statements of a jump whose [def]
    line is gone, with jump strength [-12]. *)
Definition move_right (b : t) : t :=
  let b :=
    if Qlt_bool (Qabs (vel_x b)) (max_vel_x b)
    then set_vel_x b (vel_x b + acceleration b)
    else b in
  if on_ground b
  then set_on_ground (set_vel_y b (-12)) false
  else b.

(** [jump] (line 109). *)
Definition jump (b : t) : t :=
  if on_ground b
  then set_on_ground (set_vel_y b (-15)) false
  else b.

(** [check_collision(platform)] *)
Definition check_collision (b : t) (platform : Platform.t) : t :=
  let radius := radius b in
  let px := Platform.x platform in
  let py := Platform.y platform in
  let closest_x := Qmax px (Qmin (x b) (px + Platform.width platform)) in
  let closest_y := Qmax py (Qmin (y b) (py + Platform.height platform)) in
  let distance2 := (x b - closest_x) ^ 2 + (y b - closest_y) ^ 2 in
  if sqrt_le distance2 radius then
    if Qeq_bool closest_y py then
      set_on_ground
        (set_vel_y (set_y b (py - radius))
                   (- vel_y b * Customization.bounce_factor (customization b)))
        true
    else if Qeq_bool closest_y (py + Platform.height platform) then
      set_vel_y (set_y b (py + Platform.height platform + radius))
                (- vel_y b * (1 # 2))
    else if Qeq_bool closest_x px then
      set_vel_x (set_x b (px - radius)) (vel_x b * - (1 # 2))
    else
      set_vel_x (set_x b (px + Platform.width platform + radius))
                (vel_x b * - (1 # 2))
  else b.

(** The loop [for platform in platforms: self.check_collision(platform)]. *)
Definition check_collisions (b : t) (platforms : list Platform.t) : t :=
  fold_left check_collision platforms b.

Section Config.

(** [config.py] is not part of the source tree: its constants are
    parameters of the development. *)
Variables SCREEN_WIDTH SCREEN_HEIGHT GRAVITY : Q.

(** The screen boundaries at the end of [update]. *)
Definition screen_bounds (b : t) : t :=
  let radius := radius b in
  let b :=
    if Qlt_bool (x b) radius then
      set_vel_x (set_x b radius) (vel_x b * - (1 # 2))
    else if Qlt_bool (SCREEN_WIDTH - radius) (x b) then
      set_vel_x (set_x b (SCREEN_WIDTH - radius)) (vel_x b * - (1 # 2))
    else b in
  if Qlt_bool (y b) radius then
    set_vel_y (set_y b radius) 0
  else if Qlt_bool (SCREEN_HEIGHT - radius) (y b) then
    set_on_ground
      (set_vel_y (set_y b (SCREEN_HEIGHT - radius))
                 (- vel_y b * Customization.bounce_factor (customization b)))
      true
  else b.

(** [update(platforms, in_water)]: one integration step. *)
Definition update (b : t) (platforms : list Platform.t) (in_water : bool)
    : t :=
  let gravity := if in_water then GRAVITY * (1 # 2) else GRAVITY in
  let b := set_vel_y b (vel_y b + gravity) in
  let b := if on_ground b then set_vel_x b (vel_x b * friction b) else b in
  let b := set_x b (x b + vel_x b) in
  let b := set_y b (y b + vel_y b) in
  let b := set_on_ground b false in
  let b := check_collisions b platforms in
  screen_bounds b.

(** The caller's test [self.player.y > SCREEN_HEIGHT + 100]. *)
Definition fell_off_world (b : t) : bool :=
  Qlt_bool (SCREEN_HEIGHT + 100) (y b).

End Config.

End PlayerBall.

(** ** [class LevelManager] *)

Module LevelManager.

(** The value stored under a level number in [self.levels]. *)
Record level_data : Type := mk_level {
  lv_platforms : list Platform.t;
  lv_enemies : list Enemy.t;
  lv_goal : Goal.t;
  start_pos : Q * Q;
  background : Color
}.

Definition set_lv_platforms (ps : list Platform.t) (d : level_data)
    : level_data :=
  mk_level ps (lv_enemies d) (lv_goal d) (start_pos d) (background d).

Definition set_lv_enemies (es : list Enemy.t) (d : level_data)
    : level_data :=
  mk_level (lv_platforms d) es (lv_goal d) (start_pos d) (background d).

(** The state of a level manager.  [load_level] assigns to
    [self.platforms], [self.enemies] and [self.goal] the very objects
    stored in [self.levels] (no copy is made), so these attributes are
    references: [Some k] is the list (or goal) of level [k] in [levels],
    [None] the value [__init__] gave the attribute ([[]], [[]], [None]). *)
Record t : Type := mk {
  levels : gmap Z level_data;
  current_level : Z;
  platforms_ref : option Z;
  enemies_ref : option Z;
  goal_ref : option Z
}.

(** Reading the attributes. *)
Definition platforms (lm : t) : list Platform.t :=
  match platforms_ref lm with
  | Some k => default [] (lv_platforms <$> levels lm !! k)
  | None => []
  end.

Definition enemies (lm : t) : list Enemy.t :=
  match enemies_ref lm with
  | Some k => default [] (lv_enemies <$> levels lm !! k)
  | None => []
  end.

Definition goal (lm : t) : option Goal.t :=
  match goal_ref lm with
  | Some k => lv_goal <$> levels lm !! k
  | None => None
  end.

(** Mutating the dictionaries of [self.platforms] (of [self.enemies]) in
    place: the list they belong to is the one in [levels]. *)
Definition store_platforms (lm : t) (ps : list Platform.t) : t :=
  match platforms_ref lm with
  | Some k =>
      mk (alter (set_lv_platforms ps) k (levels lm)) (current_level lm)
         (platforms_ref lm) (enemies_ref lm) (goal_ref lm)
  | None => lm
  end.

Definition store_enemies (lm : t) (es : list Enemy.t) : t :=
  match enemies_ref lm with
  | Some k =>
      mk (alter (set_lv_enemies es) k (levels lm)) (current_level lm)
         (platforms_ref lm) (enemies_ref lm) (goal_ref lm)
  | None => lm
  end.

Definition green : Color := (0, 200, 0)%Z.
Definition brown : Color := (139, 69, 19)%Z.
Definition red : Color := (255, 0, 0)%Z.
Definition gold : Color := (255, 215, 0)%Z.

Definition level1 : level_data :=
  {| lv_platforms :=
       [ Platform.static 0 500 300 20 green;
         Platform.static 400 500 400 20 green;
         Platform.static 200 400 200 20 green;
         Platform.static 500 300 200 20 green;
         Platform.static 100 200 200 20 green ];
     lv_enemies := [];
     lv_goal := Goal.mk 150 150 50 50 gold;
     start_pos := (100, 50);
     background := (135, 206, 235)%Z |}.

Definition level2 : level_data :=
  {| lv_platforms :=
       [ Platform.static 0 550 800 50 brown;
         Platform.static 100 450 100 20 green;
         Platform.static 300 400 100 20 green;
         Platform.static 500 350 100 20 green;
         Platform.mk 0 500 800 50 (64, 164, 223)%Z (Some "water"%string)
                     None None None;
         Platform.static 650 300 100 20 (200, 0, 0)%Z ];
     lv_enemies :=
       [ Enemy.mk 200 430 30 20 red (Some (150, 250)) None ];
     lv_goal := Goal.mk 675 250 50 50 gold;
     start_pos := (150, 400);
     background := (100, 149, 237)%Z |}.

Definition level3 : level_data :=
  {| lv_platforms :=
       [ Platform.static 0 550 200 50 brown;
         Platform.static 300 550 200 50 brown;
         Platform.static 600 550 200 50 brown;
         Platform.static 100 450 100 20 green;
         Platform.static 300 400 100 20 green;
         Platform.static 500 350 100 20 green;
         Platform.mk 200 300 100 20 green (Some "moving"%string)
                     (Some 200) (Some 400) (Some 1);
         Platform.static 650 200 100 20 (200, 0, 0)%Z ];
     lv_enemies :=
       [ Enemy.mk 400 530 30 20 red (Some (350, 450)) None;
         Enemy.mk 600 400 30 20 red (Some (550, 650)) None ];
     lv_goal := Goal.mk 675 150 50 50 gold;
     start_pos := (100, 400);
     background := (47, 79, 79)%Z |}.

(** [load_levels]: the table built once by [__init__]. *)
Definition load_levels : gmap Z level_data :=
  <[3%Z := level3]> (<[2%Z := level2]> (<[1%Z := level1]> ∅)).

(** [__init__] *)
Definition init : t :=
  {| levels := load_levels;
     current_level := 0;
     platforms_ref := None;
     enemies_ref := None;
     goal_ref := None |}.

(** [load_level(level_num)]: the new state and the returned value. *)
Definition load_level (lm : t) (level_num : Z) : t * option (Q * Q) :=
  match levels lm !! level_num with
  | Some level_data =>
      (mk (levels lm) level_num
          (Some level_num) (Some level_num) (Some level_num),
       Some (start_pos level_data))
  | None => (lm, None)
  end.

(** The body of the loop over [self.platforms] in [update].  [None] is
    the [KeyError] of [platform['speed'] *= -1] (or of
    [platform['end_x']]) on a dictionary without that key. *)
Definition update_platform (platform : Platform.t) : option Platform.t :=
  if Platform.has_type "moving" platform then
    let platform :=
      Platform.set_x platform
        (Platform.x platform + default 1 (Platform.speed platform)) in
    let x := Platform.x platform in
    if Qlt_bool (default (x + 100) (Platform.end_x platform)) x then
      end_x ← Platform.end_x platform;
      speed ← Platform.speed platform;
      Some (Platform.set_speed (Platform.set_x platform end_x) (speed * -1))
    else if Qlt_bool x (default (x - 100) (Platform.start_x platform)) then
      start_x ← Platform.start_x platform;
      speed ← Platform.speed platform;
      Some (Platform.set_speed (Platform.set_x platform start_x)
                               (speed * -1))
    else Some platform
  else Some platform.

(** The body of the loop over [self.enemies] in [update]. *)
Definition update_enemy (enemy : Enemy.t) : Enemy.t :=
  match Enemy.patrol enemy with
  | Some (low, high) =>
      let enemy :=
        Enemy.set_x enemy (Enemy.x enemy + default 1 (Enemy.speed enemy)) in
      if Qlt_bool high (Enemy.x enemy) then
        Enemy.set_speed (Enemy.set_x enemy high) (-1)
      else if Qlt_bool (Enemy.x enemy) low then
        Enemy.set_speed (Enemy.set_x enemy low) 1
      else enemy
  | None => enemy
  end.

(** The circle-rectangle test written out twice in the source, in
    [check_goal_collision] and in the loop of [check_enemy_collision]:
    circle of centre [(cx, cy)] and radius [size] against the rectangle
    [(rx, ry, width, height)]. *)
Definition circle_rectangle (cx cy size rx ry width height : Q) : bool :=
  let dx := Qabs (cx - (rx + width / 2)) in
  let dy := Qabs (cy - (ry + height / 2)) in
  if Qlt_bool (width / 2 + size) dx then false
  else if Qlt_bool (height / 2 + size) dy then false
  else if Qle_bool dx (width / 2) || Qle_bool dy (height / 2) then true
  else
    let corner_dist := (dx - width / 2) ^ 2 + (dy - height / 2) ^ 2 in
    Qle_bool corner_dist (size ^ 2).

Definition check_goal_collision (lm : t) (player : PlayerBall.t) : bool :=
  match goal lm with
  | None => false
  | Some g =>
      circle_rectangle (PlayerBall.x player) (PlayerBall.y player)
        (PlayerBall.radius player)
        (Goal.x g) (Goal.y g) (Goal.width g) (Goal.height g)
  end.

Definition check_enemy_collision (lm : t) (player : PlayerBall.t) : bool :=
  existsb
    (fun enemy =>
       circle_rectangle (PlayerBall.x player) (PlayerBall.y player)
         (PlayerBall.radius player)
         (Enemy.x enemy) (Enemy.y enemy)
         (Enemy.width enemy) (Enemy.height enemy))
    (enemies lm).

(** The strings [update] returns. *)
Inductive result : Type := level_complete | player_dead.

(** [update(player)]: the new state and the returned value; [None] when
    the platform loop raises. *)
Definition update (lm : t) (player : PlayerBall.t)
    : option (t * option result) :=
  ps ← mapM update_platform (platforms lm);
  let lm := store_platforms lm ps in
  let lm := store_enemies lm (map update_enemy (enemies lm)) in
  if check_goal_collision lm player then Some (lm, Some level_complete)
  else if check_enemy_collision lm player then Some (lm, Some player_dead)
  else Some (lm, None).

(** [get_water_platforms] *)
Definition get_water_platforms (lm : t) : list Platform.t :=
  List.filter (Platform.has_type "water") (platforms lm).

End LevelManager.

(** ** The per-frame part of [class Game] *)

Module Game.

(** What a frame of [Game.update] decides once the level has been
    updated. *)
Inductive branch : Type :=
| next_level          (* result == 'level_complete' *)
| lose_life           (* result == 'player_dead' or the ball fell off *)
| carry_on.

Record frame : Type := mk_frame {
  player : PlayerBall.t;
  level_manager : LevelManager.t;
  result : option LevelManager.result;
  taken : branch
}.

(** The loop over [get_water_platforms()] that sets [in_water]. *)
Definition in_water (lm : LevelManager.t) (player : PlayerBall.t) : bool :=
  existsb
    (fun platform =>
       Qle_bool (Platform.x platform) (PlayerBall.x player) &&
       Qle_bool (PlayerBall.x player)
                (Platform.x platform + Platform.width platform) &&
       Qle_bool (Platform.y platform)
                (PlayerBall.y player + PlayerBall.radius player) &&
       Qle_bool (PlayerBall.y player + PlayerBall.radius player)
                (Platform.y platform + Platform.height platform))
    (LevelManager.get_water_platforms lm).

Section Config.

Variables SCREEN_WIDTH SCREEN_HEIGHT GRAVITY : Q.

(** [update] in the state [GAME_PLAY], up to the choice of the branch;
    [None] when [LevelManager.update] raises. *)
Definition update (lm : LevelManager.t) (player : PlayerBall.t)
    : option frame :=
  let in_water := in_water lm player in
  let player :=
    PlayerBall.update SCREEN_WIDTH SCREEN_HEIGHT GRAVITY
      player (LevelManager.platforms lm) in_water in
  r ← LevelManager.update lm player;
  let taken :=
    match r.2 with
    | Some LevelManager.level_complete => next_level
    | Some LevelManager.player_dead => lose_life
    | None =>
        if PlayerBall.fell_off_world SCREEN_HEIGHT player
        then lose_life else carry_on
    end in
  Some (mk_frame player r.1 r.2 taken).

End Config.

End Game.

(** ** Vocabulary of the properties *)

(** What a collision leaves alone: the customization and the constants. *)
Definition same_settings (b b' : PlayerBall.t) : Prop :=
  PlayerBall.customization b' = PlayerBall.customization b /\
  PlayerBall.max_vel_x b' = PlayerBall.max_vel_x b /\
  PlayerBall.acceleration b' = PlayerBall.acceleration b /\
  PlayerBall.friction b' = PlayerBall.friction b.

(** The ball lies within the screen, a radius away from each edge. *)
Definition within_screen (SCREEN_WIDTH SCREEN_HEIGHT : Q) (b : PlayerBall.t)
    : Prop :=
  PlayerBall.radius b <= PlayerBall.x b <= SCREEN_WIDTH - PlayerBall.radius b /\
  PlayerBall.radius b <= PlayerBall.y b <= SCREEN_HEIGHT - PlayerBall.radius b.

(** Concrete inputs on which the statements are run. *)
Definition start_ball : PlayerBall.t := PlayerBall.init 100 50 None.

Definition level1_loaded : LevelManager.t :=
  (LevelManager.load_level LevelManager.init 1).1.

(** The moving platform of level 3 and the enemy of level 2. *)
Definition level3_moving_platform : Platform.t :=
  Platform.mk 200 300 100 20 LevelManager.green (Some "moving"%string)
              (Some 200) (Some 400) (Some 1).

Definition level2_enemy : Enemy.t :=
  Enemy.mk 200 430 30 20 LevelManager.red (Some (150, 250)) None.

(** Translations by the vector [(tx, ty)]. *)
Definition translate_ball (tx ty : Q) (b : PlayerBall.t) : PlayerBall.t :=
  PlayerBall.set_y (PlayerBall.set_x b (PlayerBall.x b + tx))
                   (PlayerBall.y b + ty).

Definition translate_goal (tx ty : Q) (g : Goal.t) : Goal.t :=
  Goal.mk (Goal.x g + tx) (Goal.y g + ty) (Goal.width g) (Goal.height g)
          (Goal.color g).

Definition translate_enemy (tx ty : Q) (en : Enemy.t) : Enemy.t :=
  Enemy.mk (Enemy.x en + tx) (Enemy.y en + ty) (Enemy.width en)
           (Enemy.height en) (Enemy.color en) (Enemy.patrol en)
           (Enemy.speed en).

(** The goal and the enemies of every level moved by [(tx, ty)]. *)
Definition translate_level (tx ty : Q) (d : LevelManager.level_data)
    : LevelManager.level_data :=
  LevelManager.mk_level (LevelManager.lv_platforms d)
    (map (translate_enemy tx ty) (LevelManager.lv_enemies d))
    (translate_goal tx ty (LevelManager.lv_goal d))
    (LevelManager.start_pos d) (LevelManager.background d).

Definition translate_levels (tx ty : Q) (lm : LevelManager.t)
    : LevelManager.t :=
  LevelManager.mk (translate_level tx ty <$> LevelManager.levels lm)
    (LevelManager.current_level lm) (LevelManager.platforms_ref lm)
    (LevelManager.enemies_ref lm) (LevelManager.goal_ref lm).

(** A ball at rest on the first platform of level 1 (top edge at 500). *)
Definition grounded_ball : PlayerBall.t :=
  PlayerBall.mk 100 480 0 0 true Customization.defaults 12 (4 # 5) (9 # 10).

(** A [customization.json] that holds [{"size": 100}]. *)
Definition oversized_file : Customization.saved :=
  Customization.mk_saved None (Some 100) None None None None None None None.

(** Level 2 loaded, and a ball whose lowest point touches the surface of
    its water platform (top edge at 500). *)
Definition level2_loaded : LevelManager.t :=
  (LevelManager.load_level LevelManager.init 2).1.

Definition ball_on_water : PlayerBall.t :=
  PlayerBall.mk 250 480 0 0 false Customization.defaults 12 (4 # 5) (9 # 10).

(** The platforms that are not of kind water. *)
Definition non_water (ps : list Platform.t) : list Platform.t :=
  List.filter (fun p => negb (Platform.has_type "water" p)) ps.

(** The reading of a frame in which water platforms take no part in the
    collision resolution: the ball of the frame is the one an integration
    step against the other platforms gives. *)
Definition water_excluded (SCREEN_WIDTH SCREEN_HEIGHT GRAVITY : Q)
    (lm : LevelManager.t) (b : PlayerBall.t) : Prop :=
  forall f : Game.frame,
    Game.update SCREEN_WIDTH SCREEN_HEIGHT GRAVITY lm b = Some f ->
    Game.player f =
    PlayerBall.update SCREEN_WIDTH SCREEN_HEIGHT GRAVITY b
      (non_water (LevelManager.platforms lm)) (Game.in_water lm b).

(** A platform with its kind (and the keys of a moving platform) removed. *)
Definition as_static (p : Platform.t) : Platform.t :=
  Platform.static (Platform.x p) (Platform.y p) (Platform.width p)
                  (Platform.height p) (Platform.color p).

(** The states of a level manager: [__init__], then any calls of
    [load_level] and [update]. *)
Inductive reachable : LevelManager.t -> Prop :=
| reach_init : reachable LevelManager.init
| reach_load (lm : LevelManager.t) (level_num : Z) :
    reachable lm -> reachable (LevelManager.load_level lm level_num).1
| reach_update (lm lm' : LevelManager.t) (player : PlayerBall.t)
      (r : option LevelManager.result) :
    reachable lm -> LevelManager.update lm player = Some (lm', r) ->
    reachable lm'.

(** Level 3 loaded, one frame of [update], level 3 loaded again (what
    [Game.init_game(False)] does when a life is lost). *)
Definition level3_loaded : LevelManager.t :=
  (LevelManager.load_level LevelManager.init 3).1.

Definition level3_reloaded : option (LevelManager.t * option (Q * Q)) :=
  r ← LevelManager.update level3_loaded (PlayerBall.init 100 400 None);
  Some (LevelManager.load_level r.1 3).

(** The numbers of the predefined levels. *)
Definition known (level_num : Z) : Prop :=
  level_num = 1%Z \/ level_num = 2%Z \/ level_num = 3%Z.





(** * Binary64 arithmetic *)

(** The numbers of the program are Python [float]s, IEEE binary64 values,
    and [int]s.  Where a property depends on rounding, the operations are
    taken in binary64: the exact result rounded to the nearest value with
    a 53-bit significand, ties to even.  The exponent range is not
    bounded: overflow, subnormal numbers, infinities and NaN are outside
    the model, and an [int] is taken below [2^53], where it is a binary64
    value. *)

Module Binary64.

Definition pow2 (e : Z) : Q := 2 ^ e.

(** The nearest integer, ties to even. *)
Definition nearest_even (q : Q) : Z :=
  let f := Qfloor q in
  match Qcompare (q - inject_Z f) (1 # 2) with
  | Lt => f
  | Gt => (f + 1)%Z
  | Eq => if Z.even f then f else (f + 1)%Z
  end.

(** The exponent [e] of the last place of [q <> 0]:
    [2^52 <= |q| / 2^e < 2^53]. *)
Definition exponent (q : Q) : Z :=
  let a := Qabs q in
  let e := (Z.log2 (Qnum a) - Z.log2 (Z.pos (Qden a)) - 52)%Z in
  if Qlt_bool (a / pow2 e) (pow2 52) then (e - 1)%Z else e.

(** Rounding to binary64. *)
Definition round (q : Q) : Q :=
  let q := Qred q in
  if Qeq_bool q 0 then 0
  else
    let e := exponent q in
    Qred (inject_Z (nearest_even (q / pow2 e)) * pow2 e).

(** [a + b], [a - b], [a * b], [a / b] and [v ** 2] on floats.  The square
    is the rounded product; the C library's [pow] behind [**] is not
    modelled beyond that. *)
Definition add (a b : Q) : Q := round (a + b).
Definition sub (a b : Q) : Q := round (a - b).
Definition mul (a b : Q) : Q := round (a * b).
Definition div (a b : Q) : Q := round (a / b).
Definition square (v : Q) : Q := mul v v.

(** [math.sqrt(s)] for [0 <= s]: the square root rounded to binary64.
    With [s / 4^k] in [[2^104, 2^106)], the root of which lies in
    [[2^52, 2^53)], the result is the nearer of [i * 2^k] and
    [(i + 1) * 2^k] for [i] the integer square root (the root of a
    binary64 value is never half-way between the two). *)
Definition sqrt (s : Q) : Q :=
  let s := Qred s in
  if Qle_bool s 0 then 0
  else
    let k := ((exponent s - 52) / 2)%Z in
    let y := s / pow2 (2 * k) in
    let i := Z.sqrt (Qfloor y) in
    let m := if Qlt_bool y ((inject_Z i + (1 # 2)) ^ 2)
             then i else (i + 1)%Z in
    Qred (inject_Z m * pow2 k).


End Binary64.

(** ** The circle-rectangle tests in binary64 *)

(** A binary64 value: rounding leaves it as it is. *)
Definition representable (v : Q) : Prop := Binary64.round v == v.

(** The four-branch test of [check_goal_collision] and of
    [check_enemy_collision] as the program computes it, every operation
    rounding. *)
Definition circle_rectangle64 (cx cy size rx ry width height : Q) : bool :=
  let half_width := Binary64.div width 2 in
  let half_height := Binary64.div height 2 in
  let dx := Qabs (Binary64.sub cx (Binary64.add rx half_width)) in
  let dy := Qabs (Binary64.sub cy (Binary64.add ry half_height)) in
  if Qlt_bool (Binary64.add half_width size) dx then false
  else if Qlt_bool (Binary64.add half_height size) dy then false
  else if Qle_bool dx half_width || Qle_bool dy half_height then true
  else
    let corner_dist :=
      Binary64.add (Binary64.square (Binary64.sub dx half_width))
                   (Binary64.square (Binary64.sub dy half_height)) in
    Qle_bool corner_dist (Binary64.square size).

(** The test [distance <= radius] of [check_collision] as the program
    computes it. *)
Definition closest_point_hit64 (cx cy radius rx ry width height : Q) : bool :=
  let closest_x := Qmax rx (Qmin cx (Binary64.add rx width)) in
  let closest_y := Qmax ry (Qmin cy (Binary64.add ry height)) in
  let distance :=
    Binary64.sqrt
      (Binary64.add (Binary64.square (Binary64.sub cx closest_x))
                    (Binary64.square (Binary64.sub cy closest_y))) in
  Qle_bool distance radius.



(** ** Readings of the dynamics that the code departs from *)

(** The reading of a step of a moving platform in which the speed is
    negated exactly when the step ends on a bound. *)
Definition reverses_on_reaching_a_bound (p : Platform.t) : Prop :=
  forall (p' : Platform.t) (s e v v' : Q),
    LevelManager.update_platform p = Some p' ->
    Platform.start_x p = Some s -> Platform.end_x p = Some e ->
    Platform.speed p = Some v -> Platform.speed p' = Some v' ->
    (v' == - v <-> Platform.x p' == s \/ Platform.x p' == e).

(** The reading of a step of a patrolling enemy in which the speed is set
    to [-1] when the step ends on the high bound and to [+1] when it ends
    on the low bound. *)
Definition turns_on_reaching_a_bound (en : Enemy.t) : Prop :=
  forall low high : Q,
    Enemy.patrol en = Some (low, high) ->
    let en' := LevelManager.update_enemy en in
    (Enemy.x en' == high -> Enemy.speed en' = Some (-1)) /\
    (Enemy.x en' == low -> Enemy.speed en' = Some 1).

(** The moving platform of level 3 one step before its right bound, and
    the enemy of level 2 one step before its high bound. *)
Definition platform_before_bound : Platform.t :=
  Platform.set_x level3_moving_platform 399.

Definition enemy_before_bound : Enemy.t := Enemy.set_x level2_enemy 249.

(** ** Concrete inputs *)


(** A centre at the lower right corner of the rectangle
    [(150, 150, 50, 50)], about [(219.9878, 200.6980)]: two binary64
    values. *)
Definition corner_x : Q := 1935033298041627 # 8796093022208.
Definition corner_y : Q := 7061432755320277 # 35184372088832.
(** * The rest of the ball, of the level manager and of the game *)

(** [int(v)] on a number: truncation towards zero. *)
Definition py_int (v : Q) : Z := Z.quot (Qnum v) (Z.pos (Qden v)).

(** ** The customization mutators of [PlayerBall] *)

Module Settings.

(** A ball together with the content of [customization.json] ([None] when
    the file is missing or does not parse). *)
Definition world : Type := (PlayerBall.t * option Customization.saved)%type.

Definition with_customization (b : PlayerBall.t) (c : Customization.t)
    : PlayerBall.t :=
  PlayerBall.mk (PlayerBall.x b) (PlayerBall.y b) (PlayerBall.vel_x b)
    (PlayerBall.vel_y b) (PlayerBall.on_ground b) c
    (PlayerBall.max_vel_x b) (PlayerBall.acceleration b)
    (PlayerBall.friction b).

(** What [save_customization] writes: [json.dump] of the whole
    dictionary. *)
Definition save_customization (b : PlayerBall.t) : Customization.saved :=
  let c := PlayerBall.customization b in
  Customization.mk_saved
    (Some (Customization.color c)) (Some (Customization.size c))
    (Some (Customization.texture c)) (Some (Customization.bounce_factor c))
    (Some (Customization.opacity c)) (Some (Customization.glow c))
    (Some (Customization.glow_color c)) (Some (Customization.glow_size c))
    (Some (Customization.pattern_color c)).

(** Assigning one key of the dictionary and saving it. *)
Definition assign (b : PlayerBall.t) (c : Customization.t) : world :=
  let b := with_customization b c in
  (b, Some (save_customization b)).

Definition set_color (w : world) (color : Color) : world :=
  let c := PlayerBall.customization w.1 in
  assign w.1
    (Customization.mk color (Customization.size c) (Customization.texture c)
       (Customization.bounce_factor c) (Customization.opacity c)
       (Customization.glow c) (Customization.glow_color c)
       (Customization.glow_size c) (Customization.pattern_color c)).

Definition set_pattern_color (w : world) (color : Color) : world :=
  let c := PlayerBall.customization w.1 in
  assign w.1
    (Customization.mk (Customization.color c) (Customization.size c)
       (Customization.texture c) (Customization.bounce_factor c)
       (Customization.opacity c) (Customization.glow c)
       (Customization.glow_color c) (Customization.glow_size c) color).

(** [set_size(size)]: [max(10, min(50, int(size)))]. *)
Definition set_size (w : world) (size : Q) : world :=
  let c := PlayerBall.customization w.1 in
  assign w.1
    (Customization.mk (Customization.color c)
       (inject_Z (Z.max 10 (Z.min 50 (py_int size))))
       (Customization.texture c) (Customization.bounce_factor c)
       (Customization.opacity c) (Customization.glow c)
       (Customization.glow_color c) (Customization.glow_size c)
       (Customization.pattern_color c)).

(** [set_bounce(factor)]: [max(0.1, min(1.0, float(factor)))]. *)
Definition set_bounce (w : world) (factor : Q) : world :=
  let c := PlayerBall.customization w.1 in
  assign w.1
    (Customization.mk (Customization.color c) (Customization.size c)
       (Customization.texture c) (Qmax (1 # 10) (Qmin 1 factor))
       (Customization.opacity c) (Customization.glow c)
       (Customization.glow_color c) (Customization.glow_size c)
       (Customization.pattern_color c)).

(** [set_opacity(value)]: [max(0, min(255, int(value)))]. *)
Definition set_opacity (w : world) (value : Q) : world :=
  let c := PlayerBall.customization w.1 in
  assign w.1
    (Customization.mk (Customization.color c) (Customization.size c)
       (Customization.texture c) (Customization.bounce_factor c)
       (inject_Z (Z.max 0 (Z.min 255 (py_int value))))
       (Customization.glow c) (Customization.glow_color c)
       (Customization.glow_size c) (Customization.pattern_color c)).

Definition textures : list string :=
  ["solid"; "striped"; "gradient"; "polka"]%string.

(** [texture in [...]] *)
Definition known_texture (texture : string) : bool :=
  existsb (String.eqb texture) textures.

(** [set_texture(texture)]: an unknown name changes nothing and writes
    nothing. *)
Definition set_texture (w : world) (texture : string) : world :=
  if known_texture texture then
    let c := PlayerBall.customization w.1 in
    assign w.1
      (Customization.mk (Customization.color c) (Customization.size c)
         texture (Customization.bounce_factor c) (Customization.opacity c)
         (Customization.glow c) (Customization.glow_color c)
         (Customization.glow_size c) (Customization.pattern_color c))
  else w.

Definition toggle_glow (w : world) : world :=
  let c := PlayerBall.customization w.1 in
  assign w.1
    (Customization.mk (Customization.color c) (Customization.size c)
       (Customization.texture c) (Customization.bounce_factor c)
       (Customization.opacity c) (negb (Customization.glow c))
       (Customization.glow_color c) (Customization.glow_size c)
       (Customization.pattern_color c)).

(** [set_glow_size(size)]: [max(1.0, min(2.5, float(size)))]. *)
Definition set_glow_size (w : world) (size : Q) : world :=
  let c := PlayerBall.customization w.1 in
  assign w.1
    (Customization.mk (Customization.color c) (Customization.size c)
       (Customization.texture c) (Customization.bounce_factor c)
       (Customization.opacity c) (Customization.glow c)
       (Customization.glow_color c) (Qmax 1 (Qmin (5 # 2) size))
       (Customization.pattern_color c)).

(** [list.index(value)]: [None] is the [ValueError] of a value that is not
    in the list. *)
Fixpoint index (value : string) (l : list string) : option nat :=
  match l with
  | [] => None
  | t :: l => if String.eqb t value then Some 0%nat else S <$> index value l
  end.

(** [next_texture()]: [None] when [textures.index] raises. *)
Definition next_texture (w : world) : option world :=
  current_idx ←
    index (Customization.texture (PlayerBall.customization w.1)) textures;
  let next_idx := ((current_idx + 1) mod length textures)%nat in
  texture ← textures !! next_idx;
  Some (set_texture w texture).

(** [get_customization()]: a copy of the dictionary. *)
Definition get_customization (b : PlayerBall.t) : Customization.t :=
  PlayerBall.customization b.

End Settings.

(** ** [class Game]: states, events and the frame *)

Module GameApp.

Inductive GameState : Type :=
| MENU | CUSTOMIZE | LEVEL_SELECT | GAME_PLAY | GAME_OVER.

(** The keys the handlers look at; [K_other] is any other key. *)
Inductive key : Type :=
| K_1 | K_2 | K_3 | K_4 | K_ESCAPE | K_RETURN | K_r | K_t | K_g
| K_PLUS | K_EQUALS | K_MINUS | K_LEFTBRACKET | K_RIGHTBRACKET
| K_COMMA | K_PERIOD | K_SEMICOLON | K_QUOTE | K_other.

(** The events of the model: [QUIT], [KEYDOWN], and [OTHER] for an event
    that is neither of these nor a mouse click (mouse clicks are resolved
    against rectangles the renderer draws, which are outside the model). *)
Inductive event : Type :=
| QUIT
| KEYDOWN (k : key)
| OTHER.

(** [pygame.key.get_pressed()], as the game reads it: left is [K_LEFT] or
    [K_a], right is [K_RIGHT] or [K_d], up is [K_UP], [K_w] or [K_SPACE]. *)
Record pressed : Type := mk_pressed {
  left : bool;
  right : bool;
  up : bool
}.

Record t : Type := mk {
  state : GameState;
  running : bool;
  player : option PlayerBall.t;
  level_manager : LevelManager.t;
  current_level : Z;
  max_level : Z;
  score : Z;
  lives : Z;
  customization_file : option Customization.saved
}.

Definition set_state (g : t) (s : GameState) : t :=
  mk s (running g) (player g) (level_manager g) (current_level g)
     (max_level g) (score g) (lives g) (customization_file g).

Definition set_running (g : t) (r : bool) : t :=
  mk (state g) r (player g) (level_manager g) (current_level g)
     (max_level g) (score g) (lives g) (customization_file g).

Definition set_player (g : t) (p : PlayerBall.t) : t :=
  mk (state g) (running g) (Some p) (level_manager g) (current_level g)
     (max_level g) (score g) (lives g) (customization_file g).

Definition set_level_manager (g : t) (lm : LevelManager.t) : t :=
  mk (state g) (running g) (player g) lm (current_level g)
     (max_level g) (score g) (lives g) (customization_file g).

Definition set_current_level (g : t) (n : Z) : t :=
  mk (state g) (running g) (player g) (level_manager g) n
     (max_level g) (score g) (lives g) (customization_file g).

Definition set_score (g : t) (n : Z) : t :=
  mk (state g) (running g) (player g) (level_manager g) (current_level g)
     (max_level g) n (lives g) (customization_file g).

Definition set_lives (g : t) (n : Z) : t :=
  mk (state g) (running g) (player g) (level_manager g) (current_level g)
     (max_level g) (score g) n (customization_file g).

(** The ball and the file after a customization mutator. *)
Definition set_world (g : t) (w : Settings.world) : t :=
  mk (state g) (running g) (Some w.1) (level_manager g) (current_level g)
     (max_level g) (score g) (lives g) w.2.

(** [init_game(reset_lives)] *)
Definition init_game (g : t) (reset_lives : bool) : t :=
  let g :=
    if reset_lives
    then set_current_level (set_score (set_lives g 3) 0) 1
    else g in
  let r := LevelManager.load_level (level_manager g) (current_level g) in
  let g := set_level_manager g r.1 in
  match r.2 with
  | Some start_pos =>
      set_player g
        (PlayerBall.init start_pos.1 start_pos.2 (customization_file g))
  | None => g
  end.

(** [__init__], with the content of [customization.json]. *)
Definition new (file : option Customization.saved) : t :=
  init_game (mk MENU true None LevelManager.init 1 3 0 3 file) true.

(** [next_level()]: the new state and the returned value. *)
Definition next_level (g : t) : t * bool :=
  if (current_level g <? max_level g)%Z then
    (init_game (set_current_level g (current_level g + 1)) false, true)
  else (g, false).

(** [handle_menu_events(event)] *)
Definition handle_menu_events (g : t) (e : event) : t :=
  match e with
  | KEYDOWN K_1 => set_state (init_game g true) GAME_PLAY
  | KEYDOWN K_2 => set_state g LEVEL_SELECT
  | KEYDOWN K_3 => set_state g CUSTOMIZE
  | KEYDOWN K_4 => set_running g false
  | _ => g
  end.

(** [handle_level_select_events(event)], the keyboard part:
    [int(pygame.key.name(event.key))] is the digit of the key. *)
Definition handle_level_select_events (g : t) (e : event) : t :=
  let select (level_num : Z) :=
    if ((1 <=? level_num) && (level_num <=? 3))%Z then
      set_state (init_game (set_current_level g level_num) false) GAME_PLAY
    else g in
  match e with
  | KEYDOWN K_ESCAPE => set_state g MENU
  | KEYDOWN K_1 => select 1%Z
  | KEYDOWN K_2 => select 2%Z
  | KEYDOWN K_3 => select 3%Z
  | _ => g
  end.

(** A method called on [self.player]: [None] is the [AttributeError] of a
    player that is still [None]. *)
Definition on_player (f : PlayerBall.t -> PlayerBall.t) (g : t) : option t :=
  p ← player g; Some (set_player g (f p)).

(** A customization mutator called on [self.player]. *)
Definition on_settings (f : Settings.world -> Settings.world) (g : t)
    : option t :=
  p ← player g; Some (set_world g (f (p, customization_file g))).

(** [handle_game_play_events(event)] under the keys held down. *)
Definition handle_game_play_events (g : t) (e : event) (keys : pressed)
    : option t :=
  let g :=
    match e with
    | KEYDOWN K_ESCAPE => set_state g MENU
    | KEYDOWN K_r => init_game g false
    | _ => g
    end in
  g ← (if left keys then on_player PlayerBall.move_left g else Some g);
  g ← (if right keys then on_player PlayerBall.move_right g else Some g);
  if up keys then on_player PlayerBall.jump g else Some g.

(** [handle_game_over_events(event)] *)
Definition handle_game_over_events (g : t) (e : event) : t :=
  match e with
  | KEYDOWN K_RETURN => set_state g MENU
  | _ => g
  end.

(** [handle_customize_events(event)], the keyboard part.  [None] is an
    exception: a player that is [None], or the [ValueError] of
    [next_texture]. *)
Definition handle_customize_events (g : t) (e : event) : option t :=
  let custom (f : Customization.t -> Q) : option Q :=
    p ← player g; Some (f (PlayerBall.customization p)) in
  match e with
  | KEYDOWN K_ESCAPE => Some (set_state g MENU)
  | KEYDOWN K_t =>
      p ← player g;
      w ← Settings.next_texture (p, customization_file g);
      Some (set_world g w)
  | KEYDOWN K_g => on_settings Settings.toggle_glow g
  | KEYDOWN K_PLUS | KEYDOWN K_EQUALS =>
      v ← custom Customization.size;
      on_settings (fun w => Settings.set_size w (v + 1)) g
  | KEYDOWN K_MINUS =>
      v ← custom Customization.size;
      on_settings (fun w => Settings.set_size w (v - 1)) g
  | KEYDOWN K_LEFTBRACKET =>
      v ← custom Customization.bounce_factor;
      on_settings
        (fun w => Settings.set_bounce w (Qmax (1 # 10) (v - (1 # 10)))) g
  | KEYDOWN K_RIGHTBRACKET =>
      v ← custom Customization.bounce_factor;
      on_settings (fun w => Settings.set_bounce w (Qmin 1 (v + (1 # 10)))) g
  | KEYDOWN K_COMMA =>
      v ← custom Customization.opacity;
      on_settings (fun w => Settings.set_opacity w (v - 25)) g
  | KEYDOWN K_PERIOD =>
      v ← custom Customization.opacity;
      on_settings (fun w => Settings.set_opacity w (v + 25)) g
  | KEYDOWN K_SEMICOLON =>
      v ← custom Customization.glow_size;
      on_settings (fun w => Settings.set_glow_size w (v - (1 # 10))) g
  | KEYDOWN K_QUOTE =>
      v ← custom Customization.glow_size;
      on_settings (fun w => Settings.set_glow_size w (v + (1 # 10))) g
  | _ => Some g
  end.

(** One event of [handle_events]. *)
Definition handle_event (g : t) (e : event) (keys : pressed) : option t :=
  let g := match e with QUIT => set_running g false | _ => g end in
  match state g with
  | MENU => Some (handle_menu_events g e)
  | CUSTOMIZE => handle_customize_events g e
  | LEVEL_SELECT => Some (handle_level_select_events g e)
  | GAME_PLAY => handle_game_play_events g e keys
  | GAME_OVER => Some (handle_game_over_events g e)
  end.

(** [handle_events()]: the events of [pygame.event.get()] in order. *)
Fixpoint handle_events (g : t) (events : list event) (keys : pressed)
    : option t :=
  match events with
  | [] => Some g
  | e :: events => g ← handle_event g e keys; handle_events g events keys
  end.

Section Config.

Variables SCREEN_WIDTH SCREEN_HEIGHT GRAVITY : Q.

(** [update()]: the frame of [Game.update] followed by the bookkeeping of
    score, lives and state.  [None] when [LevelManager.update] raises. *)
Definition update (g : t) : option t :=
  match state g, player g with
  | GAME_PLAY, Some p =>
      f ← Game.update SCREEN_WIDTH SCREEN_HEIGHT GRAVITY (level_manager g) p;
      let g := set_level_manager (set_player g (Game.player f))
                                 (Game.level_manager f) in
      match Game.taken f with
      | Game.next_level =>
          let g := set_score g (score g + 100 * current_level g) in
          let r := next_level g in
          if r.2 then Some r.1 else Some (set_state r.1 GAME_OVER)
      | Game.lose_life =>
          let g := set_lives g (lives g - 1) in
          if (lives g <=? 0)%Z then Some (set_state g GAME_OVER)
          else Some (init_game g false)
      | Game.carry_on => Some g
      end
  | _, _ => Some g
  end.

(** One turn of the loop of [run]: the events, then the frame. *)
Definition turn (g : t) (events : list event) (keys : pressed) : option t :=
  g ← handle_events g events keys; update g.

End Config.

(** The file part of [render_game_over]: the content of [highscore.txt] as
    [int(f.read())] gives it ([None] when the file is missing or is not a
    number), the score; the content afterwards and the high score shown. *)
Definition save_high_score (file : option Z) (score : Z) : option Z * Z :=
  let high_score := default 0%Z file in
  if (high_score <? score)%Z then (Some score, score)
  else (file, high_score).

End GameApp.

(** ** Vocabulary of the further properties *)

(** The closest point of the segment [[lo, lo + len]] to [c], as
    [check_collision] computes it. *)
Definition closest (lo len c : Q) : Q := Qmax lo (Qmin c (lo + len)).

(** The test [distance <= radius] of [check_collision]. *)
Definition closest_point_hit (cx cy r rx ry width height : Q) : bool :=
  sqrt_le ((cx - closest rx width cx) ^ 2 + (cy - closest ry height cy) ^ 2) r.

Definition hits (b : PlayerBall.t) (p : Platform.t) : bool :=
  closest_point_hit (PlayerBall.x b) (PlayerBall.y b) (PlayerBall.radius b)
    (Platform.x p) (Platform.y p) (Platform.width p) (Platform.height p).

(** The four outcomes of [check_collision]. *)
Definition top_collision (b : PlayerBall.t) (p : Platform.t) : PlayerBall.t :=
  PlayerBall.set_on_ground
    (PlayerBall.set_vel_y
       (PlayerBall.set_y b (Platform.y p - PlayerBall.radius b))
       (- PlayerBall.vel_y b
        * Customization.bounce_factor (PlayerBall.customization b)))
    true.

Definition bottom_collision (b : PlayerBall.t) (p : Platform.t)
    : PlayerBall.t :=
  PlayerBall.set_vel_y
    (PlayerBall.set_y b
       (Platform.y p + Platform.height p + PlayerBall.radius b))
    (- PlayerBall.vel_y b * (1 # 2)).

Definition left_collision (b : PlayerBall.t) (p : Platform.t) : PlayerBall.t :=
  PlayerBall.set_vel_x
    (PlayerBall.set_x b (Platform.x p - PlayerBall.radius b))
    (PlayerBall.vel_x b * - (1 # 2)).

Definition right_collision (b : PlayerBall.t) (p : Platform.t)
    : PlayerBall.t :=
  PlayerBall.set_vel_x
    (PlayerBall.set_x b
       (Platform.x p + Platform.width p + PlayerBall.radius b))
    (PlayerBall.vel_x b * - (1 # 2)).

(** A platform with non-negative sides that a circle of centre [(cx, cy)]
    and radius [r] is more than [r] away from, on one of its four sides. *)
Definition out_of_reach (cx cy r : Q) (p : Platform.t) : Prop :=
  0 <= Platform.width p /\ 0 <= Platform.height p /\
  (cx + r < Platform.x p \/
   Platform.x p + Platform.width p + r < cx \/
   cy + r < Platform.y p \/
   Platform.y p + Platform.height p + r < cy).

(** The constants of a ball are sound and its horizontal speed is below the
    cap plus one acceleration. *)
Definition speed_ok (b : PlayerBall.t) : Prop :=
  0 <= PlayerBall.acceleration b /\
  0 <= PlayerBall.friction b <= 1 /\
  Qabs (PlayerBall.vel_x b) < PlayerBall.max_vel_x b + PlayerBall.acceleration b.

(** Concrete inputs of the further properties. *)

(** The water platform of level 2, a ball coming down onto its surface and
    a ball whose centre is inside it. *)
Definition level2_water : Platform.t :=
  Platform.mk 0 500 800 50 (64, 164, 223)%Z (Some "water"%string)
              None None None.

Definition ball_over_water : PlayerBall.t :=
  PlayerBall.mk 250 490 3 5 false Customization.defaults 12 (4 # 5) (9 # 10).

Definition ball_in_water : PlayerBall.t :=
  PlayerBall.mk 250 520 3 5 false Customization.defaults 12 (4 # 5) (9 # 10).

(** A ball about to land on the fifth platform of level 1 (top edge at
    200). *)
Definition ball_above_platform : PlayerBall.t :=
  PlayerBall.mk 100 175 0 (9 # 2) false Customization.defaults
                12 (4 # 5) (9 # 10).

(** The digit of a key, [int(pygame.key.name(event.key))], for the three
    keys the level selection accepts. *)
Definition key_digit (k : GameApp.key) : option Z :=
  match k with
  | GameApp.K_1 => Some 1%Z
  | GameApp.K_2 => Some 2%Z
  | GameApp.K_3 => Some 3%Z
  | _ => None
  end.

(** A game in play whose ball rests on the ground. *)
Definition game_on_ground : GameApp.t :=
  GameApp.set_state (GameApp.set_player (GameApp.new None) grounded_ball)
                    GameApp.GAME_PLAY.

(** What the dynamics may change: of a platform its [x] and its speed, and
    only if it is a moving platform; of an enemy its [x] and its speed, and
    only if it patrols; of a level nothing else. *)
Definition moved_only (p p' : Platform.t) : Prop :=
  Platform.y p' = Platform.y p /\ Platform.width p' = Platform.width p /\
  Platform.height p' = Platform.height p /\
  Platform.color p' = Platform.color p /\ Platform.type p' = Platform.type p /\
  Platform.start_x p' = Platform.start_x p /\
  Platform.end_x p' = Platform.end_x p /\
  (Platform.has_type "moving" p = false -> p' = p).

Definition enemy_moved_only (en en' : Enemy.t) : Prop :=
  Enemy.y en' = Enemy.y en /\ Enemy.width en' = Enemy.width en /\
  Enemy.height en' = Enemy.height en /\ Enemy.color en' = Enemy.color en /\
  Enemy.patrol en' = Enemy.patrol en /\
  (Enemy.patrol en = None -> en' = en).

Definition level_moved_only (d d' : LevelManager.level_data) : Prop :=
  Forall2 moved_only (LevelManager.lv_platforms d)
                     (LevelManager.lv_platforms d') /\
  Forall2 enemy_moved_only (LevelManager.lv_enemies d)
                           (LevelManager.lv_enemies d') /\
  LevelManager.lv_goal d' = LevelManager.lv_goal d /\
  LevelManager.start_pos d' = LevelManager.start_pos d /\
  LevelManager.background d' = LevelManager.background d.

(** The table of levels is the one [load_levels] built, up to the moves of
    the dynamics. *)
Definition like_blueprint (lm : LevelManager.t) : Prop :=
  forall k : Z,
    option_Forall2 level_moved_only
      (LevelManager.load_levels !! k) (LevelManager.levels lm !! k).

(** The entries of two customizations that a saved file gives back as they
    were written: all but [glow_color] and [pattern_color] (a tuple written
    by [json.dump] is read back as a list; [load_customization] turns only
    [color] into a tuple again). *)
Definition same_look (c c' : Customization.t) : Prop :=
  Customization.color c' = Customization.color c /\
  Customization.size c' = Customization.size c /\
  Customization.texture c' = Customization.texture c /\
  Customization.bounce_factor c' = Customization.bounce_factor c /\
  Customization.opacity c' = Customization.opacity c /\
  Customization.glow c' = Customization.glow c /\
  Customization.glow_size c' = Customization.glow_size c.

(** A ball as it comes out of [PlayerBall()] with no file, and the world it
    lives in. *)
Definition fresh_world : Settings.world := (PlayerBall.init 100 50 None, None).

(** The texture of the ball of a world. *)
Definition texture_of (w : Settings.world) : string :=
  Customization.texture (PlayerBall.customization w.1).

(** The ball of the game is there, its customization is what the file
    gives a new ball, and its texture is one of the four. *)
Definition player_ok (g : GameApp.t) : Prop :=
  exists p : PlayerBall.t,
    GameApp.player g = Some p /\
    PlayerBall.customization p
    = PlayerBall.load_customization Customization.defaults
        (GameApp.customization_file g) /\
    Settings.known_texture (Customization.texture (PlayerBall.customization p))
    = true.

(** What holds of a game between two calls: there are three levels, the
    level manager is in one of its states, and the ball is there. *)
Definition game_pre (g : GameApp.t) : Prop :=
  GameApp.max_level g = 3%Z /\
  reachable (GameApp.level_manager g) /\
  player_ok g.

(** A sound game: besides, the current level is one of the three and it is
    the level the level manager has loaded. *)
Definition game_ok (g : GameApp.t) : Prop :=
  game_pre g /\
  (1 <= GameApp.current_level g <= 3)%Z /\
  LevelManager.current_level (GameApp.level_manager g)
  = GameApp.current_level g /\
  LevelManager.platforms_ref (GameApp.level_manager g)
  = Some (GameApp.current_level g) /\
  LevelManager.enemies_ref (GameApp.level_manager g)
  = Some (GameApp.current_level g) /\
  LevelManager.goal_ref (GameApp.level_manager g)
  = Some (GameApp.current_level g).

(** The texture a new ball gets from the file is one of the four.  The
    file is one of [Customization.saved]: absent, unparsable, or an object
    whose entries have the types of the defaults. *)
Definition file_ok (file : option Customization.saved) : Prop :=
  Settings.known_texture
    (Customization.texture
       (PlayerBall.load_customization Customization.defaults file)) = true.

(** * Properties *)

Lemma Qlt_bool_iff (a b : Q) : Qlt_bool a b = true <-> a < b.
Proof.
  unfold Qlt_bool. rewrite negb_true_iff, <- not_true_iff_false, Qle_bool_iff.
  split; [apply Qnot_le_lt | apply Qlt_not_le].
Qed.

Lemma Qlt_bool_false (a b : Q) : Qlt_bool a b = false <-> b <= a.
Proof.
  unfold Qlt_bool. rewrite negb_false_iff. apply Qle_bool_iff.
Qed.

(** Case analysis on a strict comparison of the source. *)
Lemma Qlt_bool_spec (a b : Q) : reflect (a < b) (Qlt_bool a b).
Proof.
  destruct (Qlt_bool a b) eqn:E; constructor.
  - now apply Qlt_bool_iff.
  - apply Qlt_bool_false in E. now apply Qle_not_lt.
Qed.

(** ** The ball *)

Section Ball.

Import PlayerBall.

Lemma check_collision_settings (b : t) (p : Platform.t) :
  same_settings b (check_collision b p).
Proof.
  unfold check_collision.
  repeat match goal with
         | |- context [if ?c then _ else _] => destruct c
         end; repeat split.
Qed.

Lemma check_collisions_settings (ps : list Platform.t) :
  forall b, same_settings b (check_collisions b ps).
Proof.
  unfold check_collisions.
  induction ps as [|p ps IH]; intros b; simpl.
  - repeat split.
  - destruct (IH (check_collision b p)) as (Hc & Hm & Ha & Hf).
    destruct (check_collision_settings b p) as (Hc' & Hm' & Ha' & Hf').
    repeat split; congruence.
Qed.

Lemma check_collisions_radius (ps : list Platform.t) (b : t) :
  radius (check_collisions b ps) = radius b.
Proof.
  unfold radius. now destruct (check_collisions_settings ps b) as (-> & _).
Qed.

End Ball.

(** ** The screen boundaries *)

Section Screen.

Import PlayerBall.

Variables SCREEN_WIDTH SCREEN_HEIGHT GRAVITY : Q.

Lemma screen_bounds_settings (b : t) :
  same_settings b (screen_bounds SCREEN_WIDTH SCREEN_HEIGHT b).
Proof.
  unfold screen_bounds.
  repeat match goal with
         | |- context [if ?c then _ else _] => destruct c
         end; repeat split.
Qed.

(** The two clamps put the ball inside the screen, as soon as the screen
    is at least a diameter wide and high. *)
Lemma screen_bounds_within (b : t) :
  2 * radius b <= SCREEN_WIDTH ->
  2 * radius b <= SCREEN_HEIGHT ->
  within_screen SCREEN_WIDTH SCREEN_HEIGHT
    (screen_bounds SCREEN_WIDTH SCREEN_HEIGHT b).
Proof.
  intros HW HH. unfold within_screen, screen_bounds. cbv zeta.
  destruct (Qlt_bool_spec (x b) (radius b)) as [Hx|Hx];
    [|destruct (Qlt_bool_spec (SCREEN_WIDTH - radius b) (x b)) as [Hx'|Hx']];
    cbn [y set_x set_vel_x];
    (destruct (Qlt_bool_spec (y b) (radius b)) as [Hy|Hy];
     [|destruct (Qlt_bool_spec (SCREEN_HEIGHT - radius b) (y b))
         as [Hy'|Hy']]);
    unfold radius in *;
    cbn [x y set_x set_y set_vel_x set_vel_y set_on_ground customization];
    lra.
Qed.

Lemma update_radius (b : t) (ps : list Platform.t) (w : bool) :
  radius (update SCREEN_WIDTH SCREEN_HEIGHT GRAVITY b ps w) = radius b.
Proof.
  unfold update.
  match goal with
  | |- radius (screen_bounds _ _ ?c) = _ =>
      destruct (screen_bounds_settings c) as (Hc & _);
      unfold radius at 1; rewrite Hc; fold (radius c)
  end.
  rewrite check_collisions_radius.
  destruct (on_ground _); reflexivity.
Qed.

Lemma update_within (b : t) (ps : list Platform.t) (w : bool) :
  2 * radius b <= SCREEN_WIDTH ->
  2 * radius b <= SCREEN_HEIGHT ->
  within_screen SCREEN_WIDTH SCREEN_HEIGHT
    (update SCREEN_WIDTH SCREEN_HEIGHT GRAVITY b ps w).
Proof.
  intros HW HH. unfold update. apply screen_bounds_within;
    rewrite check_collisions_radius;
    (destruct (on_ground _); exact HW || exact HH).
Qed.

End Screen.

Section ScreenClaims.

Import PlayerBall.

Variables SCREEN_WIDTH SCREEN_HEIGHT GRAVITY : Q.

Lemma screen_bounds_y_upper (b : t) :
  -100 <= radius b <= SCREEN_HEIGHT + 100 ->
  y (screen_bounds SCREEN_WIDTH SCREEN_HEIGHT b) <= SCREEN_HEIGHT + 100.
Proof.
  intros Hr. unfold screen_bounds. cbv zeta.
  match goal with
  | |- y (if Qlt_bool (y ?c) _ then _ else _) <= _ => generalize c
  end.
  intros c.
  destruct (Qlt_bool_spec (y c) (radius b)) as [H1|H1];
    [|destruct (Qlt_bool_spec (SCREEN_HEIGHT - radius b) (y c)) as [H2|H2]];
    cbn [y set_y set_vel_y set_on_ground]; lra.
Qed.

(** C6.  After one integration step ([PlayerBall.update], any platform
    list, any immersion flag) a ball whose radius lies in [[10, 50]] is
    inside the screen: [radius <= x <= SCREEN_WIDTH - radius] and
    [radius <= y <= SCREEN_HEIGHT - radius], the radius being the one it
    had.  The constants of the absent [config.py] are parameters; the
    screen is taken to hold the largest ball (100 by 100 at least). *)
Theorem update_keeps_ball_on_screen
    (b : t) (platforms : list Platform.t) (in_water : bool) :
  100 <= SCREEN_WIDTH ->
  100 <= SCREEN_HEIGHT ->
  10 <= radius b <= 50 ->
  let b' := update SCREEN_WIDTH SCREEN_HEIGHT GRAVITY b platforms in_water in
  radius b' = radius b /\
  (radius b' <= x b' <= SCREEN_WIDTH - radius b') /\
  (radius b' <= y b' <= SCREEN_HEIGHT - radius b').
Proof.
  intros HW HH Hr b'.
  assert (Hrad : radius b' = radius b) by apply update_radius.
  split; [exact Hrad|].
  rewrite Hrad.
  assert (Hin : within_screen SCREEN_WIDTH SCREEN_HEIGHT b')
    by (apply update_within; lra).
  unfold within_screen in Hin. rewrite Hrad in Hin. exact Hin.
Qed.

(** C10.  After [PlayerBall.update] has run on a ball whose radius lies
    in [[10, 50]], the caller's test [player.y > SCREEN_HEIGHT + 100] is
    false, so a frame of [Game.update] takes the branch that costs a life
    only when the level manager answered ['player_dead'].  The screen
    height of the absent [config.py] is taken non-negative. *)
Theorem fall_off_world_unreachable
    (b : t) (platforms : list Platform.t) (in_water : bool) :
  0 <= SCREEN_HEIGHT ->
  10 <= radius b <= 50 ->
  fell_off_world SCREEN_HEIGHT
    (update SCREEN_WIDTH SCREEN_HEIGHT GRAVITY b platforms in_water) = false
  /\
  forall (lm : LevelManager.t) (f : Game.frame),
    Game.update SCREEN_WIDTH SCREEN_HEIGHT GRAVITY lm b = Some f ->
    fell_off_world SCREEN_HEIGHT (Game.player f) = false /\
    (Game.taken f = Game.lose_life ->
     Game.result f = Some LevelManager.player_dead).
Proof.
  intros HH Hr.
  assert (Hoff : forall ps w,
    fell_off_world SCREEN_HEIGHT
      (update SCREEN_WIDTH SCREEN_HEIGHT GRAVITY b ps w) = false).
  { intros ps w. unfold fell_off_world. apply Qlt_bool_false.
    unfold update. apply screen_bounds_y_upper.
    rewrite check_collisions_radius.
    destruct (on_ground _); unfold radius in *; cbn; lra. }
  split; [apply Hoff|].
  intros lm f Hf. unfold Game.update in Hf.
  destruct (LevelManager.update lm _) as [[lm' r]|] eqn:Hup;
    [|discriminate].
  cbn in Hf. injection Hf as <-. cbn [Game.player Game.taken Game.result].
  split; [apply Hoff|].
  rewrite Hoff. destruct r as [[]|]; intros; congruence.
Qed.

End ScreenClaims.

(** The start of level 1 on a screen of 800 by 600 with gravity 1/2. *)
Lemma update_keeps_ball_on_screen_witness :
  let b := start_ball in
  let ps := LevelManager.platforms level1_loaded in
  (100 <= 800 /\ 100 <= 600 /\ 10 <= PlayerBall.radius b <= 50) /\
  let b' := PlayerBall.update 800 600 (1 # 2) b ps false in
  PlayerBall.radius b' = PlayerBall.radius b /\
  (PlayerBall.radius b' <= PlayerBall.x b' <= 800 - PlayerBall.radius b') /\
  (PlayerBall.radius b' <= PlayerBall.y b' <= 600 - PlayerBall.radius b').
Proof.
  assert (H1 : 100 <= 800) by (vm_compute; discriminate).
  assert (H2 : 100 <= 600) by (vm_compute; discriminate).
  assert (H3 : 10 <= PlayerBall.radius start_ball <= 50)
    by (split; vm_compute; discriminate).
  split; [auto|].
  exact (update_keeps_ball_on_screen 800 600 (1 # 2) start_ball
           (LevelManager.platforms level1_loaded) false H1 H2 H3).
Defined.

(** The same step does not take the ball off the world. *)
Lemma fall_off_world_unreachable_witness :
  (0 <= 600 /\ 10 <= PlayerBall.radius start_ball <= 50) /\
  PlayerBall.fell_off_world 600
    (PlayerBall.update 800 600 (1 # 2) start_ball
       (LevelManager.platforms level1_loaded) false) = false.
Proof.
  assert (H1 : 0 <= 600) by (vm_compute; discriminate).
  assert (H2 : 10 <= PlayerBall.radius start_ball <= 50)
    by (split; vm_compute; discriminate).
  split; [auto|].
  exact (proj1 (fall_off_world_unreachable 800 600 (1 # 2) start_ball
                  (LevelManager.platforms level1_loaded) false H1 H2)).
Defined.

(** ** Movement intents *)

Section Intents.

Import PlayerBall.

(** [move_left] subtracts the acceleration below the cap, does nothing at
    or above it, and touches nothing but [vel_x]. *)
Lemma move_left_spec (b : t) :
  (Qabs (vel_x b) < max_vel_x b ->
   move_left b = set_vel_x b (vel_x b - acceleration b)) /\
  (max_vel_x b <= Qabs (vel_x b) -> move_left b = b) /\
  x (move_left b) = x b /\ y (move_left b) = y b /\
  vel_y (move_left b) = vel_y b /\ on_ground (move_left b) = on_ground b.
Proof.
  unfold move_left.
  destruct (Qlt_bool_spec (Qabs (vel_x b)) (max_vel_x b)) as [H|H];
    repeat split; intros; try reflexivity; lra.
Qed.

(** The first [move_right] of the class is the mirror image. *)
Lemma move_right_first_spec (b : t) :
  (Qabs (vel_x b) < max_vel_x b ->
   move_right_first b = set_vel_x b (vel_x b + acceleration b)) /\
  (max_vel_x b <= Qabs (vel_x b) -> move_right_first b = b) /\
  x (move_right_first b) = x b /\ y (move_right_first b) = y b /\
  vel_y (move_right_first b) = vel_y b /\
  on_ground (move_right_first b) = on_ground b.
Proof.
  unfold move_right_first.
  destruct (Qlt_bool_spec (Qabs (vel_x b)) (max_vel_x b)) as [H|H];
    repeat split; intros; try reflexivity; lra.
Qed.

(** The [move_right] in force agrees with it on a ball in the air only. *)
Lemma move_right_in_the_air (b : t) :
  on_ground b = false -> move_right b = move_right_first b.
Proof.
  intros H. unfold move_right, move_right_first.
  destruct (Qlt_bool _ _); cbn [on_ground set_vel_x]; now rewrite H.
Qed.

Lemma move_right_on_the_ground (b : t) :
  on_ground b = true ->
  vel_y (move_right b) = -12 /\ on_ground (move_right b) = false.
Proof.
  intros H. unfold move_right.
  destruct (Qlt_bool _ _); cbn [on_ground set_vel_x]; now rewrite H.
Qed.

(** C3, at a ball on the ground.  [move_right] adds the acceleration to
    [vel_x], and it also sets [vel_y] to [-12] and clears [on_ground]:
    the statements of the lost [jump] run as part of it. *)
Theorem move_right_also_jumps :
  on_ground grounded_ball = true /\
  vel_y grounded_ball = 0 /\
  vel_x (move_right grounded_ball) = 4 # 5 /\
  vel_y (move_right grounded_ball) = -12 /\
  on_ground (move_right grounded_ball) = false /\
  vel_y (move_right_first grounded_ball) = 0 /\
  on_ground (move_right_first grounded_ball) = true.
Proof. repeat split. Qed.

(** ** Loading the customization *)

(** Keys missing from the file keep the built-in defaults, which are in
    range. *)
Lemma load_customization_missing (x0 y0 : Q) :
  customization (init x0 y0 None) = Customization.defaults /\
  customization (init x0 y0 (Some Customization.no_keys))
  = Customization.defaults /\
  Customization.in_ranges Customization.defaults.
Proof.
  repeat split; vm_compute; discriminate.
Qed.

(** A value in the file is taken as it is. *)
Lemma load_customization_size (x0 y0 v : Q) (s : Customization.saved) :
  Customization.s_size s = Some v ->
  radius (init x0 y0 (Some s)) = v.
Proof.
  intros H. unfold radius, init. cbn. now rewrite H.
Qed.

(** C4, at a file holding [{"size": 100}].  The ball is built with radius
    [100]: the value is neither clamped nor replaced by the default, and
    the customization is out of its ranges. *)
Theorem load_customization_out_of_range :
  let b := init 100 50 (Some oversized_file) in
  radius b = 100 /\
  ~ Customization.in_ranges (customization b) /\
  Customization.in_rangesb (customization b) = false.
Proof.
  cbv zeta. split; [reflexivity|]. split; [|reflexivity].
  intros ((_ & H) & _). vm_compute in H. apply H. reflexivity.
Qed.

End Intents.

(** ** Collision resolution against one platform *)

Section Collision.

Import PlayerBall.

Lemma Qmin_left (a b : Q) : a <= b -> Qmin a b = a.
Proof.
  intros H. unfold Qmin, GenericMinMax.gmin.
  destruct (a ?= b) eqn:E; try reflexivity.
  apply Qgt_alt in E. lra.
Qed.

Lemma Qmin_right (a b : Q) : b < a -> Qmin a b = b.
Proof.
  intros H. unfold Qmin, GenericMinMax.gmin.
  destruct (a ?= b) eqn:E; try reflexivity.
  - apply Qeq_alt in E. lra.
  - apply Qlt_alt in E. lra.
Qed.

Lemma Qmax_left (a b : Q) : b <= a -> Qmax a b = a.
Proof.
  intros H. unfold Qmax, GenericMinMax.gmax.
  destruct (a ?= b) eqn:E; try reflexivity.
  apply Qlt_alt in E. lra.
Qed.

Lemma Qmax_right (a b : Q) : a < b -> Qmax a b = b.
Proof.
  intros H. unfold Qmax, GenericMinMax.gmax.
  destruct (a ?= b) eqn:E; try reflexivity.
  - apply Qeq_alt in E. lra.
  - apply Qgt_alt in E. lra.
Qed.

Lemma sqrt_le_false (s r : Q) : r * r < s -> sqrt_le s r = false.
Proof.
  intros H. unfold sqrt_le. apply andb_false_iff. right.
  apply not_true_iff_false. rewrite Qle_bool_iff. lra.
Qed.

Lemma square_gap (a b r : Q) : 0 <= r -> r < Qabs a -> r * r < a ^ 2 + b ^ 2.
Proof.
  intros Hr Ha.
  assert (Hb : 0 <= b ^ 2) by (simpl; nra).
  assert (Ha2 : r * r < a ^ 2).
  { simpl. revert Ha. apply Qabs_case; intros; nra. }
  lra.
Qed.

(** The closest point of a rectangle with non-negative sides lies within
    the rectangle. *)
Lemma closest_within (lo len c : Q) :
  0 <= len -> lo <= Qmax lo (Qmin c (lo + len)) <= lo + len.
Proof.
  intros Hlen.
  destruct (Qlt_le_dec (lo + len) c) as [H|H].
  - rewrite (Qmin_right _ _ H).
    destruct (Qlt_le_dec lo (lo + len)) as [H'|H'].
    + rewrite (Qmax_right _ _ H'). lra.
    + rewrite (Qmax_left _ _ H'). lra.
  - rewrite (Qmin_left _ _ H).
    destruct (Qlt_le_dec lo c) as [H'|H'].
    + rewrite (Qmax_right _ _ H'). lra.
    + rewrite (Qmax_left _ _ H'). lra.
Qed.

(** A ball that is more than a radius away from the rectangle of a platform,
    on any of its four sides, is left as it is. *)
Lemma check_collision_apart (b : t) (p : Platform.t) :
  0 <= Platform.width p -> 0 <= Platform.height p ->
  x b + radius b < Platform.x p \/
  Platform.x p + Platform.width p + radius b < x b \/
  y b + radius b < Platform.y p \/
  Platform.y p + Platform.height p + radius b < y b ->
  check_collision b p = b.
Proof.
  intros Hw Hh Hapart. unfold check_collision. cbv zeta.
  destruct (Qlt_le_dec (radius b) 0) as [Hneg|Hpos].
  { unfold sqrt_le.
    replace (Qle_bool 0 (radius b)) with false; [reflexivity|].
    symmetry. apply not_true_iff_false. rewrite Qle_bool_iff. lra. }
  pose proof (closest_within (Platform.x p) (Platform.width p) (x b) Hw)
    as Hcx.
  pose proof (closest_within (Platform.y p) (Platform.height p) (y b) Hh)
    as Hcy.
  set (cx := Qmax _ _) in *. set (cy := Qmax _ _) in *.
  rewrite sqrt_le_false; [reflexivity|].
  destruct Hapart as [H|[H|[H|H]]].
  - apply square_gap; [exact Hpos|]. apply Qabs_case; intros; lra.
  - apply square_gap; [exact Hpos|]. apply Qabs_case; intros; lra.
  - rewrite Qplus_comm. apply square_gap; [exact Hpos|].
    apply Qabs_case; intros; lra.
  - rewrite Qplus_comm. apply square_gap; [exact Hpos|].
    apply Qabs_case; intros; lra.
Qed.

(** A ball over the top edge of a platform, its centre above the edge by at
    most a radius, is put on the platform: its lowest point on the edge, the
    vertical velocity reflected and scaled by the bounce factor, and
    [on_ground] set. *)
Lemma check_collision_top (b : t) (p : Platform.t) :
  0 <= Platform.width p -> 0 <= Platform.height p ->
  Platform.x p <= x b <= Platform.x p + Platform.width p ->
  Platform.y p - radius b <= y b <= Platform.y p ->
  check_collision b p =
  set_on_ground
    (set_vel_y (set_y b (Platform.y p - radius b))
               (- vel_y b * Customization.bounce_factor (customization b)))
    true.
Proof.
  intros Hw Hh Hx Hy. unfold check_collision. cbv zeta.
  assert (Ecy : Qmax (Platform.y p)
                     (Qmin (y b) (Platform.y p + Platform.height p))
                = Platform.y p).
  { rewrite Qmin_left by lra. apply Qmax_left. lra. }
  rewrite Ecy.
  assert (Ecx : Qmax (Platform.x p)
                     (Qmin (x b) (Platform.x p + Platform.width p))
                == x b).
  { rewrite Qmin_left by lra. apply Q.max_r. lra. }
  assert (Hhit : sqrt_le ((x b - Qmax (Platform.x p)
                           (Qmin (x b) (Platform.x p + Platform.width p))) ^ 2
                        + (y b - Platform.y p) ^ 2) (radius b) = true).
  { unfold sqrt_le. apply andb_true_iff.
    split; apply Qle_bool_iff; [lra|].
    rewrite Ecx.
    assert (E : (x b - x b) ^ 2 + (y b - Platform.y p) ^ 2
                == (Platform.y p - y b) * (Platform.y p - y b))
      by (simpl; ring).
    rewrite E. clear E.
    assert (Hd : 0 <= Platform.y p - y b <= radius b) by lra.
    revert Hd. generalize (Platform.y p - y b), (radius b).
    intros d r Hd.
    assert (H1 : d * d <= r * d) by (apply Qmult_le_compat_r; lra).
    assert (H2 : d * r <= r * r) by (apply Qmult_le_compat_r; lra).
    lra. }
  rewrite Hhit.
  replace (Qeq_bool (Platform.y p) (Platform.y p)) with true; [reflexivity|].
  symmetry. apply Qeq_bool_iff. reflexivity.
Qed.

End Collision.

(** ** Water platforms in a frame *)

Section Water.

Import PlayerBall.

Variables SCREEN_WIDTH SCREEN_HEIGHT GRAVITY : Q.

(** The ball of a frame is the integration step against the platform list of
    the level manager, under the immersion flag computed before it. *)
Lemma frame_player (lm : LevelManager.t) (b : t) (f : Game.frame) :
  Game.update SCREEN_WIDTH SCREEN_HEIGHT GRAVITY lm b = Some f ->
  Game.player f =
  update SCREEN_WIDTH SCREEN_HEIGHT GRAVITY b (LevelManager.platforms lm)
         (Game.in_water lm b).
Proof.
  intros Hf. unfold Game.update in Hf.
  destruct (LevelManager.update lm _) as [r|]; [|discriminate].
  cbn [mbind option_bind] in Hf. now injection Hf as <-.
Qed.

(** A frame goes through as soon as the platform loop does. *)
Lemma frame_defined (lm : LevelManager.t) (b : t) (ps : list Platform.t) :
  mapM LevelManager.update_platform (LevelManager.platforms lm) = Some ps ->
  exists f : Game.frame,
    Game.update SCREEN_WIDTH SCREEN_HEIGHT GRAVITY lm b = Some f.
Proof.
  intros Hps. unfold Game.update.
  destruct (LevelManager.update lm _) as [r|] eqn:E;
    [cbn [mbind option_bind]; eauto|].
  unfold LevelManager.update in E. rewrite Hps in E.
  cbn [mbind option_bind] in E.
  destruct (LevelManager.check_goal_collision _ _); [discriminate|].
  destruct (LevelManager.check_enemy_collision _ _); discriminate.
Qed.

(** A collision looks at the rectangle of the platform and at nothing
    else. *)
Lemma check_collision_rect (b : t) (p p' : Platform.t) :
  Platform.rect p = Platform.rect p' ->
  check_collision b p = check_collision b p'.
Proof.
  unfold Platform.rect. intros H. injection H as Hx Hy Hw Hh.
  unfold check_collision. now rewrite Hx, Hy, Hw, Hh.
Qed.

Lemma check_collisions_rect (ps : list Platform.t) :
  forall (ps' : list Platform.t) (b : t),
    map Platform.rect ps = map Platform.rect ps' ->
    check_collisions b ps = check_collisions b ps'.
Proof.
  unfold check_collisions.
  induction ps as [|p ps IH]; intros [|p' ps'] b H; try discriminate.
  - reflexivity.
  - cbn [map] in H.
    assert (Hp : Platform.rect p = Platform.rect p') by congruence.
    assert (Hps : map Platform.rect ps = map Platform.rect ps')
      by congruence.
    cbn [fold_left].
    rewrite (check_collision_rect b p p' Hp). now apply IH.
Qed.

Lemma update_rect (b : t) (ps ps' : list Platform.t) (w : bool) :
  map Platform.rect ps = map Platform.rect ps' ->
  update SCREEN_WIDTH SCREEN_HEIGHT GRAVITY b ps w
  = update SCREEN_WIDTH SCREEN_HEIGHT GRAVITY b ps' w.
Proof.
  intros H. unfold update. cbv zeta.
  now rewrite (check_collisions_rect ps ps' _ H).
Qed.

(** C1, as the code has it.  The ball of a frame is the ball the
    integration step has moved, run through [check_collision] against the
    platforms of the level one after the other, in the order of the list
    and whatever their kind, and then through the screen boundaries.
    [check_collision] reads the rectangle of a platform and nothing else,
    so any list with the same rectangles in the same order gives the same
    ball, and a water platform is resolved like a static one with its
    rectangle.  The kind water enters through the immersion flag
    [Game.in_water] only, which halves the gravity of the move. *)
Theorem frame_resolves_every_platform
    (lm : LevelManager.t) (b : t) (f : Game.frame)
    (ps' : list Platform.t) :
  Game.update SCREEN_WIDTH SCREEN_HEIGHT GRAVITY lm b = Some f ->
  map Platform.rect ps' = map Platform.rect (LevelManager.platforms lm) ->
  let gravity :=
    if Game.in_water lm b then GRAVITY * (1 # 2) else GRAVITY in
  let vx := if on_ground b then vel_x b * friction b else vel_x b in
  let vy := vel_y b + gravity in
  let moved :=
    mk (x b + vx) (y b + vy) vx vy false (customization b)
       (max_vel_x b) (acceleration b) (friction b) in
  Game.player f
  = screen_bounds SCREEN_WIDTH SCREEN_HEIGHT
      (fold_left check_collision ps' moved) /\
  Game.player f
  = update SCREEN_WIDTH SCREEN_HEIGHT GRAVITY b ps' (Game.in_water lm b) /\
  forall (c : t) (p : Platform.t),
    check_collision c p = check_collision c (as_static p).
Proof.
  intros Hf Hrect gravity vx vy moved.
  assert (Hupdate : Game.player f
                    = update SCREEN_WIDTH SCREEN_HEIGHT GRAVITY b ps'
                        (Game.in_water lm b))
    by (rewrite (frame_player lm b f Hf); symmetry; now apply update_rect).
  split; [|split; [exact Hupdate|]].
  - rewrite Hupdate. subst moved vx vy gravity.
    unfold update, check_collisions. cbv zeta. cbn [on_ground set_vel_y].
    destruct (on_ground b); reflexivity.
  - intros c p. now apply check_collision_rect.
Qed.

Lemma screen_bounds_on_ground (b : t) :
  on_ground b = true ->
  on_ground (screen_bounds SCREEN_WIDTH SCREEN_HEIGHT b) = true.
Proof.
  intros H. unfold screen_bounds.
  repeat destruct (Qlt_bool _ _);
    cbn [on_ground set_x set_y set_vel_x set_vel_y set_on_ground]; auto.
Qed.

Lemma screen_bounds_in_the_air (b : t) :
  radius b <= y b <= SCREEN_HEIGHT - radius b ->
  on_ground (screen_bounds SCREEN_WIDTH SCREEN_HEIGHT b) = on_ground b.
Proof.
  intros H. unfold screen_bounds. cbv zeta.
  match goal with
  | |- on_ground (if Qlt_bool (y ?c) _ then _ else _) = _ =>
      assert (Hc : y c = y b /\ on_ground c = on_ground b)
        by (repeat destruct (Qlt_bool _ _); split; reflexivity);
      generalize dependent c
  end.
  intros c [Hy Hg]. rewrite Hy.
  destruct (Qlt_bool_spec (y b) (radius b)) as [H1|H1]; [lra|].
  destruct (Qlt_bool_spec (SCREEN_HEIGHT - radius b) (y b)) as [H2|H2]; [lra|].
  exact Hg.
Qed.

Lemma level2_platforms :
  LevelManager.platforms level2_loaded
  = LevelManager.lv_platforms LevelManager.level2.
Proof. vm_compute. reflexivity. Qed.

(** On level 2, whatever the width of the screen, for a screen at least 520
    high and a gravity between 0 and 40: the ball that touches the water
    surface ends the step on the ground when the water platform is in the
    list, and in the air when it is not. *)
Lemma ball_on_water_step :
  520 <= SCREEN_HEIGHT -> 0 <= GRAVITY <= 40 ->
  on_ground (update SCREEN_WIDTH SCREEN_HEIGHT GRAVITY ball_on_water
               (LevelManager.platforms level2_loaded) true) = true /\
  on_ground (update SCREEN_WIDTH SCREEN_HEIGHT GRAVITY ball_on_water
               (non_water (LevelManager.platforms level2_loaded)) true)
  = false.
Proof.
  intros HH HG. rewrite level2_platforms.
  unfold update. cbv zeta.
  cbn [on_ground ball_on_water set_vel_y].
  set (b1 := set_on_ground _ false).
  assert (Hx : x b1 == 250) by (cbn; ring).
  assert (Hy : y b1 == 480 + GRAVITY * (1 # 2)) by (cbn; ring).
  assert (Hr : radius b1 == 20) by reflexivity.
  assert (Hg : on_ground b1 = false) by reflexivity.
  split.
  - (* the ground and the three floating platforms are out of reach, the
       water platform is hit from above, the exit platform is out of reach *)
    apply screen_bounds_on_ground.
    cbn [LevelManager.lv_platforms LevelManager.level2 check_collisions
         fold_left].
    rewrite (check_collision_apart b1) by (cbn; lra).
    rewrite (check_collision_apart b1) by (cbn; lra).
    rewrite (check_collision_apart b1) by (cbn; lra).
    rewrite (check_collision_apart b1) by (cbn; lra).
    rewrite (check_collision_top b1) by (cbn; lra).
    rewrite check_collision_apart by (cbn; lra).
    reflexivity.
  - change (non_water (LevelManager.lv_platforms LevelManager.level2))
      with [ Platform.static 0 550 800 50 LevelManager.brown;
             Platform.static 100 450 100 20 LevelManager.green;
             Platform.static 300 400 100 20 LevelManager.green;
             Platform.static 500 350 100 20 LevelManager.green;
             Platform.static 650 300 100 20 (200, 0, 0)%Z ].
    cbn [check_collisions fold_left].
    rewrite !(check_collision_apart b1) by (cbn; lra).
    rewrite screen_bounds_in_the_air; [exact Hg|].
    rewrite Hr, Hy. lra.
Qed.

(** The reading that leaves water out of the collision resolution fails on
    level 2 for every such configuration. *)
Lemma water_resolved_in_any_config :
  520 <= SCREEN_HEIGHT -> 0 <= GRAVITY <= 40 ->
  ~ water_excluded SCREEN_WIDTH SCREEN_HEIGHT GRAVITY
      level2_loaded ball_on_water.
Proof.
  intros HH HG Hex.
  destruct (frame_defined level2_loaded ball_on_water
              (LevelManager.platforms level2_loaded)) as [f Hf].
  { vm_compute. reflexivity. }
  pose proof (frame_player _ _ _ Hf) as Hall.
  pose proof (Hex f Hf) as Hnone.
  assert (Hw : Game.in_water level2_loaded ball_on_water = true)
    by (vm_compute; reflexivity).
  rewrite Hw in Hall, Hnone.
  destruct (ball_on_water_step HH HG) as [H1 H2].
  rewrite <- Hall in H1. rewrite <- Hnone in H2. congruence.
Qed.

End Water.

(** C1, as the specification has it, fails on level 2 (here on a screen of
    800 by 600 with gravity 1/2; [water_resolved_in_any_config] covers the
    other values) for a ball that touches the water surface: the frame
    resolves the collision with the water platform and leaves the ball on
    the ground, on top of the water; without the water platform the ball
    would have gone on falling. *)
Lemma water_platform_is_resolved :
  ~ water_excluded 800 600 (1 # 2) level2_loaded ball_on_water.
Proof.
  apply water_resolved_in_any_config.
  - vm_compute. discriminate.
  - split; vm_compute; discriminate.
Qed.

(** On level 2, with every platform turned into a static one, the frame
    gives the same ball. *)
Lemma frame_resolves_every_platform_witness :
  let ps' := map as_static (LevelManager.platforms level2_loaded) in
  exists f : Game.frame,
    (Game.update 800 600 (1 # 2) level2_loaded ball_on_water = Some f /\
     map Platform.rect ps'
     = map Platform.rect (LevelManager.platforms level2_loaded)) /\
    Game.player f =
    PlayerBall.update 800 600 (1 # 2) ball_on_water ps'
      (Game.in_water level2_loaded ball_on_water).
Proof.
  intros ps'.
  destruct (Game.update 800 600 (1 # 2) level2_loaded ball_on_water)
    as [f|] eqn:Hf; [|vm_compute in Hf; discriminate].
  fold (Game.update 800 600 (1 # 2) level2_loaded ball_on_water) in Hf.
  assert (Hrect : map Platform.rect ps'
                  = map Platform.rect (LevelManager.platforms level2_loaded))
    by reflexivity.
  exists f. split; [split; [reflexivity | exact Hrect]|].
  exact (proj1 (proj2 (frame_resolves_every_platform 800 600 (1 # 2)
                         level2_loaded ball_on_water f ps' Hf Hrect))).
Defined.

(** ** Moving platforms and patrolling enemies *)

Section Dynamics.

Import LevelManager.

Lemma Qabs_times_minus_one (v : Q) : Qabs (v * -1) == Qabs v.
Proof.
  assert (E : v * -1 == - v) by ring.
  rewrite E. apply Qabs_opp.
Qed.

(** C7, as the code has it.  One step of the platform loop of [update] on
    a moving platform
    with [start_x <= end_x], a speed of magnitude at most
    [end_x - start_x] and [start_x <= x <= end_x]: the step succeeds, the
    platform is still such a platform (so the statement applies to every
    later step), and the signed speed is negated exactly when the advance
    carries [x] strictly beyond a bound, [x] being then set to that bound;
    otherwise [x] has advanced by the speed, which is kept, also when the
    advance lands on the bound itself.  So the speed changes only in a step
    that ends at a bound, but a step can end at a bound with the speed
    kept. *)
Theorem moving_platform_step (p : Platform.t) (s e v : Q) :
  Platform.has_type "moving" p = true ->
  Platform.start_x p = Some s ->
  Platform.end_x p = Some e ->
  Platform.speed p = Some v ->
  s <= e ->
  Qabs v <= e - s ->
  s <= Platform.x p <= e ->
  exists (p' : Platform.t) (v' : Q),
    update_platform p = Some p' /\
    Platform.has_type "moving" p' = true /\
    Platform.start_x p' = Some s /\
    Platform.end_x p' = Some e /\
    Platform.speed p' = Some v' /\
    Qabs v' <= e - s /\
    s <= Platform.x p' <= e /\
    (e < Platform.x p + v -> Platform.x p' = e /\ v' == - v) /\
    (Platform.x p + v < s -> Platform.x p' = s /\ v' == - v) /\
    (s <= Platform.x p + v <= e ->
     Platform.x p' = Platform.x p + v /\ v' = v) /\
    (v' <> v -> Platform.x p' = s \/ Platform.x p' = e).
Proof.
  intros Ht Hs He Hv Hse Hmag Hx.
  unfold update_platform. rewrite Ht.
  cbn [Platform.x Platform.set_x Platform.speed Platform.end_x
       Platform.start_x].
  rewrite Hs, He, Hv. cbn [default from_option id].
  assert (Hneg : Qabs (v * -1) <= e - s)
    by (rewrite Qabs_times_minus_one; exact Hmag).
  assert (Hopp : v * -1 == - v) by ring.
  unfold Platform.has_type in *.
  destruct (Qlt_bool_spec e (Platform.x p + v)) as [Hhi|Hhi];
    [exists (Platform.set_speed
               (Platform.set_x (Platform.set_x p (Platform.x p + v)) e)
               (v * -1)), (v * -1)
    |destruct (Qlt_bool_spec (Platform.x p + v) s) as [Hlo|Hlo];
     [exists (Platform.set_speed
                (Platform.set_x (Platform.set_x p (Platform.x p + v)) s)
                (v * -1)), (v * -1)
     |exists (Platform.set_x p (Platform.x p + v)), v]];
    cbn [mbind option_bind Platform.set_speed Platform.set_x
         Platform.x Platform.type Platform.start_x Platform.end_x
         Platform.speed];
    repeat split; try assumption; try reflexivity; try lra;
    intros Hne; first [now right | now left | congruence].
Qed.

Lemma update_enemy_patrol (en : Enemy.t) :
  Enemy.patrol (update_enemy en) = Enemy.patrol en.
Proof.
  unfold update_enemy. destruct (Enemy.patrol en) as [[low high]|] eqn:E;
    [|exact E].
  repeat destruct (Qlt_bool _ _); exact E.
Qed.

(** C8, as the code has it.  One step of the enemy loop of [update] on a
    patrolling enemy with [patrol_low <= x <= patrol_high] whose speed is
    [+1] or [-1] (the key is absent in the level data, which counts as
    [+1]): the enemy keeps its patrol range, [x] stays within it and the
    speed is again [+1] or [-1]; when the advance carries [x] strictly
    beyond the high bound [x] is set to it and the speed to [-1], strictly
    beyond the low bound [x] is set to it and the speed to [+1], and
    otherwise the speed is kept, also when the advance lands on the bound
    itself. *)
Theorem patrolling_enemy_step (en : Enemy.t) (low high : Q) :
  Enemy.patrol en = Some (low, high) ->
  low <= Enemy.x en <= high ->
  (default 1 (Enemy.speed en) == 1 \/ default 1 (Enemy.speed en) == -1) ->
  let v := default 1 (Enemy.speed en) in
  let en' := update_enemy en in
  Enemy.patrol en' = Some (low, high) /\
  low <= Enemy.x en' <= high /\
  (default 1 (Enemy.speed en') == 1 \/
   default 1 (Enemy.speed en') == -1) /\
  (high < Enemy.x en + v ->
   Enemy.x en' = high /\ Enemy.speed en' = Some (-1)) /\
  (Enemy.x en + v < low ->
   Enemy.x en' = low /\ Enemy.speed en' = Some 1) /\
  (low <= Enemy.x en + v <= high ->
   Enemy.x en' = Enemy.x en + v /\ Enemy.speed en' = Enemy.speed en).
Proof.
  intros Hp Hx Hv v en'.
  split; [subst en'; rewrite update_enemy_patrol; exact Hp|].
  subst en'. unfold update_enemy. rewrite Hp.
  cbn [Enemy.x Enemy.set_x Enemy.speed]. fold v.
  destruct (Qlt_bool_spec high (Enemy.x en + v)) as [Hhi|Hhi];
    [|destruct (Qlt_bool_spec (Enemy.x en + v) low) as [Hlo|Hlo]];
    cbn [Enemy.x Enemy.set_x Enemy.speed Enemy.set_speed default from_option id];
    repeat split; try reflexivity; try lra.
Qed.

End Dynamics.

(** C7, as the claim has it, fails.  The moving platform of level 3 at
    [x = 399] with speed 1 reaches its bound 400 in one step and keeps its
    speed: the test of the code is [x > end_x], and 400 is not beyond
    400. *)
Lemma bound_reached_speed_kept :
  ~ reverses_on_reaching_a_bound platform_before_bound.
Proof.
  intros H.
  destruct (H (Platform.set_x level3_moving_platform (399 + 1)) 200 400 1 1
              eq_refl eq_refl eq_refl eq_refl eq_refl) as [_ Hback].
  assert (Hneg : 1 == - (1)) by (apply Hback; right; reflexivity).
  discriminate Hneg.
Qed.

(** C8, as the claim has it, fails.  The enemy of level 2 at [x = 249]
    reaches its high bound 250 in one step and its speed is not set to
    [-1]: the test of the code is [x > patrol[1]]. *)
Lemma high_bound_reached_speed_kept :
  ~ turns_on_reaching_a_bound enemy_before_bound.
Proof.
  intros H.
  destruct (H 150 250 eq_refl) as [Hhigh _].
  discriminate Hhigh. reflexivity.
Qed.

(** The moving platform of level 3, from its first position. *)
Lemma moving_platform_step_witness :
  (Platform.has_type "moving" level3_moving_platform = true /\
   200 <= 400 /\ Qabs 1 <= 400 - 200 /\
   200 <= Platform.x level3_moving_platform <= 400) /\
  exists (p' : Platform.t) (v' : Q),
    LevelManager.update_platform level3_moving_platform = Some p' /\
    Platform.speed p' = Some v' /\
    200 <= Platform.x p' <= 400.
Proof.
  assert (H1 : Platform.has_type "moving" level3_moving_platform = true)
    by reflexivity.
  assert (H2 : 200 <= 400) by (vm_compute; discriminate).
  assert (H3 : Qabs 1 <= 400 - 200) by (vm_compute; discriminate).
  assert (H4 : 200 <= Platform.x level3_moving_platform <= 400)
    by (split; vm_compute; discriminate).
  split; [auto|].
  destruct (moving_platform_step level3_moving_platform 200 400 1
              H1 eq_refl eq_refl eq_refl H2 H3 H4)
    as (p' & v' & Hup & _ & _ & _ & Hv & _ & Hx & _).
  exists p', v'. auto.
Defined.

(** The enemy of level 2, from its first position. *)
Lemma patrolling_enemy_step_witness :
  (150 <= Enemy.x level2_enemy <= 250 /\
   (default 1 (Enemy.speed level2_enemy) == 1 \/
    default 1 (Enemy.speed level2_enemy) == -1)) /\
  150 <= Enemy.x (LevelManager.update_enemy level2_enemy) <= 250.
Proof.
  assert (H1 : 150 <= Enemy.x level2_enemy <= 250)
    by (split; vm_compute; discriminate).
  assert (H2 : default 1 (Enemy.speed level2_enemy) == 1 \/
               default 1 (Enemy.speed level2_enemy) == -1)
    by (left; reflexivity).
  split; [auto|].
  exact (proj1 (proj2 (patrolling_enemy_step level2_enemy 150 250
                         eq_refl H1 H2))).
Defined.

(** ** The circle-rectangle test of the goal and of the enemies *)

Section Proximity.

Import LevelManager.

#[local] Instance Qlt_bool_comp : Proper (Qeq ==> Qeq ==> eq) Qlt_bool.
Proof. intros a a' Ha b b' Hb. unfold Qlt_bool. now rewrite Ha, Hb. Qed.

Lemma circle_rectangle_translate (cx cy size rx ry width height tx ty : Q) :
  circle_rectangle (cx + tx) (cy + ty) size (rx + tx) (ry + ty) width height
  = circle_rectangle cx cy size rx ry width height.
Proof.
  unfold circle_rectangle. cbv zeta.
  set (dx' := Qabs (cx + tx - (rx + tx + width / 2))).
  set (dy' := Qabs (cy + ty - (ry + ty + height / 2))).
  set (dx := Qabs (cx - (rx + width / 2))).
  set (dy := Qabs (cy - (ry + height / 2))).
  assert (Hx : dx' == dx) by (apply Qabs_wd; ring).
  assert (Hy : dy' == dy) by (apply Qabs_wd; ring).
  assert (E1 : Qlt_bool (width / 2 + size) dx'
               = Qlt_bool (width / 2 + size) dx) by now rewrite Hx.
  assert (E2 : Qlt_bool (height / 2 + size) dy'
               = Qlt_bool (height / 2 + size) dy) by now rewrite Hy.
  assert (E3 : Qle_bool dx' (width / 2) = Qle_bool dx (width / 2))
    by now rewrite Hx.
  assert (E4 : Qle_bool dy' (height / 2) = Qle_bool dy (height / 2))
    by now rewrite Hy.
  assert (E5 : Qle_bool ((dx' - width / 2) ^ 2 + (dy' - height / 2) ^ 2)
                        (size ^ 2)
               = Qle_bool ((dx - width / 2) ^ 2 + (dy - height / 2) ^ 2)
                          (size ^ 2)) by now rewrite Hx, Hy.
  now rewrite E1, E2, E3, E4, E5.
Qed.

Lemma goal_translate_levels (tx ty : Q) (lm : t) :
  goal (translate_levels tx ty lm) = translate_goal tx ty <$> goal lm.
Proof.
  unfold goal, translate_levels. cbn [goal_ref levels].
  destruct (goal_ref lm) as [k|]; [|reflexivity].
  rewrite lookup_fmap. now destruct (levels lm !! k).
Qed.

Lemma enemies_translate_levels (tx ty : Q) (lm : t) :
  enemies (translate_levels tx ty lm)
  = map (translate_enemy tx ty) (enemies lm).
Proof.
  unfold enemies, translate_levels. cbn [enemies_ref levels].
  destruct (enemies_ref lm) as [k|]; [|reflexivity].
  rewrite lookup_fmap. now destruct (levels lm !! k).
Qed.

(** Over exact arithmetic the four-branch test is invariant under
    translation: moving the circle's centre and the rectangle by the same
    vector [(tx, ty)] does not change its outcome, and so neither
    [check_goal_collision] nor [check_enemy_collision] changes when the
    ball, the goal and the enemies are moved together. *)
Lemma proximity_translation_exact (tx ty : Q) :
  (forall cx cy size rx ry width height : Q,
     circle_rectangle (cx + tx) (cy + ty) size (rx + tx) (ry + ty)
                      width height
     = circle_rectangle cx cy size rx ry width height) /\
  (forall (lm : t) (player : PlayerBall.t),
     check_goal_collision (translate_levels tx ty lm)
                          (translate_ball tx ty player)
     = check_goal_collision lm player) /\
  (forall (lm : t) (player : PlayerBall.t),
     check_enemy_collision (translate_levels tx ty lm)
                           (translate_ball tx ty player)
     = check_enemy_collision lm player).
Proof.
  split; [intros; apply circle_rectangle_translate|].
  split; intros lm player.
  - unfold check_goal_collision. rewrite goal_translate_levels.
    destruct (goal lm) as [g|]; [|reflexivity].
    cbn. apply circle_rectangle_translate.
  - unfold check_enemy_collision. rewrite enemies_translate_levels.
    induction (enemies lm) as [|en es IH]; [reflexivity|].
    cbn [map existsb]. rewrite IH. f_equal.
    cbn. apply circle_rectangle_translate.
Qed.





End Proximity.



(** ** The level data stay well formed, and [update] never raises *)

Section WellFormed.

Import LevelManager.




















End WellFormed.

(** ** Loading levels *)

Section Levels.

Import LevelManager.

(** The table of levels has the keys 1, 2 and 3, in every state. *)
Lemma load_levels_keys (k : Z) : is_Some (load_levels !! k) <-> known k.
Proof.
  unfold load_levels, known.
  rewrite !lookup_insert_is_Some, lookup_empty, is_Some_alt.
  intuition congruence.
Qed.

Lemma store_platforms_keys (lm : t) (ps : list Platform.t) (k : Z) :
  is_Some (levels (store_platforms lm ps) !! k) <-> is_Some (levels lm !! k).
Proof.
  unfold store_platforms. destruct (platforms_ref lm) as [j|]; [|tauto].
  cbn [levels]. destruct (decide (j = k)) as [->|Hne].
  - rewrite lookup_alter_eq. apply fmap_is_Some.
  - now rewrite lookup_alter_ne.
Qed.

Lemma store_enemies_keys (lm : t) (es : list Enemy.t) (k : Z) :
  is_Some (levels (store_enemies lm es) !! k) <-> is_Some (levels lm !! k).
Proof.
  unfold store_enemies. destruct (enemies_ref lm) as [j|]; [|tauto].
  cbn [levels]. destruct (decide (j = k)) as [->|Hne].
  - rewrite lookup_alter_eq. apply fmap_is_Some.
  - now rewrite lookup_alter_ne.
Qed.

Lemma update_keys (lm lm' : t) (player : PlayerBall.t)
    (r : option result) (k : Z) :
  update lm player = Some (lm', r) ->
  is_Some (levels lm' !! k) <-> is_Some (levels lm !! k).
Proof.
  unfold update. intros H.
  destruct (mapM update_platform (platforms lm)) as [ps|]; [|discriminate].
  cbn [mbind option_bind] in H.
  assert (E : lm' = store_enemies (store_platforms lm ps)
                      (map update_enemy (enemies (store_platforms lm ps)))).
  { destruct (check_goal_collision _ _); [congruence|].
    destruct (check_enemy_collision _ _); congruence. }
  rewrite E, store_enemies_keys. apply store_platforms_keys.
Qed.

Lemma reachable_keys (lm : t) :
  reachable lm -> forall k, is_Some (levels lm !! k) <-> known k.
Proof.
  induction 1 as [|lm j _ IH|lm lm' player r _ IH Hup]; intros k.
  - apply load_levels_keys.
  - unfold load_level. destruct (levels lm !! j); apply IH.
  - rewrite (update_keys _ _ _ _ k Hup). apply IH.
Qed.

(** C5.  In every state of the level manager, [load_level] with a number
    other than 1, 2 and 3 returns [None] and leaves the whole state as it
    was: the current level, the platforms, the enemies and the goal. *)
Theorem load_level_unknown (lm : t) (level_num : Z) :
  reachable lm ->
  level_num <> 1%Z -> level_num <> 2%Z -> level_num <> 3%Z ->
  load_level lm level_num = (lm, None) /\
  let lm' := (load_level lm level_num).1 in
  current_level lm' = current_level lm /\
  platforms lm' = platforms lm /\
  enemies lm' = enemies lm /\
  goal lm' = goal lm.
Proof.
  intros Hr H1 H2 H3.
  assert (E : load_level lm level_num = (lm, None)).
  { unfold load_level.
    destruct (levels lm !! level_num) as [d|] eqn:Hd; [|reflexivity].
    assert (Hk : known level_num)
      by (apply (reachable_keys lm Hr); rewrite Hd; eauto).
    unfold known in Hk. tauto. }
  split; [exact E|]. rewrite E. repeat split.
Qed.

(** A known level: the attributes are bound to the entries of the table
    as they are now, and the start position is returned. *)
Lemma load_level_known (lm : t) (level_num : Z) (d : level_data) :
  levels lm !! level_num = Some d ->
  let lm' := (load_level lm level_num).1 in
  (load_level lm level_num).2 = Some (start_pos d) /\
  current_level lm' = level_num /\
  levels lm' = levels lm /\
  platforms lm' = lv_platforms d /\
  enemies lm' = lv_enemies d /\
  goal lm' = Some (lv_goal d).
Proof.
  intros H. unfold load_level, platforms, enemies, goal. rewrite H.
  cbn. rewrite H. repeat split.
Qed.

(** C2, at level 3 after one frame.  Loading level 3 again (what the key
    R, [Reset Level], does) returns the start position, and the attributes
    are bound to the lists of the table, which the frame has changed: the
    moving platform is at 201, not 200, and the enemies are at 401 and 601,
    not 400 and 600. *)
Theorem reload_keeps_moved_positions :
  exists lm : t,
    level3_reloaded = Some (lm, Some (100, 400)) /\
    map Platform.x (lv_platforms level3)
    = [0; 300; 600; 100; 300; 500; 200; 650] /\
    map Platform.x (platforms lm)
    = [0; 300; 600; 100; 300; 500; 201; 650] /\
    map Enemy.x (lv_enemies level3) = [400; 600] /\
    map Enemy.x (enemies lm) = [401; 601] /\
    platforms lm <> lv_platforms level3 /\
    enemies lm <> lv_enemies level3.
Proof.
  assert (Hr : option_map snd level3_reloaded = Some (Some (100, 400)))
    by (vm_compute; reflexivity).
  assert (Hp : option_map (fun s => map Platform.x (platforms s.1))
                 level3_reloaded
               = Some [0; 300; 600; 100; 300; 500; 201; 650])
    by (vm_compute; reflexivity).
  assert (He : option_map (fun s => map Enemy.x (enemies s.1))
                 level3_reloaded
               = Some [401; 601])
    by (vm_compute; reflexivity).
  destruct level3_reloaded as [[lm r]|]; [|discriminate].
  cbn [option_map fst snd] in Hr, Hp, He.
  injection Hr as ->. injection Hp as Hp. injection He as He.
  exists lm. repeat split; try assumption.
  - intros Habs. rewrite Habs in Hp. vm_compute in Hp. discriminate.
  - intros Habs. rewrite Habs in He. vm_compute in He. discriminate.
Qed.

End Levels.

(** [load_level(4)] on a fresh level manager. *)
Lemma load_level_unknown_witness :
  (reachable LevelManager.init /\ 4%Z <> 1%Z /\ 4%Z <> 2%Z /\ 4%Z <> 3%Z) /\
  LevelManager.load_level LevelManager.init 4 = (LevelManager.init, None).
Proof.
  assert (H1 : 4%Z <> 1%Z) by discriminate.
  assert (H2 : 4%Z <> 2%Z) by discriminate.
  assert (H3 : 4%Z <> 3%Z) by discriminate.
  split; [auto using reach_init|].
  exact (proj1 (load_level_unknown LevelManager.init 4 reach_init H1 H2 H3)).
Defined.

(** * Further properties *)

(** ** Collision resolution, case by case *)

Section CollisionCases.

Import PlayerBall.

(** [check_collision] in terms of the vocabulary. *)
Lemma check_collision_unfold (b : t) (p : Platform.t) :
  check_collision b p =
  if hits b p then
    if Qeq_bool (closest (Platform.y p) (Platform.height p) (y b))
                (Platform.y p)
    then top_collision b p
    else if Qeq_bool (closest (Platform.y p) (Platform.height p) (y b))
                     (Platform.y p + Platform.height p)
    then bottom_collision b p
    else if Qeq_bool (closest (Platform.x p) (Platform.width p) (x b))
                     (Platform.x p)
    then left_collision b p
    else right_collision b p
  else b.
Proof. reflexivity. Qed.

Lemma Qeq_bool_true (a b : Q) : a == b -> Qeq_bool a b = true.
Proof. apply Qeq_bool_iff. Qed.

Lemma Qeq_bool_false (a b : Q) : ~ a == b -> Qeq_bool a b = false.
Proof.
  intros H. apply not_true_iff_false. intros E. apply H.
  now apply Qeq_bool_iff.
Qed.

(** Where the closest point lies. *)
Lemma closest_below (lo len c : Q) : c <= lo -> closest lo len c = lo.
Proof.
  intros H. unfold closest. apply Qmax_left.
  destruct (Qlt_le_dec (lo + len) c) as [H'|H'].
  - rewrite (Qmin_right _ _ H'). lra.
  - rewrite (Qmin_left _ _ H'). exact H.
Qed.

Lemma closest_above (lo len c : Q) :
  0 < len -> lo + len <= c -> closest lo len c == lo + len.
Proof.
  intros Hlen H. unfold closest.
  destruct (Qlt_le_dec (lo + len) c) as [H'|H'].
  - rewrite (Qmin_right _ _ H'). rewrite Qmax_right by lra. reflexivity.
  - rewrite (Qmin_left _ _ H'). rewrite Qmax_right by lra. lra.
Qed.

Lemma closest_inside (lo len c : Q) :
  lo < c -> c <= lo + len -> closest lo len c = c.
Proof.
  intros H1 H2. unfold closest.
  rewrite (Qmin_left _ _ H2). now apply Qmax_right.
Qed.

(** X1.  How a detected collision is resolved, on a platform with positive
    sides, by the position of the centre of the ball: at or above the top
    edge it is a top collision (the corners included); at or below the
    bottom edge a bottom collision; between the two edges a left collision
    when the centre is at or left of the left edge, and a right collision
    otherwise. *)
Theorem collision_side (b : t) (p : Platform.t) :
  hits b p = true ->
  0 < Platform.width p -> 0 < Platform.height p ->
  (y b <= Platform.y p -> check_collision b p = top_collision b p) /\
  (Platform.y p + Platform.height p <= y b ->
   check_collision b p = bottom_collision b p) /\
  (Platform.y p < y b < Platform.y p + Platform.height p ->
   x b <= Platform.x p -> check_collision b p = left_collision b p) /\
  (Platform.y p < y b < Platform.y p + Platform.height p ->
   Platform.x p < x b -> check_collision b p = right_collision b p).
Proof.
  intros Hhit Hw Hh. rewrite check_collision_unfold, Hhit.
  repeat split.
  - intros Hy. rewrite (closest_below _ _ _ Hy).
    now rewrite Qeq_bool_true.
  - intros Hy.
    pose proof (closest_above _ _ _ Hh Hy) as E.
    rewrite Qeq_bool_false by (rewrite E; lra).
    now rewrite (Qeq_bool_true _ _ E).
  - intros [Hy1 Hy2] Hx.
    rewrite (closest_inside _ _ _ Hy1) by lra.
    rewrite !Qeq_bool_false by lra.
    rewrite (closest_below _ _ _ Hx). now rewrite Qeq_bool_true.
  - intros [Hy1 Hy2] Hx.
    rewrite (closest_inside _ _ _ Hy1) by lra.
    rewrite !Qeq_bool_false by lra.
    destruct (Qlt_le_dec (Platform.x p + Platform.width p) (x b)) as [H|H].
    + pose proof (closest_above _ _ _ Hw (Qlt_le_weak _ _ H)) as E.
      now rewrite Qeq_bool_false by (rewrite E; lra).
    + rewrite (closest_inside _ _ _ Hx H).
      now rewrite Qeq_bool_false by lra.
Qed.

End CollisionCases.

Section CollisionLaws.

Import PlayerBall.

Variables SCREEN_WIDTH SCREEN_HEIGHT GRAVITY : Q.

Lemma hits_inside (b : t) (p : Platform.t) :
  0 <= radius b ->
  Platform.x p < x b <= Platform.x p + Platform.width p ->
  Platform.y p < y b <= Platform.y p + Platform.height p ->
  hits b p = true.
Proof.
  intros Hr [Hx1 Hx2] [Hy1 Hy2]. unfold hits, closest_point_hit.
  rewrite (closest_inside _ _ _ Hx1 Hx2), (closest_inside _ _ _ Hy1 Hy2).
  unfold sqrt_le. apply andb_true_iff. split; apply Qle_bool_iff; [exact Hr|].
  assert (E : (x b - x b) ^ 2 + (y b - y b) ^ 2 == 0) by (simpl; ring).
  rewrite E. now apply Qmult_le_0_compat.
Qed.

(** X2.  A ball whose centre is strictly inside a platform is always moved
    to the right of it: its centre a radius right of the right edge, its
    horizontal velocity reversed and halved, whatever side it came from. *)
Theorem centre_inside_goes_right (b : t) (p : Platform.t) :
  0 <= radius b ->
  Platform.x p < x b < Platform.x p + Platform.width p ->
  Platform.y p < y b < Platform.y p + Platform.height p ->
  let b' := check_collision b p in
  b' = right_collision b p /\
  x b' = Platform.x p + Platform.width p + radius b /\
  vel_x b' = vel_x b * - (1 # 2) /\
  y b' = y b /\ vel_y b' = vel_y b /\ on_ground b' = on_ground b.
Proof.
  intros Hr Hx Hy b'.
  assert (Hhit : hits b p = true) by (apply hits_inside; lra).
  assert (E : b' = right_collision b p).
  { subst b'. rewrite check_collision_unfold, Hhit.
    rewrite (closest_inside _ _ (y b)) by lra.
    rewrite (closest_inside _ _ (x b)) by lra.
    now rewrite !Qeq_bool_false by lra. }
  rewrite E. repeat split.
Qed.

(** Platforms the ball is out of reach of leave it as it is, however many
    there are. *)
Lemma platforms_out_of_reach (b : t) (platforms : list Platform.t) :
  Forall (out_of_reach (x b) (y b) (radius b)) platforms ->
  check_collisions b platforms = b.
Proof.
  unfold check_collisions.
  induction 1 as [|p ps (Hw & Hh & Hp) _ IH]; [reflexivity|].
  cbn [fold_left]. rewrite (check_collision_apart b p Hw Hh Hp). exact IH.
Qed.

Lemma screen_bounds_inside (b : t) :
  radius b <= x b <= SCREEN_WIDTH - radius b ->
  radius b <= y b <= SCREEN_HEIGHT - radius b ->
  screen_bounds SCREEN_WIDTH SCREEN_HEIGHT b = b.
Proof.
  intros Hx Hy. unfold screen_bounds. cbv zeta.
  destruct (Qlt_bool_spec (x b) (radius b)); [lra|].
  destruct (Qlt_bool_spec (SCREEN_WIDTH - radius b) (x b)); [lra|].
  destruct (Qlt_bool_spec (y b) (radius b)); [lra|].
  destruct (Qlt_bool_spec (SCREEN_HEIGHT - radius b) (y b)); [lra|].
  reflexivity.
Qed.

(** The ball after gravity, friction and the move, before any collision. *)
Lemma update_unfold (b : t) (platforms : list Platform.t) (in_water : bool) :
  let vx := if on_ground b then vel_x b * friction b else vel_x b in
  let vy := vel_y b + (if in_water then GRAVITY * (1 # 2) else GRAVITY) in
  update SCREEN_WIDTH SCREEN_HEIGHT GRAVITY b platforms in_water =
  screen_bounds SCREEN_WIDTH SCREEN_HEIGHT
    (check_collisions
       (mk (x b + vx) (y b + vy) vx vy false (customization b)
           (max_vel_x b) (acceleration b) (friction b))
       platforms).
Proof.
  unfold update. cbv zeta. cbn [on_ground set_vel_y].
  destruct (on_ground b); reflexivity.
Qed.

(** X3.  Free flight: when the position the step moves the ball to is
    inside the screen and out of reach of every platform, the step is plain
    kinematics.  The horizontal velocity is multiplied by the friction if
    the ball was on the ground, the vertical velocity grows by the gravity
    (half of it in water), the position moves by the new velocity, and
    [on_ground] is cleared. *)
Theorem free_flight (b : t) (platforms : list Platform.t) (in_water : bool) :
  let vx := if on_ground b then vel_x b * friction b else vel_x b in
  let vy := vel_y b + (if in_water then GRAVITY * (1 # 2) else GRAVITY) in
  Forall (out_of_reach (x b + vx) (y b + vy) (radius b)) platforms ->
  radius b <= x b + vx <= SCREEN_WIDTH - radius b ->
  radius b <= y b + vy <= SCREEN_HEIGHT - radius b ->
  update SCREEN_WIDTH SCREEN_HEIGHT GRAVITY b platforms in_water =
  mk (x b + vx) (y b + vy) vx vy false (customization b)
     (max_vel_x b) (acceleration b) (friction b).
Proof.
  intros vx vy Hps Hx Hy. rewrite update_unfold. fold vx vy.
  rewrite platforms_out_of_reach by exact Hps.
  now apply screen_bounds_inside.
Qed.

(** X4.  Landing: when the position the step moves the ball to is over a
    platform, its centre above the top edge by at most a radius, and every
    other platform is out of reach (those before it in the list of the moved
    ball, those after it of the landed ball), the ball ends the step with
    its lowest point on the top edge, its vertical velocity reflected and
    scaled by the bounce factor, and [on_ground] set. *)
Theorem landing (b : t) (before after : list Platform.t) (p : Platform.t)
    (in_water : bool) :
  let vx := if on_ground b then vel_x b * friction b else vel_x b in
  let vy := vel_y b + (if in_water then GRAVITY * (1 # 2) else GRAVITY) in
  let top := Platform.y p - radius b in
  0 <= Platform.width p -> 0 <= Platform.height p ->
  Platform.x p <= x b + vx <= Platform.x p + Platform.width p ->
  top <= y b + vy <= Platform.y p ->
  Forall (out_of_reach (x b + vx) (y b + vy) (radius b)) before ->
  Forall (out_of_reach (x b + vx) top (radius b)) after ->
  radius b <= x b + vx <= SCREEN_WIDTH - radius b ->
  radius b <= top <= SCREEN_HEIGHT - radius b ->
  update SCREEN_WIDTH SCREEN_HEIGHT GRAVITY b (before ++ p :: after) in_water =
  mk (x b + vx) top vx
     (- vy * Customization.bounce_factor (customization b)) true
     (customization b) (max_vel_x b) (acceleration b) (friction b).
Proof.
  intros vx vy top Hw Hh Hpx Hpy Hbefore Hafter Hx Hy.
  rewrite update_unfold. fold vx vy.
  unfold check_collisions. rewrite fold_left_app. cbn [fold_left].
  fold (check_collisions
          (mk (x b + vx) (y b + vy) vx vy false (customization b)
              (max_vel_x b) (acceleration b) (friction b)) before).
  rewrite platforms_out_of_reach by exact Hbefore.
  rewrite check_collision_top by assumption.
  match goal with
  | |- screen_bounds _ _ (fold_left _ _ ?c) = _ =>
      fold (check_collisions c after);
      rewrite (platforms_out_of_reach c after) by exact Hafter
  end.
  now apply screen_bounds_inside.
Qed.

End CollisionLaws.

(** A ball coming down onto the water platform of level 2. *)
Lemma collision_side_witness :
  (hits ball_over_water level2_water = true /\
   0 < Platform.width level2_water /\ 0 < Platform.height level2_water /\
   PlayerBall.y ball_over_water <= Platform.y level2_water) /\
  PlayerBall.check_collision ball_over_water level2_water
  = top_collision ball_over_water level2_water.
Proof.
  assert (H1 : hits ball_over_water level2_water = true) by reflexivity.
  assert (H2 : 0 < Platform.width level2_water) by reflexivity.
  assert (H3 : 0 < Platform.height level2_water) by reflexivity.
  assert (H4 : PlayerBall.y ball_over_water <= Platform.y level2_water)
    by (vm_compute; discriminate).
  split; [auto|].
  exact (proj1 (collision_side ball_over_water level2_water H1 H2 H3) H4).
Defined.

(** A ball in the middle of the water platform of level 2. *)
Lemma centre_inside_goes_right_witness :
  (0 <= PlayerBall.radius ball_in_water /\
   Platform.x level2_water < PlayerBall.x ball_in_water
     < Platform.x level2_water + Platform.width level2_water /\
   Platform.y level2_water < PlayerBall.y ball_in_water
     < Platform.y level2_water + Platform.height level2_water) /\
  PlayerBall.x (PlayerBall.check_collision ball_in_water level2_water)
  = Platform.x level2_water + Platform.width level2_water
    + PlayerBall.radius ball_in_water.
Proof.
  assert (H1 : 0 <= PlayerBall.radius ball_in_water)
    by (vm_compute; discriminate).
  assert (H2 : Platform.x level2_water < PlayerBall.x ball_in_water
               < Platform.x level2_water + Platform.width level2_water)
    by (split; reflexivity).
  assert (H3 : Platform.y level2_water < PlayerBall.y ball_in_water
               < Platform.y level2_water + Platform.height level2_water)
    by (split; reflexivity).
  split; [auto|].
  exact (proj1 (proj2 (centre_inside_goes_right ball_in_water level2_water
                         H1 H2 H3))).
Defined.

(** One goal per element of a list literal. *)
Ltac each_of_list :=
  repeat first [apply List.Forall_nil | apply List.Forall_cons].

(** Solves [out_of_reach] on concrete numbers. *)
Ltac reach :=
  cbv beta iota zeta delta
    [out_of_reach Platform.x Platform.y Platform.width Platform.height
     Platform.static PlayerBall.x PlayerBall.y PlayerBall.vel_x
     PlayerBall.vel_y PlayerBall.on_ground PlayerBall.radius
     PlayerBall.customization PlayerBall.friction PlayerBall.init
     PlayerBall.load_customization Customization.size Customization.defaults
     start_ball ball_above_platform];
  lra.

(** The first step of the ball of level 1, on a screen of 800 by 600 with
    gravity 1/2. *)
Lemma free_flight_witness :
  let b := start_ball in
  let ps := LevelManager.lv_platforms LevelManager.level1 in
  (Forall (out_of_reach (100 + 0) (50 + (0 + (1 # 2))) 20) ps /\
   20 <= 100 + 0 <= 800 - 20 /\ 20 <= 50 + (0 + (1 # 2)) <= 600 - 20) /\
  PlayerBall.update 800 600 (1 # 2) b ps false =
  PlayerBall.mk (100 + 0) (50 + (0 + (1 # 2))) 0 (0 + (1 # 2)) false
    Customization.defaults 12 (4 # 5) (9 # 10).
Proof.
  intros b ps.
  assert (H1 : Forall (out_of_reach (100 + 0) (50 + (0 + (1 # 2))) 20) ps)
    by (subst ps; cbn [LevelManager.lv_platforms LevelManager.level1];
        each_of_list; reach).
  assert (H2 : 20 <= 100 + 0 <= 800 - 20) by lra.
  assert (H3 : 20 <= 50 + (0 + (1 # 2)) <= 600 - 20) by lra.
  split; [auto|].
  exact (free_flight 800 600 (1 # 2) b ps false H1 H2 H3).
Defined.

(** The ball lands on the fifth platform of level 1. *)
Lemma landing_witness :
  let b := ball_above_platform in
  let before :=
    [ Platform.static 0 500 300 20 LevelManager.green;
      Platform.static 400 500 400 20 LevelManager.green;
      Platform.static 200 400 200 20 LevelManager.green;
      Platform.static 500 300 200 20 LevelManager.green ] in
  let p := Platform.static 100 200 200 20 LevelManager.green in
  before ++ [p] = LevelManager.lv_platforms LevelManager.level1 /\
  PlayerBall.update 800 600 (1 # 2) b (before ++ [p]) false =
  PlayerBall.mk (100 + 0) (200 - 20) 0 (- ((9 # 2) + (1 # 2)) * (7 # 10)) true
    Customization.defaults 12 (4 # 5) (9 # 10).
Proof.
  intros b before p. subst b before p. split; [reflexivity|].
  apply (landing 800 600 (1 # 2) ball_above_platform _ []
           (Platform.static 100 200 200 20 LevelManager.green) false).
  - vm_compute; discriminate.
  - vm_compute; discriminate.
  - split; vm_compute; discriminate.
  - split; vm_compute; discriminate.
  - each_of_list; reach.
  - constructor.
  - split; vm_compute; discriminate.
  - split; vm_compute; discriminate.
Defined.

(** ** The horizontal speed *)

Section Speed.

Import PlayerBall.

Variables SCREEN_WIDTH SCREEN_HEIGHT GRAVITY : Q.

Lemma Qabs_halved (v : Q) : Qabs (v * - (1 # 2)) <= Qabs v.
Proof.
  rewrite Qabs_Qmult.
  assert (E : Qabs (- (1 # 2)) == 1 # 2) by reflexivity.
  rewrite E. pose proof (Qabs_nonneg v). lra.
Qed.

Lemma Qabs_friction (v f : Q) : 0 <= f <= 1 -> Qabs (v * f) <= Qabs v.
Proof.
  intros Hf. rewrite Qabs_Qmult, (Qabs_pos f) by lra.
  pose proof (Qabs_nonneg v) as Hv.
  assert (H : Qabs v * f <= Qabs v * 1).
  { rewrite !(Qmult_comm (Qabs v)). apply Qmult_le_compat_r; lra. }
  lra.
Qed.

Lemma check_collision_vel_x (b : t) (p : Platform.t) :
  Qabs (vel_x (check_collision b p)) <= Qabs (vel_x b).
Proof.
  unfold check_collision. cbv zeta.
  repeat match goal with
         | |- context [if ?c then _ else _] => destruct c
         end;
    cbn [vel_x set_x set_y set_vel_x set_vel_y set_on_ground];
    first [apply Qabs_halved | apply Qle_refl].
Qed.

Lemma check_collisions_vel_x (ps : list Platform.t) :
  forall b : t, Qabs (vel_x (check_collisions b ps)) <= Qabs (vel_x b).
Proof.
  unfold check_collisions.
  induction ps as [|p ps IH]; intros b; cbn [fold_left].
  - apply Qle_refl.
  - eapply Qle_trans; [apply IH | apply check_collision_vel_x].
Qed.

Lemma screen_bounds_vel_x (b : t) :
  Qabs (vel_x (screen_bounds SCREEN_WIDTH SCREEN_HEIGHT b)) <= Qabs (vel_x b).
Proof.
  unfold screen_bounds. cbv zeta.
  repeat match goal with
         | |- context [if ?c then _ else _] => destruct c
         end;
    cbn [vel_x set_x set_y set_vel_x set_vel_y set_on_ground];
    first [apply Qabs_halved | apply Qle_refl].
Qed.

Lemma update_settings (b : t) (ps : list Platform.t) (w : bool) :
  same_settings b (update SCREEN_WIDTH SCREEN_HEIGHT GRAVITY b ps w).
Proof.
  rewrite update_unfold.
  match goal with
  | |- same_settings _ (screen_bounds _ _ (check_collisions ?c _)) =>
      destruct (screen_bounds_settings SCREEN_WIDTH SCREEN_HEIGHT
                  (check_collisions c ps)) as (H1 & H2 & H3 & H4);
      destruct (check_collisions_settings ps c) as (H1' & H2' & H3' & H4')
  end.
  unfold same_settings. rewrite H1, H2, H3, H4, H1', H2', H3', H4'.
  repeat split.
Qed.

Lemma speed_ok_keep (b b' : t) :
  speed_ok b ->
  acceleration b' = acceleration b -> friction b' = friction b ->
  max_vel_x b' = max_vel_x b ->
  Qabs (vel_x b') < max_vel_x b + acceleration b ->
  speed_ok b'.
Proof.
  intros (Ha & Hf & _) Ea Ef Em Hv. unfold speed_ok.
  rewrite Ea, Ef, Em. auto.
Qed.

Lemma update_vel_x (b : t) (ps : list Platform.t) (w : bool) :
  0 <= friction b <= 1 ->
  Qabs (vel_x (update SCREEN_WIDTH SCREEN_HEIGHT GRAVITY b ps w))
  <= Qabs (vel_x b).
Proof.
  intros Hf. rewrite update_unfold.
  eapply Qle_trans; [apply screen_bounds_vel_x|].
  eapply Qle_trans; [apply check_collisions_vel_x|].
  cbn [vel_x]. destruct (on_ground b);
    [apply Qabs_friction; exact Hf | apply Qle_refl].
Qed.

(** X5.  The horizontal speed stays below the cap plus one acceleration.
    For a ball with a non-negative acceleration, a friction between 0 and 1
    and [|vel_x| < max_vel_x + acceleration], the same holds after
    [move_left], [move_right], [jump] and an integration step; the step
    itself never makes the ball faster horizontally. *)
Theorem horizontal_speed_bounded (b : t) :
  speed_ok b ->
  speed_ok (move_left b) /\ speed_ok (move_right b) /\ speed_ok (jump b) /\
  forall (platforms : list Platform.t) (in_water : bool),
    let b' :=
      update SCREEN_WIDTH SCREEN_HEIGHT GRAVITY b platforms in_water in
    Qabs (vel_x b') <= Qabs (vel_x b) /\ speed_ok b'.
Proof.
  intros Hok. pose proof Hok as (Ha & Hf & Hv).
  assert (Hstep : Qabs (vel_x b) < max_vel_x b ->
                  Qabs (vel_x b - acceleration b)
                    < max_vel_x b + acceleration b /\
                  Qabs (vel_x b + acceleration b)
                    < max_vel_x b + acceleration b).
  { intros Hcap. split.
    - pose proof (Qabs_triangle (vel_x b) (- acceleration b)) as Ht.
      rewrite Qabs_opp, (Qabs_pos (acceleration b)) in Ht by exact Ha.
      unfold Qminus. lra.
    - pose proof (Qabs_triangle (vel_x b) (acceleration b)) as Ht.
      rewrite (Qabs_pos (acceleration b)) in Ht by exact Ha. lra. }
  split; [|split; [|split]].
  - apply (speed_ok_keep b); try exact Hok; unfold move_left;
      destruct (Qlt_bool_spec (Qabs (vel_x b)) (max_vel_x b)) as [Hcap|Hcap];
      try reflexivity; cbn [vel_x set_vel_x];
      [apply (Hstep Hcap) | exact Hv].
  - apply (speed_ok_keep b); try exact Hok; unfold move_right;
      destruct (Qlt_bool_spec (Qabs (vel_x b)) (max_vel_x b)) as [Hcap|Hcap];
      cbn [on_ground set_vel_x]; destruct (on_ground b);
      try reflexivity;
      cbn [vel_x set_vel_x set_vel_y set_on_ground];
      first [apply (Hstep Hcap) | exact Hv].
  - apply (speed_ok_keep b); try exact Hok; unfold jump;
      destruct (on_ground b); try reflexivity; exact Hv.
  - intros platforms in_water b'.
    assert (Hle : Qabs (vel_x b') <= Qabs (vel_x b))
      by (apply update_vel_x; exact Hf).
    split; [exact Hle|].
    destruct (update_settings b platforms in_water) as (_ & Em & Ea & Ef).
    apply (speed_ok_keep b); try assumption.
    eapply Qle_lt_trans; [exact Hle | exact Hv].
Qed.

End Speed.

(** The ball a level starts with: speed 0, cap 12, acceleration 4/5. *)
Lemma horizontal_speed_bounded_witness :
  speed_ok start_ball /\
  speed_ok (PlayerBall.move_right start_ball) /\
  speed_ok (PlayerBall.update 800 600 (1 # 2) start_ball [] false).
Proof.
  assert (H : speed_ok start_ball).
  { repeat split; vm_compute; discriminate || reflexivity. }
  split; [exact H|].
  destruct (horizontal_speed_bounded 800 600 (1 # 2) start_ball H)
    as (_ & Hr & _ & Hu).
  split; [exact Hr|]. exact (proj2 (Hu [] false)).
Defined.

(** ** The keys held down during play *)

Section Keys.

Import GameApp.

Lemma move_left_on_ground (p : PlayerBall.t) :
  PlayerBall.on_ground (PlayerBall.move_left p) = PlayerBall.on_ground p /\
  PlayerBall.vel_y (PlayerBall.move_left p) = PlayerBall.vel_y p.
Proof.
  unfold PlayerBall.move_left. destruct (Qlt_bool _ _); split; reflexivity.
Qed.

Lemma jump_alone (p : PlayerBall.t) :
  (PlayerBall.on_ground p = true ->
   PlayerBall.on_ground (PlayerBall.jump p) = false /\
   PlayerBall.vel_y (PlayerBall.jump p) = -15) /\
  (PlayerBall.on_ground p = false ->
   PlayerBall.on_ground (PlayerBall.jump p) = false /\
   PlayerBall.vel_y (PlayerBall.jump p) = PlayerBall.vel_y p).
Proof.
  unfold PlayerBall.jump. split; intros H; rewrite H; auto.
Qed.

Lemma jump_after_move_right (p : PlayerBall.t) :
  (PlayerBall.on_ground p = true ->
   PlayerBall.on_ground (PlayerBall.jump (PlayerBall.move_right p)) = false /\
   PlayerBall.vel_y (PlayerBall.jump (PlayerBall.move_right p)) = -12) /\
  (PlayerBall.on_ground p = false ->
   PlayerBall.on_ground (PlayerBall.jump (PlayerBall.move_right p)) = false /\
   PlayerBall.vel_y (PlayerBall.jump (PlayerBall.move_right p))
   = PlayerBall.vel_y p).
Proof.
  unfold PlayerBall.jump, PlayerBall.move_right.
  split; intros H; destruct (Qlt_bool _ _);
    cbn [PlayerBall.on_ground PlayerBall.set_vel_x]; rewrite H;
    cbn [PlayerBall.on_ground PlayerBall.set_on_ground PlayerBall.set_vel_y
         PlayerBall.set_vel_x PlayerBall.vel_y];
    rewrite ?H; auto.
Qed.

(** X6.  With the up key held down in play (on any event but the reset
    key), a ball on the ground jumps with strength 15 unless the right key
    is held down as well: then [move_right] has already set the vertical
    velocity to -12 and cleared [on_ground], and [jump] does nothing.  A
    ball in the air keeps its vertical velocity. *)
Theorem jump_under_keys (g : t) (p : PlayerBall.t) (e : event)
    (keys : pressed) :
  player g = Some p ->
  e <> KEYDOWN K_r ->
  up keys = true ->
  exists (g' : t) (p' : PlayerBall.t),
    handle_game_play_events g e keys = Some g' /\
    player g' = Some p' /\
    (PlayerBall.on_ground p = true ->
     PlayerBall.on_ground p' = false /\
     PlayerBall.vel_y p' = if right keys then -12 else -15) /\
    (PlayerBall.on_ground p = false ->
     PlayerBall.on_ground p' = false /\
     PlayerBall.vel_y p' = PlayerBall.vel_y p).
Proof.
  intros Hp He Hup. unfold handle_game_play_events. rewrite Hup.
  set (g0 := match e with
             | KEYDOWN K_ESCAPE => set_state g MENU
             | KEYDOWN K_r => init_game g false
             | _ => g
             end).
  assert (Hp0 : player g0 = Some p).
  { subst g0. destruct e as [|k|]; try exact Hp.
    destruct k; try exact Hp. contradiction. }
  clearbody g0.
  destruct (move_left_on_ground p) as [Hlg Hlv].
  destruct (left keys), (right keys);
    unfold on_player;
    repeat (rewrite ?Hp0; cbn [mbind option_bind player set_player]);
    eexists _, _; (split; [reflexivity|]); (split; [reflexivity|]).
  - rewrite <- Hlg, <- Hlv. apply jump_after_move_right.
  - rewrite <- Hlg, <- Hlv. apply jump_alone.
  - apply jump_after_move_right.
  - apply jump_alone.
Qed.

End Keys.

(** Right and up held down on the ground: the jump has strength 12. *)
Lemma jump_under_keys_witness :
  exists (g' : GameApp.t) (p' : PlayerBall.t),
    GameApp.handle_game_play_events game_on_ground GameApp.OTHER
      (GameApp.mk_pressed false true true) = Some g' /\
    GameApp.player g' = Some p' /\
    PlayerBall.vel_y p' = -12.
Proof.
  assert (He : GameApp.OTHER <> GameApp.KEYDOWN GameApp.K_r) by discriminate.
  destruct (jump_under_keys game_on_ground grounded_ball GameApp.OTHER
              (GameApp.mk_pressed false true true) eq_refl He eq_refl)
    as (g' & p' & Hg & Hp & Hground & _).
  exists g', p'. split; [exact Hg|]. split; [exact Hp|].
  exact (proj2 (Hground eq_refl)).
Defined.

(** ** The two circle-rectangle tests *)

Section TwoTests.

Import LevelManager.

Lemma square_le (a r : Q) : 0 <= a <= r -> a * a <= r * r.
Proof.
  intros H.
  assert (H1 : a * a <= r * a) by (apply Qmult_le_compat_r; lra).
  assert (H2 : a * r <= r * r) by (apply Qmult_le_compat_r; lra).
  lra.
Qed.

Lemma square_lt (a r : Q) : 0 <= r < a -> r * r < a * a.
Proof.
  intros H.
  assert (H1 : r * r <= a * r) by (apply Qmult_le_compat_r; lra).
  assert (H2 : r * a < a * a) by (apply Qmult_lt_compat_r; lra).
  lra.
Qed.

Lemma Qabs_square (e : Q) : e ^ 2 == Qabs e * Qabs e.
Proof.
  apply Qabs_case; intros _; simpl; ring.
Qed.

(** Along one axis: the distance from the centre of the circle to the
    closest point of the segment is the excess of its distance to the middle
    of the segment over half the length. *)
Lemma excess (lo len c : Q) :
  0 <= len ->
  let d := Qabs (c - (lo + len / 2)) in
  let a := Qabs (c - closest lo len c) in
  0 <= a /\ (d <= len / 2 -> a == 0) /\ (len / 2 < d -> a == d - len / 2).
Proof.
  intros Hlen d a. subst d a.
  assert (Hhalf : len / 2 == len * (1 # 2)) by (unfold Qdiv; reflexivity).
  rewrite Hhalf.
  split; [apply Qabs_nonneg|].
  destruct (Qlt_le_dec lo c) as [Hlo|Hlo].
  - destruct (Qlt_le_dec (lo + len) c) as [Hhi|Hhi].
    + assert (E : closest lo len c == lo + len)
        by (unfold closest; rewrite Qmin_right by lra; apply Q.max_r; lra).
      rewrite E.
      rewrite (Qabs_pos (c - (lo + len))) by lra.
      rewrite (Qabs_pos (c - (lo + len * (1 # 2)))) by lra.
      split; intros; lra.
    + rewrite (closest_inside _ _ _ Hlo Hhi).
      assert (E : c - c == 0) by ring. rewrite E.
      split; [reflexivity|].
      apply Qabs_case; intros; lra.
  - rewrite (closest_below _ _ _ Hlo).
    rewrite (Qabs_neg (c - lo)) by lra.
    rewrite (Qabs_neg (c - (lo + len * (1 # 2)))) by lra.
    split; intros; lra.
Qed.

(** Over exact arithmetic, on a rectangle with non-negative sides and for
    a non-negative radius, the four-branch test of the goal and of the
    enemies says yes exactly when the closest-point test of
    [check_collision] does; a ball that the four-branch test clears of a
    platform is then left alone by [check_collision]. *)
Lemma two_tests_agree_exactly (cx cy r rx ry width height : Q) :
  0 <= r -> 0 <= width -> 0 <= height ->
  circle_rectangle cx cy r rx ry width height
  = closest_point_hit cx cy r rx ry width height /\
  forall (b : PlayerBall.t) (p : Platform.t),
    PlayerBall.x b = cx -> PlayerBall.y b = cy -> PlayerBall.radius b = r ->
    Platform.rect p = (rx, ry, width, height) ->
    circle_rectangle cx cy r rx ry width height = false ->
    PlayerBall.check_collision b p = b.
Proof.
  intros Hr Hw Hh.
  assert (Hsame : circle_rectangle cx cy r rx ry width height
                  = closest_point_hit cx cy r rx ry width height).
  { unfold circle_rectangle, closest_point_hit, sqrt_le. cbv zeta.
    destruct (excess rx width cx Hw) as (Ha0 & Ha1 & Ha2).
    destruct (excess ry height cy Hh) as (Hb0 & Hb1 & Hb2).
    set (dx := Qabs (cx - (rx + width / 2))) in *.
    set (dy := Qabs (cy - (ry + height / 2))) in *.
    assert (Hdist : (cx - closest rx width cx) ^ 2
                    + (cy - closest ry height cy) ^ 2
                    == Qabs (cx - closest rx width cx)
                       * Qabs (cx - closest rx width cx)
                       + Qabs (cy - closest ry height cy)
                         * Qabs (cy - closest ry height cy))
      by (rewrite !Qabs_square; reflexivity).
    set (a := Qabs (cx - closest rx width cx)) in *.
    set (b := Qabs (cy - closest ry height cy)) in *.
    assert (Hr0 : Qle_bool 0 r = true) by (apply Qle_bool_iff; exact Hr).
    rewrite Hr0. cbn [andb]. rewrite Hdist.
    assert (Haa : 0 <= a * a) by (apply Qmult_le_0_compat; exact Ha0).
    assert (Hbb : 0 <= b * b) by (apply Qmult_le_0_compat; exact Hb0).
    destruct (Qlt_bool_spec (width / 2 + r) dx) as [H1|H1].
    { symmetry. apply not_true_iff_false. rewrite Qle_bool_iff.
      assert (Ea : a == dx - width / 2) by (apply Ha2; lra).
      pose proof (square_lt a r) as Hsq. lra. }
    destruct (Qlt_bool_spec (height / 2 + r) dy) as [H2|H2].
    { symmetry. apply not_true_iff_false. rewrite Qle_bool_iff.
      assert (Eb : b == dy - height / 2) by (apply Hb2; lra).
      pose proof (square_lt b r) as Hsq. lra. }
    assert (Har : a <= r).
    { destruct (Qlt_le_dec (width / 2) dx) as [H|H];
        [rewrite (Ha2 H) | rewrite (Ha1 H)]; lra. }
    assert (Hbr : b <= r).
    { destruct (Qlt_le_dec (height / 2) dy) as [H|H];
        [rewrite (Hb2 H) | rewrite (Hb1 H)]; lra. }
    pose proof (square_le a r (conj Ha0 Har)) as Hsa.
    pose proof (square_le b r (conj Hb0 Hbr)) as Hsb.
    destruct (Qle_bool dx (width / 2)) eqn:H3.
    { cbn [orb]. symmetry. apply Qle_bool_iff.
      apply Qle_bool_iff in H3. rewrite (Ha1 H3). lra. }
    destruct (Qle_bool dy (height / 2)) eqn:H4.
    { cbn [orb]. symmetry. apply Qle_bool_iff.
      apply Qle_bool_iff in H4. rewrite (Hb1 H4). lra. }
    cbn [orb].
    apply not_true_iff_false in H3, H4. rewrite Qle_bool_iff in H3, H4.
    assert (Ea : a == dx - width / 2) by (apply Ha2; lra).
    assert (Eb : b == dy - height / 2) by (apply Hb2; lra).
    assert (E1 : (dx - width / 2) ^ 2 + (dy - height / 2) ^ 2
                 == a * a + b * b) by (rewrite Ea, Eb; simpl; ring).
    assert (E2 : r ^ 2 == r * r) by (simpl; ring).
    now rewrite E1, E2. }
  split; [exact Hsame|].
  intros b p Hx Hy Hrad Hrect Hclear.
  unfold Platform.rect in Hrect. injection Hrect as Hpx Hpy Hpw Hph.
  rewrite check_collision_unfold.
  replace (hits b p) with false; [reflexivity|].
  unfold hits. rewrite Hx, Hy, Hrad, Hpx, Hpy, Hpw, Hph, <- Hsame.
  symmetry. exact Hclear.
Qed.

End TwoTests.

(** X7.  The two circle-rectangle tests differ by rounding.  Over exact
    arithmetic the four-branch test of the goal and of the enemies and the
    closest-point test of [check_collision] decide the same thing.  As the
    program computes them, in binary64, they do not: at the lower right
    corner of the rectangle [(150, 150, 50, 50)] there is a centre for
    which the corner distance of the four-branch test comes out one unit
    in the last place above [20 ** 2], so that the test says no, while the
    square root of the same sum rounds to [20.0] and the closest-point
    test says yes. *)
Theorem two_tests_differ_by_rounding :
  (forall cx cy r rx ry width height : Q,
     0 <= r -> 0 <= width -> 0 <= height ->
     LevelManager.circle_rectangle cx cy r rx ry width height
     = closest_point_hit cx cy r rx ry width height) /\
  exists cx cy : Q,
    representable cx /\ representable cy /\
    circle_rectangle64 cx cy 20 150 150 50 50 = false /\
    closest_point_hit64 cx cy 20 150 150 50 50 = true.
Proof.
  split.
  - intros cx cy r rx ry width height Hr Hw Hh.
    exact (proj1 (two_tests_agree_exactly cx cy r rx ry width height
                    Hr Hw Hh)).
  - exists corner_x, corner_y.
    repeat split; vm_compute; reflexivity.
Qed.

(** ** What the dynamics leave alone *)

Section Frame.

Import LevelManager.

Lemma moved_only_refl (p : Platform.t) : moved_only p p.
Proof. repeat split. Qed.

Lemma moved_only_trans (p q r : Platform.t) :
  moved_only p q -> moved_only q r -> moved_only p r.
Proof.
  intros (H1 & H2 & H3 & H4 & H5 & H6 & H7 & H8)
         (G1 & G2 & G3 & G4 & G5 & G6 & G7 & G8).
  repeat split; try congruence.
  intros Hs. rewrite (G8 ltac:(rewrite (H8 Hs); exact Hs)). now apply H8.
Qed.

Lemma enemy_moved_only_refl (en : Enemy.t) : enemy_moved_only en en.
Proof. repeat split. Qed.

Lemma enemy_moved_only_trans (a b c : Enemy.t) :
  enemy_moved_only a b -> enemy_moved_only b c -> enemy_moved_only a c.
Proof.
  intros (H1 & H2 & H3 & H4 & H5 & H6) (G1 & G2 & G3 & G4 & G5 & G6).
  repeat split; try congruence.
  intros Hs. rewrite (G6 ltac:(congruence)). now apply H6.
Qed.

Lemma level_moved_only_refl (d : level_data) : level_moved_only d d.
Proof.
  repeat split.
  - apply Forall_Forall2_diag, Forall_forall. intros; apply moved_only_refl.
  - apply Forall_Forall2_diag, Forall_forall.
    intros; apply enemy_moved_only_refl.
Qed.

Lemma level_moved_only_trans (d e f : level_data) :
  level_moved_only d e -> level_moved_only e f -> level_moved_only d f.
Proof.
  intros (H1 & H2 & H3 & H4 & H5) (G1 & G2 & G3 & G4 & G5).
  repeat split; try congruence.
  - eapply Forall2_trans; [|exact H1|exact G1].
    apply moved_only_trans.
  - eapply Forall2_trans; [|exact H2|exact G2].
    apply enemy_moved_only_trans.
Qed.

Lemma update_platform_moved (p p' : Platform.t) :
  update_platform p = Some p' -> moved_only p p'.
Proof.
  unfold update_platform.
  destruct (Platform.has_type "moving" p) eqn:Ht;
    [|intros [= <-]; apply moved_only_refl].
  cbn [Platform.x Platform.set_x Platform.speed Platform.end_x
       Platform.start_x].
  destruct (Qlt_bool _ _).
  { destruct (Platform.end_x p), (Platform.speed p);
      cbn [mbind option_bind]; try discriminate.
    intros [= <-]. repeat split. congruence. }
  destruct (Qlt_bool _ _).
  { destruct (Platform.start_x p), (Platform.speed p);
      cbn [mbind option_bind]; try discriminate.
    intros [= <-]. repeat split. congruence. }
  intros [= <-]. repeat split. congruence.
Qed.

Lemma update_platforms_moved (ps : list Platform.t) :
  forall ps' : list Platform.t,
    mapM update_platform ps = Some ps' -> Forall2 moved_only ps ps'.
Proof.
  induction ps as [|p ps IH]; intros ps' H.
  - injection H as <-. constructor.
  - cbn in H. destruct (update_platform p) as [p'|] eqn:Hp; [|discriminate].
    cbn in H. destruct (mapM update_platform ps) as [qs|]; [|discriminate].
    injection H as <-. constructor; [now apply update_platform_moved|].
    now apply IH.
Qed.

Lemma update_enemy_moved (en : Enemy.t) :
  enemy_moved_only en (update_enemy en).
Proof.
  unfold update_enemy.
  destruct (Enemy.patrol en) as [[low high]|] eqn:Hp;
    [|repeat split; exact Hp].
  repeat destruct (Qlt_bool _ _); repeat split; congruence.
Qed.

Lemma update_enemies_moved (es : list Enemy.t) :
  Forall2 enemy_moved_only es (map update_enemy es).
Proof.
  induction es; constructor; [apply update_enemy_moved | assumption].
Qed.

(** The pieces of [update]: the platform loop, then the enemy loop. *)
Lemma update_inv (lm lm' : t) (player : PlayerBall.t) (r : option result) :
  update lm player = Some (lm', r) ->
  exists ps : list Platform.t,
    mapM update_platform (platforms lm) = Some ps /\
    lm' = store_enemies (store_platforms lm ps)
            (map update_enemy (enemies (store_platforms lm ps))) /\
    r = if check_goal_collision lm' player then Some level_complete
        else if check_enemy_collision lm' player then Some player_dead
        else None.
Proof.
  unfold update. intros H.
  destruct (mapM update_platform (platforms lm)) as [ps|]; [|discriminate].
  cbn [mbind option_bind] in H. exists ps. split; [reflexivity|].
  destruct (check_goal_collision _ _) eqn:Hg.
  { injection H as <- <-. rewrite Hg. auto. }
  destruct (check_enemy_collision _ _) eqn:He.
  { injection H as <- <-. rewrite Hg, He. auto. }
  injection H as <- <-. rewrite Hg, He. auto.
Qed.

Lemma store_platforms_levels (lm : t) (ps : list Platform.t) (k : Z) :
  Forall2 moved_only (platforms lm) ps ->
  option_Forall2 level_moved_only
    (levels lm !! k) (levels (store_platforms lm ps) !! k).
Proof.
  intros Hps. unfold store_platforms, platforms in *.
  destruct (platforms_ref lm) as [j|];
    [|destruct (levels lm !! k); constructor; apply level_moved_only_refl].
  cbn [levels]. destruct (decide (j = k)) as [->|Hne].
  - rewrite lookup_alter_eq. destruct (levels lm !! k) as [d|];
      constructor. cbn in Hps. repeat split; try exact Hps.
    apply (proj1 (proj2 (level_moved_only_refl d))).
  - rewrite lookup_alter_ne by exact Hne.
    destruct (levels lm !! k); constructor; apply level_moved_only_refl.
Qed.

Lemma store_enemies_levels (lm : t) (es : list Enemy.t) (k : Z) :
  Forall2 enemy_moved_only (enemies lm) es ->
  option_Forall2 level_moved_only
    (levels lm !! k) (levels (store_enemies lm es) !! k).
Proof.
  intros Hes. unfold store_enemies, enemies in *.
  destruct (enemies_ref lm) as [j|];
    [|destruct (levels lm !! k); constructor; apply level_moved_only_refl].
  cbn [levels]. destruct (decide (j = k)) as [->|Hne].
  - rewrite lookup_alter_eq. destruct (levels lm !! k) as [d|];
      constructor. cbn in Hes. repeat split; try exact Hes.
    apply (proj1 (level_moved_only_refl d)).
  - rewrite lookup_alter_ne by exact Hne.
    destruct (levels lm !! k); constructor; apply level_moved_only_refl.
Qed.

Lemma option_moved_trans (a b c : option level_data) :
  option_Forall2 level_moved_only a b ->
  option_Forall2 level_moved_only b c ->
  option_Forall2 level_moved_only a c.
Proof.
  intros H1 H2. destruct H1; inversion H2; subst; constructor.
  eapply level_moved_only_trans; eassumption.
Qed.

Lemma update_levels (lm lm' : t) (player : PlayerBall.t)
    (r : option result) (k : Z) :
  update lm player = Some (lm', r) ->
  option_Forall2 level_moved_only (levels lm !! k) (levels lm' !! k).
Proof.
  intros H. destruct (update_inv _ _ _ _ H) as (ps & Hps & -> & _).
  apply (option_moved_trans _ (levels (store_platforms lm ps) !! k)).
  - apply store_platforms_levels. now apply update_platforms_moved.
  - apply store_enemies_levels. apply update_enemies_moved.
Qed.

End Frame.

Section LevelFrame.

Import LevelManager.

Lemma update_refs (lm lm' : t) (player : PlayerBall.t) (r : option result) :
  update lm player = Some (lm', r) ->
  current_level lm' = current_level lm /\
  platforms_ref lm' = platforms_ref lm /\
  enemies_ref lm' = enemies_ref lm /\
  goal_ref lm' = goal_ref lm.
Proof.
  intros H. destruct (update_inv _ _ _ _ H) as (ps & _ & -> & _).
  unfold store_enemies, store_platforms.
  destruct (platforms_ref lm) eqn:E1, (enemies_ref lm) eqn:E2;
    cbn [enemies_ref]; rewrite ?E2; cbn; rewrite ?E1, ?E2; auto.
Qed.

(** The attributes of two states with the same references whose tables
    differ by moves only. *)
Lemma attributes_moved (lm lm' : t) :
  platforms_ref lm' = platforms_ref lm ->
  enemies_ref lm' = enemies_ref lm ->
  goal_ref lm' = goal_ref lm ->
  (forall k, option_Forall2 level_moved_only
               (levels lm !! k) (levels lm' !! k)) ->
  goal lm' = goal lm /\
  Forall2 moved_only (platforms lm) (platforms lm') /\
  Forall2 enemy_moved_only (enemies lm) (enemies lm').
Proof.
  intros Ep Ee Eg Hk. unfold goal, platforms, enemies.
  rewrite Ep, Ee, Eg. repeat split.
  - destruct (goal_ref lm) as [k|]; [|reflexivity].
    destruct (Hk k) as [d d' (_ & _ & Hg & _)|]; [|reflexivity].
    cbn. now rewrite Hg.
  - destruct (platforms_ref lm) as [k|]; [|constructor].
    destruct (Hk k) as [d d' (Hp & _)|]; [exact Hp | constructor].
  - destruct (enemies_ref lm) as [k|]; [|constructor].
    destruct (Hk k) as [d d' (_ & He & _)|]; [exact He | constructor].
Qed.

Lemma update_other_levels (lm lm' : t) (player : PlayerBall.t)
    (r : option result) (k : Z) :
  update lm player = Some (lm', r) ->
  platforms_ref lm <> Some k -> enemies_ref lm <> Some k ->
  levels lm' !! k = levels lm !! k.
Proof.
  intros H Hp He. destruct (update_inv _ _ _ _ H) as (ps & _ & -> & _).
  unfold store_enemies, store_platforms.
  destruct (platforms_ref lm) as [j|] eqn:E1;
    destruct (enemies_ref lm) as [i|] eqn:E2;
    cbn [enemies_ref levels]; rewrite ?E2; cbn [levels];
    rewrite ?lookup_alter_ne by congruence; reflexivity.
Qed.

(** X8.  A frame of [LevelManager.update] changes positions and speeds and
    nothing else.  The current level and what the attributes refer to stay;
    the goal stays; every platform keeps its [y], size, colour, kind and
    range, and is untouched unless it is a moving platform; every enemy
    keeps its [y], size, colour and patrol range, and is untouched unless it
    patrols; the start positions stay; and the levels that are not loaded
    are not touched at all. *)
Theorem update_moves_only (lm lm' : t) (player : PlayerBall.t)
    (r : option result) :
  update lm player = Some (lm', r) ->
  current_level lm' = current_level lm /\
  platforms_ref lm' = platforms_ref lm /\
  enemies_ref lm' = enemies_ref lm /\
  goal_ref lm' = goal_ref lm /\
  goal lm' = goal lm /\
  Forall2 moved_only (platforms lm) (platforms lm') /\
  Forall2 enemy_moved_only (enemies lm) (enemies lm') /\
  (forall k : Z,
     option_Forall2 level_moved_only (levels lm !! k) (levels lm' !! k)) /\
  (forall k : Z,
     platforms_ref lm <> Some k -> enemies_ref lm <> Some k ->
     levels lm' !! k = levels lm !! k).
Proof.
  intros H.
  destruct (update_refs _ _ _ _ H) as (Ec & Ep & Ee & Eg).
  assert (Hk : forall k, option_Forall2 level_moved_only
                           (levels lm !! k) (levels lm' !! k))
    by (intros k; exact (update_levels _ _ _ _ k H)).
  destruct (attributes_moved lm lm' Ep Ee Eg Hk) as (Hg & Hps & Hes).
  repeat split; try assumption.
  intros k. now apply (update_other_levels lm lm' player r).
Qed.

Lemma circle_rectangle_inside (cx cy r rx ry width height : Q) :
  0 <= r -> rx <= cx <= rx + width -> ry <= cy <= ry + height ->
  circle_rectangle cx cy r rx ry width height = true.
Proof.
  intros Hr Hx Hy. unfold circle_rectangle. cbv zeta.
  assert (Hw : width / 2 == width * (1 # 2)) by reflexivity.
  assert (Hh : height / 2 == height * (1 # 2)) by reflexivity.
  assert (Hdx : Qabs (cx - (rx + width / 2)) <= width / 2)
    by (rewrite Hw; apply Qabs_case; intros; lra).
  assert (Hdy : Qabs (cy - (ry + height / 2)) <= height / 2)
    by (rewrite Hh; apply Qabs_case; intros; lra).
  destruct (Qlt_bool_spec (width / 2 + r)
              (Qabs (cx - (rx + width / 2)))); [lra|].
  destruct (Qlt_bool_spec (height / 2 + r)
              (Qabs (cy - (ry + height / 2)))); [lra|].
  apply Qle_bool_iff in Hdx. now rewrite Hdx.
Qed.

(** X9.  The answer of [LevelManager.update].  It is ['level_complete']
    exactly when the ball touches the goal, whatever the enemies do; it is
    ['player_dead'] exactly when the ball does not touch the goal and
    touches an enemy where the enemy is after its move.  A ball of
    non-negative radius whose centre is within the goal rectangle completes
    the level. *)
Theorem update_answer (lm lm' : t) (player : PlayerBall.t)
    (r : option result) :
  update lm player = Some (lm', r) ->
  (r = Some level_complete <-> check_goal_collision lm player = true) /\
  (r = Some player_dead <->
   check_goal_collision lm player = false /\
   check_enemy_collision lm' player = true) /\
  (forall g : Goal.t,
     goal lm = Some g ->
     0 <= PlayerBall.radius player ->
     Goal.x g <= PlayerBall.x player <= Goal.x g + Goal.width g ->
     Goal.y g <= PlayerBall.y player <= Goal.y g + Goal.height g ->
     r = Some level_complete).
Proof.
  intros H.
  destruct (update_refs _ _ _ _ H) as (_ & Ep & Ee & Eg).
  assert (Hk : forall k, option_Forall2 level_moved_only
                           (levels lm !! k) (levels lm' !! k))
    by (intros k; exact (update_levels _ _ _ _ k H)).
  destruct (attributes_moved lm lm' Ep Ee Eg Hk) as (Hg & _ & _).
  assert (Hgoal : check_goal_collision lm' player
                  = check_goal_collision lm player)
    by (unfold check_goal_collision; now rewrite Hg).
  destruct (update_inv _ _ _ _ H) as (ps & _ & _ & Hr).
  rewrite Hgoal in Hr.
  assert (H1 : r = Some level_complete
               <-> check_goal_collision lm player = true).
  { rewrite Hr. destruct (check_goal_collision lm player);
      [tauto|]. destruct (check_enemy_collision lm' player);
      split; discriminate. }
  split; [exact H1|]. split.
  - rewrite Hr. destruct (check_goal_collision lm player);
      [split; [discriminate | intros [? _]; discriminate]|].
    destruct (check_enemy_collision lm' player);
      split; auto; try discriminate. intros [_ ?]; discriminate.
  - intros g Hgl Hrad Hx Hy. apply H1.
    unfold check_goal_collision. rewrite Hgl.
    now apply circle_rectangle_inside.
Qed.

(** X10.  The platform loop raises [KeyError] on a platform exactly when
    it is a moving platform with no ['speed'] key whose advance by the
    default speed 1 passes its ['end_x'] or falls short of its ['start_x'];
    a platform that is not moving, or that has a speed, never raises. *)
Theorem update_platform_raises (p : Platform.t) :
  update_platform p = None <->
  Platform.has_type "moving" p = true /\
  Platform.speed p = None /\
  ((exists e : Q, Platform.end_x p = Some e /\ e < Platform.x p + 1) \/
   (exists s : Q, Platform.start_x p = Some s /\ Platform.x p + 1 < s)).
Proof.
  unfold update_platform.
  destruct (Platform.has_type "moving" p) eqn:Ht;
    [|split; [discriminate | intros (? & _); discriminate]].
  cbn [Platform.x Platform.set_x Platform.speed Platform.end_x
       Platform.start_x].
  destruct (Platform.speed p) as [v|] eqn:Hv;
    destruct (Platform.end_x p) as [e|] eqn:He;
    destruct (Platform.start_x p) as [s|] eqn:Hs;
    cbn [default from_option id];
    repeat match goal with
           | |- context [Qlt_bool ?a ?b] => destruct (Qlt_bool_spec a b)
           end;
    cbn [mbind option_bind];
    (split;
     [ try discriminate; intros _;
       first [ lra
             | split; [reflexivity|]; split; [reflexivity|];
               first [left; eexists; split; [reflexivity|]; lra
                     |right; eexists; split; [reflexivity|]; lra] ]
     | try reflexivity;
       intros (_ & Hsp & [(e' & Ee & Hlt)|(s' & Es & Hlt)]);
       try discriminate;
       first [injection Ee as <- | injection Es as <-]; lra ]).
Qed.

End LevelFrame.

Section Reload.

Import LevelManager.

Lemma reachable_like_blueprint (lm : t) : reachable lm -> like_blueprint lm.
Proof.
  induction 1 as [|lm j _ IH|lm lm' player r _ IH Hup]; intros k.
  - cbn [init levels]. destruct (load_levels !! k); constructor.
    apply level_moved_only_refl.
  - unfold load_level. destruct (levels lm !! j); apply IH.
  - eapply option_moved_trans; [apply IH|].
    exact (update_levels _ _ _ _ k Hup).
Qed.


(** X12.  What loading a level restores.  In every state of the level
    manager, [load_level] of a predefined level returns the start position
    of the blueprint and makes it the current level; the goal is the one of
    the blueprint, and the platforms and the enemies are those of the
    blueprint up to the [x] and the speed of the moving platforms and of the
    patrolling enemies, which keep the values the earlier frames left. *)
Theorem reload_restores_all_but_moves (lm : t) (level_num : Z)
    (blueprint : level_data) :
  reachable lm ->
  load_levels !! level_num = Some blueprint ->
  let lm' := (load_level lm level_num).1 in
  (load_level lm level_num).2 = Some (start_pos blueprint) /\
  current_level lm' = level_num /\
  goal lm' = Some (lv_goal blueprint) /\
  Forall2 moved_only (lv_platforms blueprint) (platforms lm') /\
  Forall2 enemy_moved_only (lv_enemies blueprint) (enemies lm').
Proof.
  intros Hr Hb lm'.
  pose proof (reachable_like_blueprint lm Hr level_num) as Hlike.
  rewrite Hb in Hlike. inversion Hlike as [d0 d Hmoved E0 Ed|]; subst d0.
  symmetry in Ed.
  destruct (load_level_known lm level_num d Ed)
    as (Hpos & Hcur & _ & Hps & Hes & Hg).
  destruct Hmoved as (Mp & Me & Mg & Ms & _).
  fold lm' in Hcur, Hps, Hes, Hg.
  rewrite Hpos, Hcur, Hps, Hes, Hg, Ms, Mg. auto.
Qed.

End Reload.


(** Level 3 loaded into the initial level manager. *)
Lemma reload_restores_all_but_moves_witness :
  (reachable LevelManager.init /\
   LevelManager.load_levels !! 3%Z = Some LevelManager.level3) /\
  (LevelManager.load_level LevelManager.init 3).2 = Some (100, 400).
Proof.
  assert (Hb : LevelManager.load_levels !! 3%Z = Some LevelManager.level3)
    by reflexivity.
  split; [split; [exact reach_init | exact Hb]|].
  exact (proj1 (reload_restores_all_but_moves LevelManager.init 3
                  LevelManager.level3 reach_init Hb)).
Defined.

(** One frame of level 3: the goal stays. *)
Lemma update_moves_only_witness :
  exists (lm' : LevelManager.t) (r : option LevelManager.result),
    LevelManager.update level3_loaded (PlayerBall.init 100 400 None)
    = Some (lm', r) /\
    LevelManager.goal lm' = LevelManager.goal level3_loaded.
Proof.
  destruct (LevelManager.update level3_loaded (PlayerBall.init 100 400 None))
    as [[lm' r]|] eqn:H; [|vm_compute in H; discriminate].
  exists lm', r. split; [reflexivity|].
  fold (LevelManager.update level3_loaded (PlayerBall.init 100 400 None)) in H.
  exact (proj1 (proj2 (proj2 (proj2 (proj2
           (update_moves_only level3_loaded lm' _ r H)))))).
Defined.

(** Level 1 with the ball at the corner of the goal: the level is
    complete. *)
Lemma update_answer_witness :
  exists (lm' : LevelManager.t) (r : option LevelManager.result),
    LevelManager.update level1_loaded (PlayerBall.init 150 150 None)
    = Some (lm', r) /\
    r = Some LevelManager.level_complete.
Proof.
  destruct (LevelManager.update level1_loaded (PlayerBall.init 150 150 None))
    as [[lm' r]|] eqn:H; [|vm_compute in H; discriminate].
  exists lm', r. split; [reflexivity|].
  fold (LevelManager.update level1_loaded (PlayerBall.init 150 150 None)) in H.
  apply (proj2 (proj2 (update_answer level1_loaded lm' _ r H))
           (Goal.mk 150 150 50 50 LevelManager.gold)).
  - reflexivity.
  - vm_compute; discriminate.
  - split; vm_compute; discriminate.
  - split; vm_compute; discriminate.
Defined.

(** ** The customization mutators *)

Section Mutators.

Import Settings.

Lemma inject_Z_le (a b : Z) : (a <= b)%Z -> inject_Z a <= inject_Z b.
Proof. now rewrite <- Zle_Qle. Qed.

Lemma inject_Z_lt_inv (a b : Z) : inject_Z a < inject_Z b -> (a < b)%Z.
Proof. now rewrite <- Zlt_Qlt. Qed.

(** [int] of a number that is an integer. *)
Lemma py_int_integer (v : Q) (m : Z) : v == inject_Z m -> py_int v = m.
Proof.
  unfold py_int, Qeq, inject_Z. cbn [Qnum Qden]. intros H.
  rewrite Z.mul_1_r in H. rewrite H. apply Z.quot_mul. discriminate.
Qed.

(** [int] rounds a non-negative number down, and never up above a bound
    that is an integer. *)
Lemma py_int_floor (v : Q) :
  0 <= v -> inject_Z (py_int v) <= v < inject_Z (py_int v) + 1.
Proof.
  unfold py_int. destruct v as [n d]. unfold Qle, Qlt, inject_Z.
  cbn [Qnum Qden Qplus Z.mul]. intros Hn.
  rewrite ?Z.mul_1_r in *.
  assert (Hn' : (0 <= n)%Z) by lia.
  pose proof (Z.mul_quot_le n (Z.pos d) Hn' ltac:(lia)).
  pose proof (Z.mul_succ_quot_gt n (Z.pos d) Hn' ltac:(lia)).
  split; cbn; nia.
Qed.

Lemma py_int_below (v : Q) (m : Z) :
  (0 <= m)%Z -> v < inject_Z m + 1 -> (py_int v <= m)%Z.
Proof.
  intros Hm Hv. destruct (Qlt_le_dec v 0) as [Hneg|Hpos].
  - unfold py_int. destruct v as [n d]. unfold Qlt in Hneg.
    cbn in Hneg. cbn [Qnum Qden].
    assert (Hq : (n ÷ Z.pos d <= 0)%Z).
    { apply Z.quot_le_upper_bound; lia. }
    lia.
  - pose proof (py_int_floor v Hpos) as [Hlo _].
    assert (H : inject_Z (py_int v) < inject_Z (m + 1)).
    { rewrite inject_Z_plus. eapply Qle_lt_trans; [exact Hlo|]. exact Hv. }
    apply inject_Z_lt_inv in H. lia.
Qed.

Lemma py_int_above (v : Q) (m : Z) :
  (0 <= m)%Z -> inject_Z m <= v -> (m <= py_int v)%Z.
Proof.
  intros Hm Hv.
  assert (Hpos : 0 <= v).
  { eapply Qle_trans; [|exact Hv]. exact (inject_Z_le 0 m Hm). }
  pose proof (py_int_floor v Hpos) as [_ Hhi].
  assert (H : inject_Z m < inject_Z (py_int v + 1)).
  { rewrite inject_Z_plus. eapply Qle_lt_trans; [exact Hv|]. exact Hhi. }
  apply inject_Z_lt_inv in H. lia.
Qed.

(** X13.  The clamping law of [set_size].  The radius it sets is
    [max(10, min(50, int(size)))]: an integer between 10 and 50, equal to
    [size] when that is such an integer, 10 for every size below 11 and 50
    for every size of 50 or more, and [size] rounded down in between.  The
    other entries are kept and the file is written with what the ball now
    has. *)
Theorem set_size_clamps (w : world) (size : Q) :
  let w' := set_size w size in
  let c := PlayerBall.customization w.1 in
  let c' := PlayerBall.customization w'.1 in
  exists n : Z,
    Customization.size c' = inject_Z n /\ (10 <= n <= 50)%Z /\
    (forall m : Z, (10 <= m <= 50)%Z -> size == inject_Z m -> n = m) /\
    (size < 11 -> n = 10%Z) /\
    (50 <= size -> n = 50%Z) /\
    (10 <= size < 50 -> inject_Z n <= size < inject_Z n + 1) /\
    Customization.mk (Customization.color c') (Customization.size c)
      (Customization.texture c') (Customization.bounce_factor c')
      (Customization.opacity c') (Customization.glow c')
      (Customization.glow_color c') (Customization.glow_size c')
      (Customization.pattern_color c') = c /\
    w'.2 = Some (save_customization w'.1).
Proof.
  intros w' c c'. exists (Z.max 10 (Z.min 50 (py_int size))).
  split; [reflexivity|]. split; [lia|].
  split; [|split; [|split; [|split]]].
  - intros m Hm E. rewrite (py_int_integer size m E). lia.
  - intros H. pose proof (py_int_below size 10 ltac:(lia) H). lia.
  - intros H. pose proof (py_int_above size 50 ltac:(lia) H). lia.
  - intros [H1 H2].
    pose proof (py_int_above size 10 ltac:(lia) H1).
    assert (H3 : size < inject_Z 49 + 1) by exact H2.
    pose proof (py_int_below size 49 ltac:(lia) H3).
    replace (Z.max 10 (Z.min 50 (py_int size))) with (py_int size) by lia.
    apply py_int_floor. lra.
  - split; [|reflexivity]. subst c c' w'. destruct w as [b f].
    cbn. destruct b as [? ? ? ? ? [] ? ? ?]. reflexivity.
Qed.

Lemma clamp_between (lo hi v : Q) :
  lo <= hi -> lo <= Qmax lo (Qmin hi v) <= hi.
Proof.
  intros H. split; [apply Q.le_max_l|].
  apply Q.max_lub; [exact H | apply Q.le_min_l].
Qed.

Lemma known_texture_cases (t : string) :
  known_texture t = true ->
  t = "solid"%string \/ t = "striped"%string \/ t = "gradient"%string \/
  t = "polka"%string.
Proof.
  unfold known_texture, textures. cbn [existsb].
  rewrite !orb_true_iff, !String.eqb_eq. intuition discriminate.
Qed.

(** X14.  The mutators keep the customization within its ranges: if the
    size, the bounce factor and the opacity are in range, they are after
    [set_color], [set_pattern_color], [set_size], [set_bounce],
    [set_opacity], [set_texture], [toggle_glow], [set_glow_size] and
    [next_texture], whatever the argument.  And whatever the customization
    was, it is in range once [set_size], [set_bounce] and [set_opacity] have
    each been called. *)
Theorem mutators_keep_ranges (w : world) :
  let ok (w : world) := Customization.in_ranges (PlayerBall.customization w.1) in
  (ok w ->
   (forall color, ok (set_color w color)) /\
   (forall color, ok (set_pattern_color w color)) /\
   (forall size, ok (set_size w size)) /\
   (forall factor, ok (set_bounce w factor)) /\
   (forall value, ok (set_opacity w value)) /\
   (forall texture, ok (set_texture w texture)) /\
   ok (toggle_glow w) /\
   (forall size, ok (set_glow_size w size)) /\
   (forall w', next_texture w = Some w' -> ok w')) /\
  (forall size factor value,
     ok (set_opacity (set_bounce (set_size w size) factor) value)).
Proof.
  intros ok. subst ok. cbv beta.
  assert (Hsize : forall v, 10 <= inject_Z (Z.max 10 (Z.min 50 (py_int v)))
                            <= 50).
  { intros v. split.
    - apply (inject_Z_le 10). lia.
    - apply (inject_Z_le _ 50). lia. }
  assert (Hop : forall v, 0 <= inject_Z (Z.max 0 (Z.min 255 (py_int v)))
                          <= 255).
  { intros v. split.
    - apply (inject_Z_le 0). lia.
    - apply (inject_Z_le _ 255). lia. }
  assert (Hbf : forall v, (1 # 10) <= Qmax (1 # 10) (Qmin 1 v) <= 1)
    by (intros v; apply clamp_between; lra).
  split.
  - intros (Hs & Hb & Ho).
    assert (Htex : forall t, Customization.in_ranges
                               (PlayerBall.customization (set_texture w t).1)).
    { intros t. unfold set_texture. destruct (known_texture t);
        repeat split; first [apply Hs | apply Hb | apply Ho]. }
    repeat split;
      try first [apply Hs | apply Hb | apply Ho | apply Hsize | apply Hop
                | apply Hbf | apply Htex].
    all: unfold next_texture in *;
      destruct (index _ textures) as [i|]; try discriminate;
      cbn [mbind option_bind] in *;
      destruct (textures !! _) as [t|]; try discriminate;
      cbn [mbind option_bind] in *;
      match goal with H : Some _ = Some _ |- _ => injection H as <- end;
      apply Htex.
  - intros size factor value.
    repeat split; first [apply Hsize | apply Hop | apply Hbf].
Qed.

(** X15.  What a mutator saves is what the next ball gets.  After
    [set_color], [set_size], [set_bounce], [set_opacity], [toggle_glow],
    [set_glow_size] and [set_texture] with a known name, a ball built anew
    ([PlayerBall()], which reads the file) has the color, size, texture,
    bounce factor, opacity, glow and glow size of the mutated ball. *)
Theorem saved_settings_come_back (w : world) (x0 y0 : Q) :
  let back (w' : world) :=
    same_look (PlayerBall.customization w'.1)
              (PlayerBall.customization (PlayerBall.init x0 y0 w'.2)) in
  (forall color, back (set_color w color)) /\
  (forall color, back (set_pattern_color w color)) /\
  (forall size, back (set_size w size)) /\
  (forall factor, back (set_bounce w factor)) /\
  (forall value, back (set_opacity w value)) /\
  (forall texture, known_texture texture = true ->
                   back (set_texture w texture)) /\
  back (toggle_glow w) /\
  (forall size, back (set_glow_size w size)) /\
  (forall w', next_texture w = Some w' -> back w').
Proof.
  intros back. subst back. cbv beta.
  assert (Htex : forall t, known_texture t = true ->
            same_look (PlayerBall.customization (set_texture w t).1)
              (PlayerBall.customization
                 (PlayerBall.init x0 y0 (set_texture w t).2))).
  { intros t Ht. unfold set_texture. rewrite Ht. repeat split. }
  repeat split; try (apply Htex; assumption).
  all: unfold next_texture in *;
    destruct (index _ textures) as [i|]; try discriminate;
    cbn [mbind option_bind] in *;
    destruct (textures !! _) as [t|] eqn:Et; try discriminate;
    cbn [mbind option_bind] in *;
    match goal with H : Some _ = Some _ |- _ => injection H as <- end;
    apply Htex;
    apply list_elem_of_lookup_2 in Et;
    unfold known_texture; apply existsb_exists; exists t;
    (split; [now apply list_elem_of_In | apply String.eqb_refl]).
Qed.

End Mutators.

Section Textures.

Import Settings.

(** One step of the cycle, for a ball whose texture is [t]. *)
Lemma next_texture_step (w : world) :
  (texture_of w = "solid"%string ->
   next_texture w = Some (set_texture w "striped")) /\
  (texture_of w = "striped"%string ->
   next_texture w = Some (set_texture w "gradient")) /\
  (texture_of w = "gradient"%string ->
   next_texture w = Some (set_texture w "polka")) /\
  (texture_of w = "polka"%string ->
   next_texture w = Some (set_texture w "solid")).
Proof.
  unfold next_texture, texture_of. repeat split; intros ->; reflexivity.
Qed.

Lemma set_texture_texture (w : world) (t : string) :
  known_texture t = true -> texture_of (set_texture w t) = t.
Proof. intros H. unfold texture_of, set_texture. now rewrite H. Qed.

Lemma set_texture_twice (w : world) (t t' : string) :
  known_texture t = true -> known_texture t' = true ->
  set_texture (set_texture w t) t' = set_texture w t'.
Proof.
  intros H H'. unfold set_texture. rewrite H, H'. reflexivity.
Qed.


Lemma index_unknown (t : string) :
  known_texture t = false -> index t textures = None.
Proof.
  unfold known_texture, textures. cbn [existsb index].
  rewrite !orb_false_iff. intros (H1 & H2 & H3 & H4 & _).
  rewrite (String.eqb_sym "solid"), (String.eqb_sym "striped"),
    (String.eqb_sym "gradient"), (String.eqb_sym "polka").
  now rewrite H1, H2, H3, H4.
Qed.

(** X16.  [next_texture] goes round the four textures: solid, striped,
    gradient, polka and solid again, so that four calls give back the
    customization the ball had (and leave it in the file).  It raises
    exactly when the texture of the ball is none of the four, which a
    loaded file can bring about and no mutator can. *)
Theorem next_texture_cycle (w : world) :
  (next_texture w = None <-> known_texture (texture_of w) = false) /\
  (forall w' : world,
     next_texture w = Some w' ->
     known_texture (texture_of w') = true /\
     (texture_of w = "solid" -> texture_of w' = "striped")%string /\
     (texture_of w = "striped" -> texture_of w' = "gradient")%string /\
     (texture_of w = "gradient" -> texture_of w' = "polka")%string /\
     (texture_of w = "polka" -> texture_of w' = "solid")%string) /\
  (known_texture (texture_of w) = true ->
   exists w1 w2 w3 w4 : world,
     next_texture w = Some w1 /\ next_texture w1 = Some w2 /\
     next_texture w2 = Some w3 /\ next_texture w3 = Some w4 /\
     PlayerBall.customization w4.1 = PlayerBall.customization w.1 /\
     w4.2 = Some (save_customization w.1)).
Proof.
  destruct (next_texture_step w) as (S1 & S2 & S3 & S4).
  assert (Hunknown : known_texture (texture_of w) = false ->
                     next_texture w = None).
  { intros H. unfold next_texture. fold (texture_of w).
    now rewrite (index_unknown _ H). }
  split; [|split].
  - split; [|exact Hunknown].
    destruct (known_texture (texture_of w)) eqn:Hk; [|reflexivity].
    destruct (known_texture_cases _ Hk) as [E|[E|[E|E]]];
      [rewrite (S1 E)|rewrite (S2 E)|rewrite (S3 E)|rewrite (S4 E)];
      discriminate.
  - intros w' Hw'.
    destruct (known_texture (texture_of w)) eqn:Hk;
      [|rewrite (Hunknown eq_refl) in Hw'; discriminate].
    destruct (known_texture_cases _ Hk) as [E|[E|[E|E]]];
      [rewrite (S1 E) in Hw'|rewrite (S2 E) in Hw'
      |rewrite (S3 E) in Hw'|rewrite (S4 E) in Hw'];
      injection Hw' as <-; rewrite set_texture_texture by reflexivity;
      rewrite E; repeat split; intros; try reflexivity; discriminate.
  - intros Hk.
    assert (Hloop : forall t1 t2 t3 : string,
      known_texture t1 = true -> known_texture t2 = true ->
      known_texture t3 = true ->
      next_texture w = Some (set_texture w t1) ->
      next_texture (set_texture w t1) = Some (set_texture w t2) ->
      next_texture (set_texture w t2) = Some (set_texture w t3) ->
      next_texture (set_texture w t3) = Some (set_texture w (texture_of w)) ->
      exists w1 w2 w3 w4 : world,
        next_texture w = Some w1 /\ next_texture w1 = Some w2 /\
        next_texture w2 = Some w3 /\ next_texture w3 = Some w4 /\
        PlayerBall.customization w4.1 = PlayerBall.customization w.1 /\
        w4.2 = Some (save_customization w.1)).
    { intros t1 t2 t3 K1 K2 K3 N1 N2 N3 N4.
      exists (set_texture w t1), (set_texture w t2), (set_texture w t3),
             (set_texture w (texture_of w)).
      repeat split; try assumption;
        unfold set_texture; rewrite Hk; destruct w as [b f];
        destruct b as [? ? ? ? ? [] ? ? ?]; reflexivity. }
    assert (Hnext : forall t t' : string,
      known_texture t = true ->
      (forall v : world, texture_of v = t ->
                         next_texture v = Some (set_texture v t')) ->
      known_texture t' = true ->
      next_texture (set_texture w t) = Some (set_texture w t')).
    { intros t t' K N K'.
      rewrite (N (set_texture w t) (set_texture_texture w t K)).
      now rewrite set_texture_twice. }
    destruct (known_texture_cases _ Hk) as [E|[E|[E|E]]];
      [ apply (Hloop "striped" "gradient" "polka")%string
      | apply (Hloop "gradient" "polka" "solid")%string
      | apply (Hloop "polka" "solid" "striped")%string
      | apply (Hloop "solid" "striped" "gradient")%string ];
      try reflexivity;
      first [ apply S1; exact E | apply S2; exact E | apply S3; exact E
            | apply S4; exact E | idtac ];
      rewrite ?E; apply Hnext; try reflexivity;
      intros v; apply next_texture_step.
Qed.

End Textures.

(** ** The game: events and frames *)

Section GameSound.

Import GameApp.

Variables SCREEN_WIDTH SCREEN_HEIGHT GRAVITY : Q.

Lemma known_level (lm : LevelManager.t) (k : Z) :
  reachable lm -> (1 <= k <= 3)%Z ->
  exists d d0 : LevelManager.level_data,
    LevelManager.levels lm !! k = Some d /\
    LevelManager.load_levels !! k = Some d0 /\
    LevelManager.start_pos d = LevelManager.start_pos d0.
Proof.
  intros Hr Hk.
  assert (Hknown : known k) by (unfold known; lia).
  destruct (proj2 (reachable_keys lm Hr k) Hknown) as [d Hd].
  pose proof (reachable_like_blueprint lm Hr k) as Hlike.
  rewrite Hd in Hlike. inversion Hlike as [d0 d' Hm E0 E|]; subst d'.
  exists d, d0. repeat split; auto. apply Hm.
Qed.

(** [init_game] on a game whose current level (1 after a reset) is one of
    the three. *)
Lemma init_game_ok (g : t) (reset_lives : bool) :
  max_level g = 3%Z -> reachable (level_manager g) ->
  file_ok (customization_file g) ->
  reset_lives = true \/ (1 <= current_level g <= 3)%Z ->
  let g' := init_game g reset_lives in
  game_ok g' /\
  state g' = state g /\ running g' = running g /\
  customization_file g' = customization_file g /\
  current_level g' = (if reset_lives then 1%Z else current_level g) /\
  score g' = (if reset_lives then 0%Z else score g) /\
  lives g' = (if reset_lives then 3%Z else lives g) /\
  exists d0 : LevelManager.level_data,
    LevelManager.load_levels !! current_level g' = Some d0 /\
    player g' = Some (PlayerBall.init (LevelManager.start_pos d0).1
                        (LevelManager.start_pos d0).2
                        (customization_file g)).
Proof.
  intros Hmax Hr Ht Hlevel g'.
  remember (if reset_lives then 1%Z else current_level g) as k eqn:Ek.
  assert (Hk : (1 <= k <= 3)%Z)
    by (subst k; destruct reset_lives;
        [lia | destruct Hlevel; [discriminate | assumption]]).
  destruct (known_level (level_manager g) k Hr Hk) as (d & d0 & Hd & Hd0 & Hs).
  assert (E : g' = mk (state g) (running g)
                 (Some (PlayerBall.init (LevelManager.start_pos d0).1
                          (LevelManager.start_pos d0).2
                          (customization_file g)))
                 (LevelManager.mk (LevelManager.levels (level_manager g)) k
                    (Some k) (Some k) (Some k))
                 k (max_level g)
                 (if reset_lives then 0%Z else score g)
                 (if reset_lives then 3%Z else lives g)
                 (customization_file g)).
  { subst g'. unfold init_game, LevelManager.load_level.
    destruct reset_lives; subst k;
      cbn [level_manager current_level set_current_level set_score set_lives];
      rewrite Hd; cbn; rewrite Hs; reflexivity. }
  assert (Hload : (LevelManager.load_level (level_manager g) k).1
                  = LevelManager.mk (LevelManager.levels (level_manager g)) k
                      (Some k) (Some k) (Some k))
    by (unfold LevelManager.load_level; now rewrite Hd).
  assert (Hk' : current_level g' = k) by (rewrite E; reflexivity).
  rewrite Hk'. rewrite E.
  unfold game_ok, game_pre, player_ok.
  cbn [state running player level_manager current_level max_level score
       lives customization_file LevelManager.current_level
       LevelManager.platforms_ref LevelManager.enemies_ref
       LevelManager.goal_ref].
  split; [|repeat split; try reflexivity; eauto].
  split; [|repeat split; try reflexivity; lia].
  split; [exact Hmax|]. split.
  - rewrite <- Hload. now apply reach_load.
  - eexists. split; [reflexivity|]. split; [reflexivity|]. exact Ht.
Qed.

Lemma game_ok_pre (g : t) : game_ok g -> game_pre g.
Proof. now intros (H & _). Qed.

Lemma game_pre_file (g : t) : game_pre g -> file_ok (customization_file g).
Proof.
  intros (_ & _ & (p & _ & Hc & Ht)). unfold file_ok. now rewrite <- Hc.
Qed.


Lemma set_running_ok (g : t) (r : bool) :
  game_ok g -> game_ok (set_running g r).
Proof. now intros H. Qed.


















End GameSound.

(** ** A turn of the game *)

Section Play.

Import GameApp.

Variables SCREEN_WIDTH SCREEN_HEIGHT GRAVITY : Q.

Lemma new_ok (file : option Customization.saved) :
  file_ok file -> game_ok (new file).
Proof.
  intros Hf. unfold new.
  exact (proj1 (init_game_ok (mk MENU true None LevelManager.init 1 3 0 3 file)
                  true eq_refl reach_init Hf (or_introl eq_refl))).
Qed.


(** X18.  What [init_game] gives.  In a sound game, [init_game] puts a new
    ball at the start position of the blueprint of the current level (level
    1 after a reset), at rest and off the ground; the ball looks as the old
    one did, since every mutator has saved what it set; the state of the
    game is kept; lives, score and level are reset to 3, 0 and 1 when
    [reset_lives] holds and are kept otherwise. *)
Theorem init_game_restarts (g : t) (p : PlayerBall.t) (reset_lives : bool) :
  game_ok g -> player g = Some p ->
  exists (blueprint : LevelManager.level_data) (p' : PlayerBall.t),
    let g' := init_game g reset_lives in
    game_ok g' /\
    state g' = state g /\
    current_level g' = (if reset_lives then 1%Z else current_level g) /\
    score g' = (if reset_lives then 0%Z else score g) /\
    lives g' = (if reset_lives then 3%Z else lives g) /\
    LevelManager.load_levels !! current_level g' = Some blueprint /\
    player g' = Some p' /\
    (PlayerBall.x p', PlayerBall.y p') = LevelManager.start_pos blueprint /\
    PlayerBall.vel_x p' = 0 /\ PlayerBall.vel_y p' = 0 /\
    PlayerBall.on_ground p' = false /\
    same_look (PlayerBall.customization p) (PlayerBall.customization p').
Proof.
  intros Hok Hp.
  pose proof Hok as ((Hmax & Hr & (p0 & Hp0 & Hc & Ht)) & Hcl & _).
  rewrite Hp in Hp0. injection Hp0 as <-.
  destruct (init_game_ok g reset_lives Hmax Hr
              (game_pre_file g (game_ok_pre g Hok)) (or_intror Hcl))
    as (Hok' & Hs & _ & _ & Hl & Hsc & Hli & d0 & Hd0 & Hp').
  exists d0, (PlayerBall.init (LevelManager.start_pos d0).1
                (LevelManager.start_pos d0).2 (customization_file g)).
  cbv zeta. rewrite Hp'.
  split; [exact Hok'|].
  repeat split; try assumption; try reflexivity;
    try (cbn [PlayerBall.init PlayerBall.customization]; now rewrite Hc).
  cbn [PlayerBall.init PlayerBall.x PlayerBall.y].
  now destruct (LevelManager.start_pos d0).
Qed.


End Play.

(** ** Stopping and starting *)

Section Running.

Import GameApp.

Variables SCREEN_WIDTH SCREEN_HEIGHT GRAVITY : Q.

Lemma init_game_running (g : t) (reset_lives : bool) :
  running (init_game g reset_lives) = running g.
Proof.
  unfold init_game. destruct reset_lives; cbv zeta;
    match goal with
    | |- context [LevelManager.load_level ?lm ?k] =>
        destruct (LevelManager.load_level lm k) as [lm' [pos|]]
    end; reflexivity.
Qed.

Lemma on_player_running (f : PlayerBall.t -> PlayerBall.t) (b : bool)
    (g g' : t) :
  (if b then on_player f g else Some g) = Some g' -> running g' = running g.
Proof.
  unfold on_player. destruct b, (player g); cbn [mbind option_bind];
    intros H; try discriminate; now injection H as <-.
Qed.

Lemma on_settings_running (f : Settings.world -> Settings.world) (g g' : t) :
  on_settings f g = Some g' -> running g' = running g.
Proof.
  unfold on_settings. destruct (player g); cbn [mbind option_bind];
    intros H; try discriminate; now injection H as <-.
Qed.

Lemma handle_menu_running (g : t) (e : event) :
  running g = false -> running (handle_menu_events g e) = false.
Proof.
  intros H. destruct e as [|k|]; try exact H.
  destruct k; try exact H; try reflexivity.
  cbn [handle_menu_events running set_state]. now rewrite init_game_running.
Qed.

Lemma handle_level_select_running (g : t) (e : event) :
  running (handle_level_select_events g e) = running g.
Proof.
  destruct e as [|k|]; try reflexivity.
  destruct k; try reflexivity;
    cbn [handle_level_select_events andb Z.leb Z.compare Pos.compare
         Pos.compare_cont running set_state];
    now rewrite init_game_running.
Qed.

Lemma handle_customize_running (g g' : t) (e : event) :
  handle_customize_events g e = Some g' -> running g' = running g.
Proof.
  unfold handle_customize_events.
  destruct e as [|k|]; try (intros H; now injection H as <-).
  destruct k; try (intros H; now injection H as <-);
    destruct (player g) as [p|] eqn:Hp; cbn [mbind option_bind];
    try discriminate; try apply on_settings_running.
  destruct (Settings.next_texture _); cbn [mbind option_bind];
    intros H; try discriminate; now injection H as <-.
Qed.

Lemma handle_game_play_running (g g' : t) (e : event) (keys : pressed) :
  handle_game_play_events g e keys = Some g' -> running g' = running g.
Proof.
  unfold handle_game_play_events.
  assert (H0 : running match e with
                       | KEYDOWN K_ESCAPE => set_state g MENU
                       | KEYDOWN K_r => init_game g false
                       | _ => g
                       end = running g).
  { destruct e as [|k|]; try reflexivity. destruct k; try reflexivity.
    apply init_game_running. }
  revert H0. generalize match e with
                        | KEYDOWN K_ESCAPE => set_state g MENU
                        | KEYDOWN K_r => init_game g false
                        | _ => g
                        end.
  intros g0 H0. cbv zeta.
  destruct (if left keys then _ else _) as [g1|] eqn:E1;
    cbn [mbind option_bind]; [|discriminate].
  destruct (if right keys then _ else _) as [g2|] eqn:E2;
    cbn [mbind option_bind]; [|discriminate].
  intros E3.
  rewrite (on_player_running _ _ _ _ E3), (on_player_running _ _ _ _ E2),
    (on_player_running _ _ _ _ E1).
  exact H0.
Qed.

Lemma handle_event_running (g g' : t) (e : event) (keys : pressed) :
  handle_event g e keys = Some g' ->
  running g = false \/ e = QUIT -> running g' = false.
Proof.
  unfold handle_event.
  assert (H0 : running g = false \/ e = QUIT ->
               running match e with QUIT => set_running g false | _ => g end
               = false)
    by (intros [H| ->]; [destruct e; [reflexivity | exact H | exact H]
                        | reflexivity]).
  revert H0. generalize match e with QUIT => set_running g false | _ => g end.
  intros g0 H0. cbv zeta. intros H Hq. specialize (H0 Hq).
  destruct (state g0).
  - injection H as <-. now apply handle_menu_running.
  - now rewrite (handle_customize_running _ _ _ H).
  - injection H as <-. now rewrite handle_level_select_running.
  - now rewrite (handle_game_play_running _ _ _ _ H).
  - injection H as <-. destruct e as [|k|]; try exact H0.
    destruct k; exact H0.
Qed.

Lemma handle_events_running (events : list event) (keys : pressed)
    (g g' : t) :
  handle_events g events keys = Some g' ->
  running g = false \/ In QUIT events -> running g' = false.
Proof.
  revert g. induction events as [|e events IH]; intros g.
  - intros H [Hr|[]]. now injection H as <-.
  - cbn [handle_events In].
    destruct (handle_event g e keys) as [g1|] eqn:E1;
      cbn [mbind option_bind]; [|discriminate].
    intros H Hq. apply (IH g1 H).
    destruct Hq as [Hr|[->|Hin]]; [left|left|right].
    + apply (handle_event_running _ _ _ _ E1). now left.
    + apply (handle_event_running _ _ _ _ E1). now right.
    + exact Hin.
Qed.

Lemma update_running (g g' : t) :
  update SCREEN_WIDTH SCREEN_HEIGHT GRAVITY g = Some g' ->
  running g' = running g.
Proof.
  unfold update.
  destruct (state g), (player g) as [p|];
    try (intros H; now injection H as <-).
  destruct (Game.update _ _ _ _ _) as [f|]; cbn [mbind option_bind];
    [|discriminate].
  destruct (Game.taken f).
  - unfold next_level.
    destruct (_ <? _)%Z; cbn [fst snd]; intros H; injection H as <-;
      cbn [running set_state]; rewrite ?init_game_running; reflexivity.
  - destruct (_ <=? _)%Z; intros H; injection H as <-;
      cbn [running set_state]; rewrite ?init_game_running; reflexivity.
  - intros H; now injection H as <-.
Qed.

(** X20.  A [QUIT] event stops the game for good.  When the events of a
    turn hold a [QUIT] event and the turn goes through, [running] is false
    at its end, whatever the state of the game, the place of the event
    among the others and the keys held down: no handler and no branch of
    [update] sets the flag again. *)
Theorem quit_stops_the_game (g g' : t) (events : list event)
    (keys : pressed) :
  In QUIT events ->
  turn SCREEN_WIDTH SCREEN_HEIGHT GRAVITY g events keys = Some g' ->
  running g' = false.
Proof.
  intros Hin. unfold turn.
  destruct (handle_events g events keys) as [g1|] eqn:E1;
    cbn [mbind option_bind]; [|discriminate].
  intros H. rewrite (update_running _ _ H).
  apply (handle_events_running _ _ _ _ E1). now right.
Qed.

Lemma select_level (g : t) (k : key) (n : Z) (keys : pressed) :
  state g = LEVEL_SELECT -> key_digit k = Some n ->
  handle_event g (KEYDOWN k) keys
  = Some (set_state (init_game (set_current_level g n) false) GAME_PLAY) /\
  (1 <= n <= 3)%Z.
Proof.
  intros Hs Hk. unfold handle_event. rewrite Hs.
  destruct k; try discriminate; injection Hk as <-;
    (split; [reflexivity | lia]).
Qed.

(** X21.  Starting a game.  Key 1 of the menu starts level 1 with three
    lives and no score.  A digit key of the level selection starts that
    level with the score and the lives the game had, so that a game that
    ended with no life left goes on with none.  Either way the game is in
    play with the chosen level loaded. *)
Theorem starting_a_game (g : t) (keys : pressed) :
  game_ok g ->
  (state g = MENU ->
   exists g' : t,
     handle_event g (KEYDOWN K_1) keys = Some g' /\ game_ok g' /\
     state g' = GAME_PLAY /\ current_level g' = 1%Z /\
     score g' = 0%Z /\ lives g' = 3%Z) /\
  (state g = LEVEL_SELECT ->
   forall (k : key) (n : Z),
     key_digit k = Some n ->
     exists g' : t,
       handle_event g (KEYDOWN k) keys = Some g' /\ game_ok g' /\
       state g' = GAME_PLAY /\ current_level g' = n /\
       score g' = score g /\ lives g' = lives g).
Proof.
  intros Hok.
  pose proof Hok as ((Hmax & Hr & Hpl) & Hcl & _).
  pose proof (game_pre_file g (game_ok_pre g Hok)) as Hfile.
  split.
  - intros Hs. unfold handle_event. rewrite Hs.
    eexists. split; [reflexivity|].
    destruct (init_game_ok g true Hmax Hr Hfile (or_introl eq_refl))
      as (Hok' & _ & _ & _ & Hl & Hsc & Hli & _).
    cbn [handle_menu_events state current_level score lives set_state].
    repeat split; try assumption; apply Hok'.
  - intros Hs k n Hk.
    destruct (select_level g k n keys Hs Hk) as (-> & Hn).
    eexists. split; [reflexivity|].
    destruct (init_game_ok (set_current_level g n) false Hmax Hr Hfile
                (or_intror Hn))
      as (Hok' & _ & _ & _ & Hl & Hsc & Hli & _).
    cbn [state current_level score lives set_state].
    repeat split; try assumption; apply Hok'.
Qed.

End Running.

(** ** The high score *)

(** X22.  The high score of the game-over screen.  The high score shown is
    the larger of the score and of the number in the file (0 when the file
    is missing or holds no number); the file is written only when the score
    is larger, and then holds the score; showing the screen again changes
    nothing; and when the file holds a number afterwards, it is the high
    score shown. *)
Theorem high_score_is_the_maximum (file : option Z) (score : Z) :
  let r := GameApp.save_high_score file score in
  r.2 = Z.max (default 0%Z file) score /\
  (r.1 <> file -> (default 0%Z file < score)%Z /\ r.1 = Some score) /\
  GameApp.save_high_score r.1 score = r /\
  (forall n : Z, r.1 = Some n -> n = r.2).
Proof.
  unfold GameApp.save_high_score.
  destruct (default 0%Z file <? score)%Z eqn:E; cbn [fst snd default].
  - apply Z.ltb_lt in E. repeat split; try lia.
    + now rewrite Z.ltb_irrefl.
    + intros n H. now injection H as <-.
  - rewrite E. apply Z.ltb_ge in E. repeat split; try lia; try congruence.
    intros n ->. reflexivity.
Qed.

(** ** Where the water is *)

Section Immersion.

Import LevelManager.

(** The attributes refer to nothing before the first load and to the
    current level, one of the three, ever after. *)
Lemma reachable_refs (lm : t) :
  reachable lm ->
  platforms_ref lm = None /\ current_level lm = 0%Z \/
  platforms_ref lm = Some (current_level lm) /\ known (current_level lm).
Proof.
  induction 1 as [|lm j Hr IH|lm lm' player r _ IH Hup].
  - now left.
  - unfold load_level. destruct (levels lm !! j) as [d|] eqn:E; [|exact IH].
    right. split; [reflexivity|].
    apply (reachable_keys lm Hr). cbn [current_level fst]. now rewrite E.
  - destruct (update_refs _ _ _ _ Hup) as (-> & -> & _). exact IH.
Qed.

(** The moves keep the water platforms as they are. *)
Lemma moved_only_water (ps ps' : list Platform.t) :
  Forall2 moved_only ps ps' ->
  List.filter (Platform.has_type "water") ps'
  = List.filter (Platform.has_type "water") ps.
Proof.
  induction 1 as [|p p' ps ps' (_ & _ & _ & _ & Ht & _ & _ & Hsame) _ IH];
    [reflexivity|].
  cbn [List.filter]. rewrite IH.
  destruct (Platform.has_type "moving" p) eqn:Hm.
  - assert (Hw : Platform.has_type "water" p = false).
    { unfold Platform.has_type in *. destruct (Platform.type p) as [s|];
        [|reflexivity].
      apply String.eqb_eq in Hm. now subst s. }
    assert (Hw' : Platform.has_type "water" p' = false)
      by (unfold Platform.has_type in *; now rewrite Ht).
    now rewrite Hw, Hw'.
  - now rewrite (Hsame eq_refl).
Qed.

Lemma water_platforms_fixed (lm : t) (k : Z) (blueprint : level_data) :
  reachable lm -> platforms_ref lm = Some k ->
  load_levels !! k = Some blueprint ->
  get_water_platforms lm
  = List.filter (Platform.has_type "water") (lv_platforms blueprint).
Proof.
  intros Hr Hk Hb. unfold get_water_platforms, platforms. rewrite Hk.
  pose proof (reachable_like_blueprint lm Hr k) as Hlike.
  rewrite Hb in Hlike. inversion Hlike as [d0 d (Hps & _) E0 Ed|]; subst d0.
  cbn [fmap option_fmap option_map default from_option id].
  now apply moved_only_water.
Qed.

(** X23.  Where the water is.  In every state of the level manager, the
    immersion flag of a frame is set exactly when level 2 is loaded and the
    lowest point of the ball is within the water band of that level: its
    centre between 0 and 800 across, its lowest point between 500 and 550
    down.  Levels 1 and 3 have no water, and no frame moves the water of
    level 2. *)
Theorem water_is_in_level_two (lm : t) (b : PlayerBall.t) :
  reachable lm ->
  Game.in_water lm b = true <->
  current_level lm = 2%Z /\
  0 <= PlayerBall.x b <= 800 /\
  500 <= PlayerBall.y b + PlayerBall.radius b <= 550.
Proof.
  intros Hr. unfold Game.in_water.
  destruct (reachable_refs lm Hr) as [[Hn H0]|[Hk Hknown]].
  - unfold get_water_platforms, platforms. rewrite Hn, H0.
    cbn [List.filter existsb]. split; [discriminate | intros [? _]; lia].
  - assert (Hother : forall d : level_data,
              load_levels !! current_level lm = Some d ->
              List.filter (Platform.has_type "water") (lv_platforms d) = [] ->
              current_level lm <> 2%Z ->
              existsb
                (fun platform =>
                   Qle_bool (Platform.x platform) (PlayerBall.x b) &&
                   Qle_bool (PlayerBall.x b)
                     (Platform.x platform + Platform.width platform) &&
                   Qle_bool (Platform.y platform)
                     (PlayerBall.y b + PlayerBall.radius b) &&
                   Qle_bool (PlayerBall.y b + PlayerBall.radius b)
                     (Platform.y platform + Platform.height platform))
                (get_water_platforms lm) = true <->
              current_level lm = 2%Z /\
              0 <= PlayerBall.x b <= 800 /\
              500 <= PlayerBall.y b + PlayerBall.radius b <= 550).
    { intros d Hd Hw Hne.
      rewrite (water_platforms_fixed lm _ d Hr Hk Hd), Hw.
      cbn [existsb]. split; [discriminate | intros [? _]; contradiction]. }
    destruct Hknown as [E|[E|E]].
    + apply (Hother level1); rewrite ?E; [reflexivity | reflexivity | lia].
    + rewrite (water_platforms_fixed lm _ level2 Hr Hk)
        by (rewrite E; reflexivity).
      change (List.filter (Platform.has_type "water") (lv_platforms level2))
        with [level2_water].
      cbn [existsb level2_water Platform.x Platform.y Platform.width
           Platform.height].
      rewrite orb_false_r, !andb_true_iff, !Qle_bool_iff.
      split.
      * intros (((H1 & H2) & H3) & H4). split; [exact E|]. split; split; lra.
      * intros (_ & (H1 & H2) & H3 & H4). repeat split; lra.
    + apply (Hother level3); rewrite ?E; [reflexivity | reflexivity | lia].
Qed.

End Immersion.

(** Level 2 and a ball standing on the surface of the water. *)
Lemma water_is_in_level_two_witness :
  reachable level2_loaded /\
  Game.in_water level2_loaded ball_on_water = true.
Proof.
  assert (H : reachable level2_loaded) by exact (reach_load _ 2 reach_init).
  split; [exact H|].
  apply (proj2 (water_is_in_level_two level2_loaded ball_on_water H)).
  split; [reflexivity|].
  split; split; vm_compute; discriminate.
Defined.

(** ** The mutators and the game at concrete inputs *)

(** A ball that has just been built: its defaults are in range. *)
Lemma mutators_keep_ranges_witness :
  Customization.in_ranges (PlayerBall.customization fresh_world.1) /\
  Customization.in_ranges
    (PlayerBall.customization (Settings.set_size fresh_world 70).1).
Proof.
  assert (H : Customization.in_ranges
                (PlayerBall.customization fresh_world.1))
    by (repeat split; vm_compute; discriminate).
  split; [exact H|].
  exact (proj1 (proj2 (proj2 (proj1 (mutators_keep_ranges fresh_world) H)))
           70).
Defined.

(** The solid ball that has just been built. *)
Lemma next_texture_cycle_witness :
  Settings.known_texture (texture_of fresh_world) = true /\
  exists w1 w2 w3 w4 : Settings.world,
    Settings.next_texture fresh_world = Some w1 /\
    Settings.next_texture w1 = Some w2 /\
    Settings.next_texture w2 = Some w3 /\
    Settings.next_texture w3 = Some w4 /\
    PlayerBall.customization w4.1 = PlayerBall.customization fresh_world.1 /\
    w4.2 = Some (Settings.save_customization fresh_world.1).
Proof.
  assert (H : Settings.known_texture (texture_of fresh_world) = true)
    by reflexivity.
  split; [exact H|].
  exact (proj2 (proj2 (next_texture_cycle fresh_world)) H).
Defined.


(** The reset key of a new game. *)
Lemma init_game_restarts_witness :
  (game_ok (GameApp.new None) /\
   GameApp.player (GameApp.new None) = Some (PlayerBall.init 100 50 None)) /\
  exists (blueprint : LevelManager.level_data) (p' : PlayerBall.t),
    LevelManager.load_levels
      !! GameApp.current_level (GameApp.init_game (GameApp.new None) false)
    = Some blueprint /\
    GameApp.player (GameApp.init_game (GameApp.new None) false) = Some p' /\
    (PlayerBall.x p', PlayerBall.y p') = LevelManager.start_pos blueprint.
Proof.
  assert (H : game_ok (GameApp.new None)) by (apply new_ok; reflexivity).
  assert (Hp : GameApp.player (GameApp.new None)
               = Some (PlayerBall.init 100 50 None)) by reflexivity.
  split; [split; [exact H | exact Hp]|].
  destruct (init_game_restarts (GameApp.new None) _ false H Hp)
    as (d & p' & _ & _ & _ & _ & _ & Hd & Hp' & Hpos & _).
  exists d, p'. auto.
Defined.


(** Closing the window in the menu of a new game. *)
Lemma quit_stops_the_game_witness :
  (In GameApp.QUIT [GameApp.QUIT] /\
   GameApp.turn 800 600 (1 # 2) (GameApp.new None) [GameApp.QUIT]
     (GameApp.mk_pressed false false false)
   = Some (GameApp.set_running (GameApp.new None) false)) /\
  GameApp.running (GameApp.set_running (GameApp.new None) false) = false.
Proof.
  assert (Hin : In GameApp.QUIT [GameApp.QUIT]) by (left; reflexivity).
  assert (Ht : GameApp.turn 800 600 (1 # 2) (GameApp.new None) [GameApp.QUIT]
                 (GameApp.mk_pressed false false false)
               = Some (GameApp.set_running (GameApp.new None) false))
    by reflexivity.
  split; [split; [exact Hin | exact Ht]|].
  exact (quit_stops_the_game 800 600 (1 # 2) _ _ _ _ Hin Ht).
Defined.

(** Key 1 in the menu of a new game. *)
Lemma starting_a_game_witness :
  game_ok (GameApp.new None) /\
  exists g' : GameApp.t,
    GameApp.handle_event (GameApp.new None) (GameApp.KEYDOWN GameApp.K_1)
      (GameApp.mk_pressed false false false)
    = Some g' /\
    GameApp.state g' = GameApp.GAME_PLAY /\ GameApp.lives g' = 3%Z.
Proof.
  assert (H : game_ok (GameApp.new None)) by (apply new_ok; reflexivity).
  split; [exact H|].
  destruct (proj1 (starting_a_game (GameApp.new None)
                     (GameApp.mk_pressed false false false) H) eq_refl)
    as (g' & Hg' & _ & Hs & _ & _ & Hl).
  exists g'. auto.
Defined.
